(** * cursor_bundle: command dispatcher, download manager, installation engine

    A shallow embedding of three pieces of the repository:

    - [Launcher]   : [EnterpriseFlaskApp.validate_command] and
                     [EnterpriseFlaskApp.execute_safe_command] with the audit
                     logger of [AdvancedLogger] (06-launcherplus-improved.py);
    - [Downloader] : [DownloadManager.download_file] and
                     [DownloadManager.verify_checksum] over a file store
                     (07-tkinter-improved.py);
    - [Installer]  : [InstallationEngine.install] with its [abort], [pause]
                     and [resume] controls, as a step machine interleaved
                     with the calls of the user-interface thread
                     (07-tkinter-improved.py).

    Python [str] values are Rocq strings whose characters are read as the
    code points 0..255 (Latin-1); [bytes] values are lists of bytes. *)

From Stdlib Require Import ZArith QArith Lia Bool Ascii String List.
From stdpp Require Import base option list gmap strings pretty.
Import ListNotations.

Local Open Scope string_scope.

(** ** Python values shared by the three parts *)

(** What a Python call gives back: a value, or a raised [Exception] carrying
    the text [str(e)] of the exception. *)
Inductive outcome (A : Type) : Type :=
  | Return (a : A)
  | Raise (e : string).
Arguments Return {A} a.
Arguments Raise {A} e.

Module PyStr.

(** [str.isspace] on one character (code points 0..255): the ASCII
    controls TAB..CR, the separators FS..US, the space, NEL and NBSP. *)
Definition isspace (c : ascii) : bool :=
  let n := N_of_ascii c in
  ((9 <=? n) && (n <=? 13) || (28 <=? n) && (n <=? 32)
   || (n =? 133) || (n =? 160))%N.

(** [str.lower] on one character: A..Z and the Latin-1 capitals
    U+00C0..U+00DE (the multiplication sign U+00D7 excepted) move up by 32. *)
Definition lower_char (c : ascii) : ascii :=
  let n := N_of_ascii c in
  if ((65 <=? n) && (n <=? 90)
      || (192 <=? n) && (n <=? 222) && negb (n =? 215))%N
  then ascii_of_N (n + 32) else c.

Fixpoint lower (s : string) : string :=
  match s with
  | EmptyString => EmptyString
  | String c s' => String (lower_char c) (lower s')
  end.

Fixpoint lstrip (s : string) : string :=
  match s with
  | EmptyString => EmptyString
  | String c s' => if isspace c then lstrip s' else s
  end.

Fixpoint rstrip (s : string) : string :=
  match s with
  | EmptyString => EmptyString
  | String c s' =>
      let r := rstrip s' in
      if isspace c && String.eqb r EmptyString then EmptyString
      else String c r
  end.

(** [s.strip()] *)
Definition strip (s : string) : string := rstrip (lstrip s).

(** [s.startswith(p)] *)
Definition startswith (s p : string) : bool := String.prefix p s.

(** [p in s] *)
Fixpoint contains (p s : string) : bool :=
  String.prefix p s ||
  match s with
  | EmptyString => false
  | String _ s' => contains p s'
  end.

(** [sep.join(l)] *)
Fixpoint join (sep : string) (l : list string) : string :=
  match l with
  | [] => EmptyString
  | [x] => x
  | x :: l' => x ++ sep ++ join sep l'
  end.

(** [any(f(x) for x in l)] *)
Definition any {A} (f : A -> bool) (l : list A) : bool := existsb f l.

(** [s.rfind(c)], [None] for -1. *)
Fixpoint rfind (c : ascii) (s : string) : option nat :=
  match s with
  | EmptyString => None
  | String a s' =>
      match rfind c s' with
      | Some i => Some (S i)
      | None => if Ascii.eqb a c then Some 0 else None
      end
  end.

End PyStr.

(** ** 06-launcherplus-improved.py: validation and dispatch of commands *)

Module Launcher.

Import PyStr.

(** The three fields of [EnterpriseConfig] the validator reads. *)
Record EnterpriseConfig : Type := {
  MAX_COMMAND_LENGTH : Z;
  ALLOWED_COMMANDS : list string;
  DANGEROUS_PATTERNS : list string
}.

(** The defaults of [EnterpriseConfig] and of its [__post_init__]. *)
Definition config : EnterpriseConfig := {|
  MAX_COMMAND_LENGTH := 1000;
  ALLOWED_COMMANDS :=
    ["status"; "version"; "check"; "info"; "help"; "list"; "health";
     "metrics"; "logs"; "users"; "sessions"; "audit"];
  DANGEROUS_PATTERNS :=
    ["&"; "|"; ";"; "`"; "$"; ">"; "<"; "("; ")"; "{"; "}";
     "rm"; "del"; "format"; "sudo"; "su"; "passwd"]
|}.

(** [validate_command]: the pair (accepted, reason). *)
Definition validate_command (cfg : EnterpriseConfig) (command : string)
  : bool * string :=
  if String.eqb command "" || (String.length (strip command) =? 0)%nat then
    (false, "Command cannot be empty")
  else if (MAX_COMMAND_LENGTH cfg <? Z.of_nat (String.length command))%Z then
    (false,
     "Command too long (max " ++ pretty (MAX_COMMAND_LENGTH cfg) ++ " chars)")
  else
    let clean_command := lower (strip command) in
    let allowed :=
      any (fun cmd => startswith clean_command cmd) (ALLOWED_COMMANDS cfg) in
    if negb allowed then
      (false,
       "Command not allowed. Allowed commands: "
         ++ join ", " (ALLOWED_COMMANDS cfg))
    else if any (fun pattern => contains pattern command)
                (DANGEROUS_PATTERNS cfg) then
      (false, "Command contains dangerous patterns")
    else
      (true, "Command is valid").

(** The two tests a command has to get through at the end of
    [validate_command]: the prefix test on the trimmed, lower-cased text
    and the substring test on the text as given. *)
Definition allowed (cfg : EnterpriseConfig) (command : string) : bool :=
  any (fun cmd => startswith (lower (strip command)) cmd)
      (ALLOWED_COMMANDS cfg).

Definition dangerous (cfg : EnterpriseConfig) (command : string) : bool :=
  any (fun pattern => contains pattern command) (DANGEROUS_PATTERNS cfg).

(** One record written by [AdvancedLogger.audit]: the dictionary
    [audit_data], with the clock reading taken when it was built. *)
Record AuditEvent : Type := {
  timestamp : nat;
  action : string;
  user : string;
  details : list (string * string)
}.

(** The logger as the dispatcher sees it: the records of the audit logger
    (append-only, oldest first), the lines of [logger.error], and the clock
    that [datetime.now()] reads. *)
Record Logger : Type := {
  clock : nat;
  audit_log : list AuditEvent;
  error_log : list string
}.

(** [logger.audit(action, user, details)] *)
Definition audit (act usr : string) (det : list (string * string))
    (lg : Logger) : Logger :=
  let audit_data :=
    {| timestamp := clock lg; action := act; user := usr; details := det |} in
  {| clock := S (clock lg);
     audit_log := audit_log lg ++ [audit_data];
     error_log := error_log lg |}.

(** [logger.error(msg)] *)
Definition error (msg : string) (lg : Logger) : Logger :=
  {| clock := clock lg;
     audit_log := audit_log lg;
     error_log := error_log lg ++ [msg] |}.

(** The command implementations [_cmd_status] ... [_cmd_audit] read the
    database, the process table and the performance monitor. Here each is
    what it does in the environment of the call: the lines it passes to
    [logger.error] (none of them calls [logger.audit]) and the text it
    returns or the exception it raises. *)
Definition handler : Type := list string * outcome string.

Record Handlers : Type := {
  _cmd_status : handler;
  _cmd_version : handler;
  _cmd_check : handler;
  _cmd_info : handler;
  _cmd_help : handler;
  _cmd_health : handler;
  _cmd_metrics : handler;
  _cmd_users : handler;
  _cmd_sessions : handler;
  _cmd_audit : handler
}.

(** The [if]/[elif] chain of [execute_safe_command]. *)
Definition dispatch (h : Handlers) (command command_lower : string) : handler :=
  if String.eqb command_lower "status" then _cmd_status h
  else if String.eqb command_lower "version" then _cmd_version h
  else if String.eqb command_lower "check" then _cmd_check h
  else if String.eqb command_lower "info" then _cmd_info h
  else if String.eqb command_lower "help" then _cmd_help h
  else if String.eqb command_lower "health" then _cmd_health h
  else if String.eqb command_lower "metrics" then _cmd_metrics h
  else if String.eqb command_lower "users" then _cmd_users h
  else if String.eqb command_lower "sessions" then _cmd_sessions h
  else if String.eqb command_lower "audit" then _cmd_audit h
  else ([], Return ("Command '" ++ command
                      ++ "' is recognized but not implemented yet.")).

(** [execute_safe_command(command, username)]: the logger after the call
    and the returned text. *)
Definition execute_safe_command (cfg : EnterpriseConfig) (h : Handlers)
    (command username : string) (lg : Logger) : Logger * string :=
  let '(is_valid, message) := validate_command cfg command in
  if negb is_valid then
    (audit "command_rejected" username
           [("command", command); ("reason", message)] lg,
     "ERROR: " ++ message)
  else
    let lg := audit "command_executed" username [("command", command)] lg in
    let command_lower := lower (strip command) in
    let '(lines, result) := dispatch h command command_lower in
    let lg := fold_left (fun l msg => error msg l) lines lg in
    match result with
    | Return text => (lg, text)
    | Raise e =>
        let lg :=
          error ("Error executing command '" ++ command ++ "': " ++ e) lg in
        let lg :=
          audit "command_error" username
                [("command", command); ("error", e)] lg in
        (lg, "ERROR: Failed to execute command - " ++ e)
    end.

(** The audit records a call added to the log. *)
Definition emitted (before after : Logger) : list AuditEvent :=
  drop (length (audit_log before)) (audit_log after).

(** Handlers that all return; and the same with a [_cmd_status] that
    raises, as it does when [get_comprehensive_system_info] has returned
    its [{'error': ...}] dictionary and ['application'] is looked up. *)
Definition quiet_handlers : Handlers :=
  let ok := ([], Return "ok") in
  {| _cmd_status := ok; _cmd_version := ok; _cmd_check := ok;
     _cmd_info := ok; _cmd_help := ok; _cmd_health := ok;
     _cmd_metrics := ok; _cmd_users := ok; _cmd_sessions := ok;
     _cmd_audit := ok |}.

Definition failing_status : Handlers :=
  let ok := ([], Return "ok") in
  {| _cmd_status := (["Error getting system info: no such process"],
                     Raise "'application'");
     _cmd_version := ok; _cmd_check := ok;
     _cmd_info := ok; _cmd_help := ok; _cmd_health := ok;
     _cmd_metrics := ok; _cmd_users := ok; _cmd_sessions := ok;
     _cmd_audit := ok |}.

Definition fresh_logger : Logger :=
  {| clock := 0; audit_log := []; error_log := [] |}.

End Launcher.

(** ** 07-tkinter-improved.py: the download manager *)

Module Downloader.

Import PyStr.

Abbreviation bytes := (list Byte.byte).

(** A [pathlib.Path]: the directory part and the final component. *)
Record Path : Type := { parent : string; name : string }.

#[global] Instance Path_eq_dec : EqDecision Path.
Proof. solve_decision. Defined.

#[global] Instance Path_countable : Countable Path :=
  inj_countable' (fun p => (parent p, name p))
                 (fun q => {| parent := q.1; name := q.2 |})
                 (fun p => match p with Build_Path _ _ => eq_refl end).

(** [str(path)] *)
Definition path_str (p : Path) : string := parent p ++ "/" ++ name p.

(** [PurePath.suffix]: the text from the last dot of the name on, when
    that dot is neither the first nor the last character. *)
Definition suffix (p : Path) : string :=
  match rfind "."%char (name p) with
  | Some i =>
      if (0 <? i)%nat && (i <? String.length (name p) - 1)%nat
      then String.substring i (String.length (name p) - i) (name p)
      else ""
  | None => ""
  end.

(** [PurePath.with_suffix(suffix)] for a suffix that is well formed (it
    starts with a dot and holds no separator), as ['.download'] is. *)
Definition with_suffix (p : Path) (suf : string) : outcome Path :=
  if String.eqb (name p) "" then
    Raise ("PosixPath('" ++ path_str p ++ "') has an empty name")
  else
    let old_suffix := suffix p in
    let stem :=
      if String.eqb old_suffix "" then name p
      else String.substring
             0 (String.length (name p) - String.length old_suffix) (name p) in
    Return {| parent := parent p; name := stem ++ suf |}.

(** The request handed to [urllib.request.urlopen]. *)
Record Request : Type := {
  full_url : string;
  headers : list (string * string)
}.

(** [request.add_header(key, val)] *)
Definition add_header (key val : string) (r : Request) : Request :=
  {| full_url := full_url r; headers := headers r ++ [(key, val)] |}.

(** The value of the [Content-Length] header as [int(...)] takes it. *)
Inductive header_value : Type :=
  | Absent
  | Int (z : Z)
  | Malformed (raw : string).

(** One turn of the copy loop, as the network and the disk decide it:
    [response.read] returns a chunk which [f.write] stores, or
    [response.read] raises, or [f.write] raises on the chunk read. *)
Inductive transfer_event : Type :=
  | Data (chunk : bytes)
  | ReadError (e : string)
  | WriteError (chunk : bytes) (e : string).

(** What [urlopen] returns: the status line, the length header, and what
    the successive calls [response.read(chunk_size)] do. A stream that has
    run out returns [b'']. *)
Record Response : Type := {
  status_code : Z;
  content_length : header_value;
  read : Z -> list transfer_event
}.

(** The surroundings of one call: the server behind [urlopen] and the
    faults of the file system ([None]: the operation succeeds). *)
Record Env : Type := {
  mkdir_fault : option string;
  urlopen : Request -> outcome Response;
  open_fault : option string;
  rename_fault : option string
}.

Inductive log_record : Type :=
  | Info (msg : string)
  | Error (msg : string).

(** What a call can change or leave behind: the files on disk, the lines
    of the logger, the requests sent, and the pairs (downloaded,
    total_size) handed to the progress callback. *)
Record World : Type := {
  files : gmap Path bytes;
  log : list log_record;
  requests : list Request;
  reported : list (Z * Z)
}.

(** The progress callback: it receives [downloaded], [total_size] and the
    percentage (here the exact quotient, which Python rounds to a
    float), and returns or raises. *)
Definition callback : Type := Z -> Z -> Q -> outcome unit.

(** Computations that change the world and may raise. *)
Definition M (A : Type) : Type := World -> World * outcome A.

Definition ret {A} (a : A) : M A := fun w => (w, Return a).
Definition raise {A} (e : string) : M A := fun w => (w, Raise e).
Definition bind {A B} (m : M A) (k : A -> M B) : M B :=
  fun w =>
    match m w with
    | (w', Return a) => k a w'
    | (w', Raise e) => (w', Raise e)
    end.
Definition of_outcome {A} (o : outcome A) : M A := fun w => (w, o).
Definition of_fault (f : option string) : M unit :=
  fun w => (w, match f with None => Return tt | Some e => Raise e end).

Notation "'let*' x ':=' m 'in' k" := (bind m (fun x => k))
  (at level 10, x name, m at level 100, k at level 200).

Definition with_files (f : gmap Path bytes -> gmap Path bytes) : M unit :=
  fun w =>
    ({| files := f (files w); log := log w;
        requests := requests w; reported := reported w |}, Return tt).

Definition logger (r : log_record) : M unit :=
  fun w =>
    ({| files := files w; log := log w ++ [r];
        requests := requests w; reported := reported w |}, Return tt).

Definition send (env : Env) (r : Request) : M Response :=
  fun w =>
    ({| files := files w; log := log w;
        requests := requests w ++ [r]; reported := reported w |},
     urlopen env r).

Definition report (downloaded total_size : Z) : M unit :=
  fun w =>
    ({| files := files w; log := log w; requests := requests w;
        reported := reported w ++ [(downloaded, total_size)] |}, Return tt).

(** [open(temp_path, mode)]: ['ab'] keeps what is there, ['wb'] empties
    it; both create a missing file. *)
Definition open_file (env : Env) (p : Path) (append : bool) : M unit :=
  let* _ := of_fault (open_fault env) in
  with_files (fun fs =>
    match fs !! p with
    | Some old => if append then fs else <[p := []]> fs
    | None => <[p := []]> fs
    end).

(** [f.write(chunk)] on the file opened at [p]. *)
Definition write (p : Path) (chunk : bytes) : M unit :=
  with_files (fun fs => <[p := (default [] (fs !! p) ++ chunk)%list]> fs).

(** [temp_path.rename(dest_path)] *)
Definition rename (env : Env) (src dst : Path) : M unit :=
  let* _ := of_fault (rename_fault env) in
  fun w =>
    match files w !! src with
    | Some content =>
        with_files (fun fs => <[dst := content]> (delete src fs)) w
    | None => (w, Raise ("No such file or directory: '" ++ path_str src ++ "'"))
    end.

(** [int(response.headers.get('Content-Length', 0))] *)
Definition int_content_length (h : header_value) : outcome Z :=
  match h with
  | Absent => Return 0%Z
  | Int z => Return z
  | Malformed raw =>
      Raise ("invalid literal for int() with base 10: '" ++ raw ++ "'")
  end.

(** The [while True] loop of [download_file]; the list holds what the
    calls of [response.read(chunk_size)] do, in order. *)
Fixpoint copy_loop (progress_callback : option callback) (temp_path : Path)
    (total_size : Z) (events : list transfer_event) (downloaded : Z)
  : M unit :=
  match events with
  | [] => ret tt
  | ReadError e :: _ => raise e
  | Data [] :: _ | WriteError [] _ :: _ => ret tt
  | WriteError _ e :: _ => raise e
  | Data chunk :: events' =>
      let* _ := write temp_path chunk in
      let downloaded := (downloaded + Z.of_nat (length chunk))%Z in
      let* _ :=
        match progress_callback with
        | Some cb =>
            let progress :=
              if (0 <? total_size)%Z
              then (inject_Z downloaded / inject_Z total_size * 100)%Q
              else 0%Q in
            let* _ := report downloaded total_size in
            of_outcome (cb downloaded total_size progress)
        | None => ret tt
        end in
      copy_loop progress_callback temp_path total_size events' downloaded
  end.

(** The module constant [VERSION], as it is when the working directory
    holds no [VERSION] file. *)
Definition VERSION : string := "6.9.215".

(** The body of the [try] block of [download_file]. *)
Definition download_body (env : Env) (url : string) (dest_path : Path)
    (progress_callback : option callback) (chunk_size : Z) : M unit :=
  let* _ := of_fault (mkdir_fault env) in
  let* temp_path := of_outcome (with_suffix dest_path ".download") in
  let* w_files := (fun w => (w, Return (files w))) in
  let resume_pos :=
    match w_files !! temp_path with
    | Some partial => Z.of_nat (length partial)
    | None => 0%Z
    end in
  let* _ :=
    if decide (is_Some (w_files !! temp_path)) then
      logger (Info ("Resuming download from byte " ++ pretty resume_pos))
    else ret tt in
  let request := {| full_url := url; headers := [] |} in
  let request :=
    if (0 <? resume_pos)%Z
    then add_header "Range" ("bytes=" ++ pretty resume_pos ++ "-") request
    else request in
  let request :=
    add_header "User-Agent" ("CursorInstaller/" ++ VERSION) request in
  let* response := send env request in
  let* total_size :=
    of_outcome (int_content_length (content_length response)) in
  let total_size :=
    if (0 <? resume_pos)%Z then (total_size + resume_pos)%Z else total_size in
  let downloaded := resume_pos in
  let* _ := open_file env temp_path (0 <? resume_pos)%Z in
  let* _ := copy_loop progress_callback temp_path total_size
                      (read response chunk_size) downloaded in
  let* _ := rename env temp_path dest_path in
  logger (Info ("Download completed: " ++ path_str dest_path)).

(** [download_file(url, dest_path, progress_callback, chunk_size)] *)
Definition download_file (env : Env) (url : string) (dest_path : Path)
    (progress_callback : option callback) (chunk_size : Z)
    (w : World) : World * bool :=
  match download_body env url dest_path progress_callback chunk_size w with
  | (w', Return _) => (w', true)
  | (w', Raise e) =>
      (fst (logger (Error ("Download failed: " ++ e)) w'), false)
  end.

(** [verify_checksum(file_path, expected_checksum, algorithm)].
    [hashlib_new] is [hashlib.new]: for the name of a supported algorithm
    the function from a content to its [hexdigest()], [None] for a name
    it raises on. *)
Definition verify_checksum (hashlib_new : string -> option (bytes -> string))
    (file_path : Path) (expected_checksum algorithm : string)
    (w : World) : World * bool :=
  match hashlib_new algorithm with
  | None =>
      (fst (logger (Error ("Checksum verification failed: "
                             ++ "unsupported hash type " ++ algorithm)) w),
       false)
  | Some hexdigest =>
      match files w !! file_path with
      | None =>
          (fst (logger (Error ("Checksum verification failed: "
                                 ++ "No such file or directory: '"
                                 ++ path_str file_path ++ "'")) w),
           false)
      | Some content =>
          let actual_checksum := hexdigest content in
          (w, String.eqb (lower actual_checksum) (lower expected_checksum))
      end
  end.

(** The bytes the copy loop has stored once it has run to its end: the
    chunks read up to the first empty one. *)
Fixpoint received (events : list transfer_event) : bytes :=
  match events with
  | Data (b :: chunk) :: events' => ((b :: chunk) ++ received events')%list
  | _ => []
  end.

(** The request [download_file] builds when the partial file holds [n]
    bytes. *)
Definition request_sent (url : string) (n : Z) : Request :=
  {| full_url := url;
     headers :=
       (if (0 <? n)%Z then [("Range", "bytes=" ++ pretty n ++ "-")] else [])
         ++ [("User-Agent", "CursorInstaller/" ++ VERSION)] |}.

(** The same surroundings, the status code of every response replaced. *)
Definition with_status (code : Z) (env : Env) : Env := {|
  mkdir_fault := mkdir_fault env;
  urlopen := fun r =>
    match urlopen env r with
    | Return resp =>
        Return {| status_code := code;
                  content_length := content_length resp;
                  read := read resp |}
    | Raise e => Raise e
    end;
  open_fault := open_fault env;
  rename_fault := rename_fault env
|}.

(** *** Surroundings used to run the code on examples *)

Definition no_faults (server : Request -> outcome Response) : Env := {|
  mkdir_fault := None; urlopen := server;
  open_fault := None; rename_fault := None
|}.

Definition on_disk (fs : gmap Path bytes) : World :=
  {| files := fs; log := []; requests := []; reported := [] |}.

(** A four-byte artifact, the start of a zip archive. *)
Definition artifact : bytes := [Byte.x50; Byte.x4b; Byte.x03; Byte.x04].

(** A server that honours [Range: bytes=n-] with a 206 and the rest of
    the artifact, and answers any other request with a 200 and all of it;
    the body comes as one chunk. *)
Definition range_server (content : bytes) (n : nat)
  : Request -> outcome Response :=
  fun r =>
    if decide (("Range", "bytes=" ++ pretty (Z.of_nat n) ++ "-") ∈ headers r)
    then Return {| status_code := 206;
                   content_length := Int (Z.of_nat (length (drop n content)));
                   read := fun _ => [Data (drop n content)] |}
    else Return {| status_code := 200;
                   content_length := Int (Z.of_nat (length content));
                   read := fun _ => [Data content] |}.

(** A server that ignores the [Range] header: always a 200 and the whole
    artifact. *)
Definition restarting_server (content : bytes) : Request -> outcome Response :=
  fun _ =>
    Return {| status_code := 200;
              content_length := Int (Z.of_nat (length content));
              read := fun _ => [Data content] |}.

(** A server whose connection drops after the first two bytes. *)
Definition dropping_server : Request -> outcome Response :=
  fun _ =>
    Return {| status_code := 200;
              content_length := Int 4;
              read := fun _ => [Data (take 2 artifact);
                                ReadError "Connection reset by peer"] |}.

Definition bundle_zip : Path := {| parent := "/tmp"; name := "bundle.zip" |}.
Definition bundle_download : Path :=
  {| parent := "/tmp"; name := "bundle.download" |}.

(** The artifact with its last byte changed in transit. *)
Definition corrupted : bytes := [Byte.x50; Byte.x4b; Byte.x03; Byte.xff].

(** A callback that accepts every report. *)
Definition silent : callback := fun _ _ _ => Return tt.

(** A stand-in for [hashlib.new] to run examples with: it knows the one
    name ["sha256"], and its digest of a content is the sum of the bytes
    written in decimal. *)
Definition byte_sum (content : bytes) : string :=
  pretty (fold_right (fun b acc => (Z.of_N (Byte.to_N b) + acc)%Z) 0%Z content).

Definition sum_hashlib (algorithm : string) : option (bytes -> string) :=
  if String.eqb algorithm "sha256" then Some byte_sum else None.

End Downloader.

(** ** 07-tkinter-improved.py: the installation engine *)

Module Installer.

(** The dataclass [InstallationState]. [progress] is the exact value of
    the quotient the code computes in floating point. *)
Record InstallationState : Type := {
  status : string;
  progress : Q;
  current_step : string;
  steps_completed : list string;
  errors : list string;
  warnings : list string;
  start_time : option nat;
  end_time : option nat
}.

(** The field defaults of the dataclass. *)
Definition idle : InstallationState := {|
  status := "idle"; progress := 0; current_step := "";
  steps_completed := []; errors := []; warnings := [];
  start_time := None; end_time := None
|}.

Definition set_status (v : string) (s : InstallationState) :=
  {| status := v; progress := progress s; current_step := current_step s;
     steps_completed := steps_completed s; errors := errors s;
     warnings := warnings s; start_time := start_time s;
     end_time := end_time s |}.

Definition set_progress (v : Q) (s : InstallationState) :=
  {| status := status s; progress := v; current_step := current_step s;
     steps_completed := steps_completed s; errors := errors s;
     warnings := warnings s; start_time := start_time s;
     end_time := end_time s |}.

Definition set_current_step (v : string) (s : InstallationState) :=
  {| status := status s; progress := progress s; current_step := v;
     steps_completed := steps_completed s; errors := errors s;
     warnings := warnings s; start_time := start_time s;
     end_time := end_time s |}.

Definition append_steps_completed (v : string) (s : InstallationState) :=
  {| status := status s; progress := progress s;
     current_step := current_step s;
     steps_completed := steps_completed s ++ [v]; errors := errors s;
     warnings := warnings s; start_time := start_time s;
     end_time := end_time s |}.

Definition append_errors (v : string) (s : InstallationState) :=
  {| status := status s; progress := progress s;
     current_step := current_step s;
     steps_completed := steps_completed s; errors := errors s ++ [v];
     warnings := warnings s; start_time := start_time s;
     end_time := end_time s |}.

Definition set_start_time (v : nat) (s : InstallationState) :=
  {| status := status s; progress := progress s;
     current_step := current_step s;
     steps_completed := steps_completed s; errors := errors s;
     warnings := warnings s; start_time := Some v;
     end_time := end_time s |}.

Definition set_end_time (v : nat) (s : InstallationState) :=
  {| status := status s; progress := progress s;
     current_step := current_step s;
     steps_completed := steps_completed s; errors := errors s;
     warnings := warnings s; start_time := start_time s;
     end_time := Some v |}.

(** The progress callback receives the state object itself, so it can
    change it; it returns or raises. *)
Definition callback : Type :=
  InstallationState -> InstallationState * outcome unit.

(** What the seven step methods do in one run. They work on the disk and
    the network, so here each is its result: the returned truth value or
    the exception raised. *)
Record Env : Type := {
  prepare_installation : outcome bool;
  download_components : outcome bool;
  extract_files : outcome bool;
  install_components : outcome bool;
  configure_application : outcome bool;
  create_shortcuts : outcome bool;
  finalize_installation : outcome bool;
  progress_callback : option callback
}.

(** The list [steps] of [install]. *)
Definition steps (env : Env) : list (string * outcome bool) :=
  [("prepare", prepare_installation env);
   ("download", download_components env);
   ("extract", extract_files env);
   ("install", install_components env);
   ("configure", configure_application env);
   ("shortcuts", create_shortcuts env);
   ("finalize", finalize_installation env)].

Definition total_steps (env : Env) : nat := length (steps env).

(** Where the worker thread stands in [install]. *)
Inductive pc : Type :=
  | Entry                  (* called, nothing run yet *)
  | LoopHead (i : nat)     (* about to take item i of [steps] and to test
                              [abort_flag] *)
  | PauseTest (i : nat)    (* about to test [pause_flag] *)
  | Sleeping (i : nat)     (* in [time.sleep(0.1)] *)
  | InStep (i : nat)       (* inside [step_func(profile)] *)
  | Returned (r : bool).   (* [install] has returned r *)

#[global] Instance pc_eq_dec : EqDecision pc.
Proof. solve_decision. Defined.

Inductive log_record : Type :=
  | Info (msg : string)
  | Error (msg : string).

(** The engine with the thread that runs [install]: the state object,
    the two [threading.Event] flags, the worker's position, the lines
    logged and the clock read by [datetime.now()]. *)
Record Machine : Type := {
  state : InstallationState;
  abort_flag : bool;
  pause_flag : bool;
  at_pc : pc;
  log : list log_record;
  clock : nat
}.

Definition with_state (f : InstallationState -> InstallationState)
    (m : Machine) : Machine :=
  {| state := f (state m); abort_flag := abort_flag m;
     pause_flag := pause_flag m; at_pc := at_pc m; log := log m;
     clock := clock m |}.

Definition goto (p : pc) (m : Machine) : Machine :=
  {| state := state m; abort_flag := abort_flag m;
     pause_flag := pause_flag m; at_pc := p; log := log m;
     clock := clock m |}.

Definition logger (r : log_record) (m : Machine) : Machine :=
  {| state := state m; abort_flag := abort_flag m;
     pause_flag := pause_flag m; at_pc := at_pc m; log := log m ++ [r];
     clock := clock m |}.

Definition tick (m : Machine) : Machine :=
  {| state := state m; abort_flag := abort_flag m;
     pause_flag := pause_flag m; at_pc := at_pc m; log := log m;
     clock := S (clock m) |}.

(** [abort()], [pause()] and [resume()] *)
Definition abort (m : Machine) : Machine :=
  {| state := state m; abort_flag := true;
     pause_flag := pause_flag m; at_pc := at_pc m; log := log m;
     clock := clock m |}.

Definition pause (m : Machine) : Machine :=
  {| state := state m; abort_flag := abort_flag m;
     pause_flag := true; at_pc := at_pc m; log := log m;
     clock := clock m |}.

Definition resume (m : Machine) : Machine :=
  {| state := state m; abort_flag := abort_flag m;
     pause_flag := false; at_pc := at_pc m; log := log m;
     clock := clock m |}.

(** The [except Exception as e] clause inside the loop. *)
Definition step_error (step_name e : string) (m : Machine) : Machine :=
  let m := logger (Error ("Step '" ++ step_name ++ "' failed: " ++ e)) m in
  let m := with_state (set_status "failed") m in
  let m := with_state
             (append_errors ("Step '" ++ step_name ++ "' error: " ++ e)) m in
  goto (Returned false) m.

(** The end of [step_func(profile)] and the rest of the [try] block. *)
Definition finish_step (env : Env) (i : nat) (step_name : string)
    (result : outcome bool) (m : Machine) : Machine :=
  match result with
  | Raise e => step_error step_name e m
  | Return false =>
      let m := with_state (set_status "failed") m in
      let m := with_state
                 (append_errors ("Step '" ++ step_name ++ "' failed")) m in
      goto (Returned false) m
  | Return true =>
      let m := with_state (append_steps_completed step_name) m in
      let m := with_state
                 (set_progress
                    (inject_Z (Z.of_nat (i + 1))
                       / inject_Z (Z.of_nat (total_steps env)) * 100)%Q) m in
      match progress_callback env with
      | None => goto (LoopHead (i + 1)) m
      | Some cb =>
          let '(s, r) := cb (state m) in
          let m := with_state (fun _ => s) m in
          match r with
          | Return _ => goto (LoopHead (i + 1)) m
          | Raise e => step_error step_name e m
          end
      end
  end.

(** One atomic move of the worker thread through [install]. Each move
    reads a flag at most once. The statements outside the inner [try]
    (assignments, logging, the sleep) raise nothing, so the outer
    [except] clause has no move of its own. *)
Definition worker (env : Env) (profile_name : string) (m : Machine)
  : Machine :=
  match at_pc m with
  | Entry =>
      let m := with_state (set_status "installing") m in
      let m := tick (with_state (set_start_time (clock m)) m) in
      let m := logger (Info ("Starting installation with profile: "
                               ++ profile_name)) m in
      goto (LoopHead 0) m
  | LoopHead i =>
      match steps env !! i with
      | Some _ =>
          if abort_flag m then
            let m := logger (Info "Installation aborted by user") m in
            let m := with_state (set_status "aborted") m in
            goto (Returned false) m
          else goto (PauseTest i) m
      | None =>
          let m := with_state (set_status "completed") m in
          let m := tick (with_state (set_end_time (clock m)) m) in
          let m := logger (Info "Installation completed successfully") m in
          goto (Returned true) m
      end
  | PauseTest i =>
      if pause_flag m then goto (Sleeping i) m
      else
        match steps env !! i with
        | Some (step_name, _) =>
            let m := with_state (set_current_step step_name) m in
            let m := logger (Info ("Executing step: " ++ step_name)) m in
            goto (InStep i) m
        | None => m
        end
  | Sleeping i => goto (PauseTest i) m
  | InStep i =>
      match steps env !! i with
      | Some (step_name, result) => finish_step env i step_name result m
      | None => m
      end
  | Returned _ => m
  end.

(** What can happen next: the worker moves, or the other thread calls
    one of the three controls. *)
Inductive event : Type := Worker | Abort | Pause | Resume.

#[global] Instance event_eq_dec : EqDecision event.
Proof. solve_decision. Defined.

Definition fire (env : Env) (profile_name : string) (e : event)
    (m : Machine) : Machine :=
  match e with
  | Worker => worker env profile_name m
  | Abort => abort m
  | Pause => pause m
  | Resume => resume m
  end.

(** A run under a schedule: the events in the order they happen. *)
Definition run (env : Env) (profile_name : string) (schedule : list event)
    (m : Machine) : Machine :=
  fold_left (fun m e => fire env profile_name e m) schedule m.

(** A fresh engine on a fresh state, [install] just called. *)
Definition start : Machine := {|
  state := idle; abort_flag := false; pause_flag := false;
  at_pc := Entry; log := []; clock := 0
|}.

(** The names of the steps whose function was called, read off the log. *)
Definition executed (m : Machine) : list string :=
  omap (fun r =>
          match r with
          | Info msg =>
              if String.prefix "Executing step: " msg
              then Some (String.substring 16 (String.length msg - 16) msg)
              else None
          | Error _ => None
          end) (log m).

(** An environment in which every step succeeds and no callback is
    given. *)
Definition all_succeed : Env := {|
  prepare_installation := Return true;
  download_components := Return true;
  extract_files := Return true;
  install_components := Return true;
  configure_application := Return true;
  create_shortcuts := Return true;
  finalize_installation := Return true;
  progress_callback := None
|}.

(** The worker is held before step k + 1: the pause flag is set and the
    worker is inside step k, or between that step and the next, or has
    returned. *)
Definition held_before (k : nat) (m : Machine) : Prop :=
  pause_flag m = true /\
  (at_pc m = InStep k \/ at_pc m = LoopHead (k + 1) \/
   at_pc m = PauseTest (k + 1) \/ at_pc m = Sleeping (k + 1) \/
   exists r, at_pc m = Returned r).

(** *** Surroundings and schedules used to run the engine on examples *)

(** A callback that raises, as a user-interface callback does once its
    window has gone. *)
Definition raising_callback : callback :=
  fun s => (s, Raise "main thread is not in main loop").

Definition with_callback (cb : callback) (env : Env) : Env := {|
  prepare_installation := prepare_installation env;
  download_components := download_components env;
  extract_files := extract_files env;
  install_components := install_components env;
  configure_application := configure_application env;
  create_shortcuts := create_shortcuts env;
  finalize_installation := finalize_installation env;
  progress_callback := Some cb
|}.

(** The download step returns [False]; the extraction step raises. *)
Definition download_fails : Env := {|
  prepare_installation := Return true;
  download_components := Return false;
  extract_files := Return true;
  install_components := Return true;
  configure_application := Return true;
  create_shortcuts := Return true;
  finalize_installation := Return true;
  progress_callback := None
|}.

Definition extract_raises : Env := {|
  prepare_installation := Return true;
  download_components := Return true;
  extract_files := Raise "No space left on device";
  install_components := Return true;
  configure_application := Return true;
  create_shortcuts := Return true;
  finalize_installation := Return true;
  progress_callback := None
|}.

(** [n] moves of the worker with no call from the other thread between
    them. From [start], with no pause, the worker is inside step number i
    (counted from 0) after 3 * i + 3 moves. *)
Definition workers (n : nat) : list event := repeat Worker n.

End Installer.

(** ** 07-tkinter-improved.py: schedules of the engine, measured *)

Module Pace.

Import Installer.

(** The names of the list [steps] of [install], in its order. *)
Definition step_names : list string :=
  ["prepare"; "download"; "extract"; "install"; "configure"; "shortcuts";
   "finalize"].

(** The positions the worker can be at in a run of [install]: the loop
    index is at most the number of steps at the head of the loop, and
    below it inside an iteration. *)
Definition in_range (p : pc) : Prop :=
  match p with
  | Entry | Returned _ => True
  | LoopHead i => (i <= 7)%nat
  | PauseTest i | Sleeping i | InStep i => (i < 7)%nat
  end.

(** An upper bound on the moves the worker still has to make from a
    position when it is never held in the pause loop. *)
Definition moves_left (p : pc) : nat :=
  match p with
  | Entry => 23
  | LoopHead i => 1 + 3 * (7 - i)
  | Sleeping i => 1 + 3 * (7 - i)
  | PauseTest i => 3 * (7 - i)
  | InStep i => 3 * (7 - i) - 1
  | Returned _ => 0
  end.

(** The number of moves of the worker in a schedule. *)
Definition worker_moves (schedule : list event) : nat :=
  length (filter (fun e => e = Worker) schedule).

(** What holds of the engine at every point of a run started from
    [start]: the steps executed so far are the first ones of the list, as
    many as the position says, and a returned run has the status that goes
    with its result. *)
Definition on_track (m : Machine) : Prop :=
  match at_pc m with
  | Entry => executed m = []
  | LoopHead i => (i <= 7)%nat /\ executed m = take i step_names
  | PauseTest i | Sleeping i =>
      (i < 7)%nat /\ executed m = take i step_names
  | InStep i => (i < 7)%nat /\ executed m = take (S i) step_names
  | Returned true =>
      executed m = step_names /\ status (state m) = "completed"
  | Returned false =>
      (exists k, executed m = take k step_names) /\
      (status (state m) = "aborted" \/ status (state m) = "failed")
  end.

(** [install] called once more on the same engine, after a run has
    returned: the flags and the state object are the ones the last run
    left. *)
Definition install_again (m : Machine) : Machine := goto Entry m.

End Pace.

(** ** 07-tkinter-improved.py: the installer window *)

Module Wizard.

Import Installer.

(** [CursorInstaller.installation_complete(success)] on the state object
    the window shares with the engine; it then shows the page
    ["complete"]. *)
Definition installation_complete (success : bool) (s : InstallationState)
  : InstallationState :=
  set_status (if success then "completed" else "failed") s.

(** The body of [install_thread] in [start_installation], once the engine
    has returned [success]: the call of [installation_complete] it
    schedules on the main thread. *)
Definition after_install (m : Machine) : option InstallationState :=
  match at_pc m with
  | Returned success => Some (installation_complete success (state m))
  | _ => None
  end.

End Wizard.

(** ** 07-tkinter-improved.py: variations of the server for [download_file] *)

Module Served.

Import Downloader.


(** The length the partial file of a destination has when a call starts,
    0 when there is none or when the destination has no name. *)
Definition partial_length (dest : Path) (w : World) : Z :=
  match with_suffix dest ".download" with
  | Return temp => Z.of_nat (length (default [] (files w !! temp)))
  | Raise _ => 0%Z
  end.

End Served.

(** ** 06-launcherplus-improved.py: health checks *)

Module Health.

Import PyStr.

(** What the three probes of [perform_health_checks] find: the query
    [SELECT 1], the call [config.BUNDLE_DIR.exists()], and the reading
    [psutil.virtual_memory().percent]. *)
Record Probes : Type := {
  database : outcome unit;
  filesystem : outcome unit;
  memory : outcome Q
}.

(** The dictionary [health]; [checks] in the order its keys were set. *)
Record Report : Type := {
  overall : string;
  checks : list (string * string)
}.

Definition set_check (component status : string) (h : Report) : Report :=
  {| overall := overall h; checks := checks h ++ [(component, status)] |}.

Definition set_overall (v : string) (h : Report) : Report :=
  {| overall := v; checks := checks h |}.

(** One of the first two [try] blocks. *)
Definition probe (component : string) (result : outcome unit) (h : Report)
  : Report :=
  match result with
  | Return _ => set_check component "healthy" h
  | Raise e =>
      set_overall "unhealthy" (set_check component ("unhealthy: " ++ e) h)
  end.

(** [perform_health_checks()] *)
Definition perform_health_checks (p : Probes) : Report :=
  let health := {| overall := "healthy"; checks := [] |} in
  let health := probe "database" (database p) health in
  let health := probe "filesystem" (filesystem p) health in
  match memory p with
  | Return percent =>
      if negb (Qle_bool percent 90) then
        let health := set_check "memory" "warning: high usage" health in
        if String.eqb (overall health) "healthy"
        then set_overall "warning" health
        else health
      else set_check "memory" "healthy" health
  | Raise e =>
      set_overall "unhealthy" (set_check "memory" ("unhealthy: " ++ e) health)
  end.

(** The route [/api/health]: the report and the status code. *)
Definition health_check (p : Probes) : Report * Z :=
  let health_status := perform_health_checks p in
  (health_status,
   if String.eqb (overall health_status) "healthy" then 200%Z else 503%Z).

(** [str.upper] on one ASCII letter. *)
Definition upper_char (c : ascii) : ascii :=
  let n := N_of_ascii c in
  if ((97 <=? n) && (n <=? 122))%N then ascii_of_N (n - 32) else c.

Definition is_letter (c : ascii) : bool :=
  let n := N_of_ascii c in
  ((65 <=? n) && (n <=? 90) || (97 <=? n) && (n <=? 122))%N.

(** [str.title] on ASCII text, which the names of the components are: a
    letter after a letter is lower-cased, any other letter upper-cased. *)
Fixpoint title_from (previous_is_cased : bool) (s : string) : string :=
  match s with
  | EmptyString => EmptyString
  | String c s' =>
      String (if previous_is_cased then lower_char c else upper_char c)
             (title_from (is_letter c) s')
  end.

Definition title (s : string) : string := title_from false s.

Definition newline : string := String (ascii_of_nat 10) EmptyString.

(** The three marks of [_cmd_check], each as the bytes of its UTF-8
    encoding. *)
Definition check_mark : string := "✓".
Definition warning_mark : string := "⚠".
Definition cross_mark : string := "✗".

(** One line of [_cmd_check]. *)
Definition check_line (component status : string) : string :=
  if contains "healthy" status then
    check_mark ++ " " ++ title component ++ ": " ++ status
  else if contains "warning" status then
    warning_mark ++ " " ++ title component ++ ": " ++ status
  else
    cross_mark ++ " " ++ title component ++ ": " ++ status.

(** The list [checks] that [_cmd_check] builds. *)
Definition _cmd_check_lines (p : Probes) : list string :=
  map (fun '(component, status) => check_line component status)
      (checks (perform_health_checks p)).

(** [_cmd_check()] *)
Definition _cmd_check (p : Probes) : string :=
  "ENTERPRISE HEALTH CHECK" ++ newline
    ++ "=======================" ++ newline
    ++ join newline (_cmd_check_lines p).

(** Probes that find everything in order, at 42.5 percent of memory. *)
Definition all_well : Probes :=
  {| database := Return tt; filesystem := Return tt;
     memory := Return (85 # 2)%Q |}.

(** The database cannot be opened. *)
Definition database_down : Probes :=
  {| database := Raise "unable to open database file";
     filesystem := Return tt; memory := Return (85 # 2)%Q |}.

End Health.

(** ** 06-launcherplus-improved.py: users, sessions and roles *)

Module Accounts.

Import PyStr.

(** The fields of [EnterpriseConfig] the user manager reads. *)
Record Settings : Type := {
  MAX_LOGIN_ATTEMPTS : Z;
  LOCKOUT_DURATION_MINUTES : Z;
  SESSION_TIMEOUT_MINUTES : Z
}.

(** Their defaults. *)
Definition settings : Settings := {|
  MAX_LOGIN_ATTEMPTS := 5;
  LOCKOUT_DURATION_MINUTES := 15;
  SESSION_TIMEOUT_MINUTES := 30
|}.

(** A [datetime] is the count of its microseconds; [timedelta(minutes=n)]
    is [minutes n]. *)
Definition minutes (n : Z) : Z := (n * 60000000)%Z.

(** A row of the table [users]. [locked_until] is the [datetime] whose
    [isoformat()] text the column holds, [None] for NULL; [last_login] is
    the text of [CURRENT_TIMESTAMP] when it was set. *)
Record UserRow : Type := {
  id : Z;
  username : string;
  email : string;
  password_hash : string;
  role : string;
  last_login : option string;
  is_active : bool;
  failed_login_attempts : Z;
  locked_until : option Z
}.

(** A row of the table [sessions]; [expires_at] is the text stored. *)
Record SessionRow : Type := {
  sid : string;
  user_id : Z;
  expires_at : string;
  ip_address : option string;
  user_agent : option string;
  session_is_active : bool
}.

(** The two tables, rows in the order of insertion. *)
Record Database : Type := {
  users : list UserRow;
  sessions : list SessionRow
}.

Definition with_users (f : list UserRow -> list UserRow) (db : Database)
  : Database :=
  {| users := f (users db); sessions := sessions db |}.

Definition with_sessions (f : list SessionRow -> list SessionRow)
    (db : Database) : Database :=
  {| users := users db; sessions := f (sessions db) |}.

(** [UPDATE users SET ... WHERE id = ?] *)
Definition update_user (target : Z) (f : UserRow -> UserRow)
    (us : list UserRow) : list UserRow :=
  map (fun u => if (id u =? target)%Z then f u else u) us.

(** [UPDATE sessions SET ... WHERE id = ?] *)
Definition update_session (target : string) (f : SessionRow -> SessionRow)
    (ss : list SessionRow) : list SessionRow :=
  map (fun s => if String.eqb (sid s) target then f s else s) ss.

(** [SELECT * FROM users WHERE username = ? AND is_active = 1] *)
Definition select_active (uname : string) (us : list UserRow)
  : list UserRow :=
  List.filter (fun u => String.eqb (username u) uname && is_active u) us.

Definition set_failed (n : Z) (u : UserRow) : UserRow :=
  {| id := id u; username := username u; email := email u;
     password_hash := password_hash u; role := role u;
     last_login := last_login u; is_active := is_active u;
     failed_login_attempts := n; locked_until := locked_until u |}.

Definition set_locked_until (t : option Z) (u : UserRow) : UserRow :=
  {| id := id u; username := username u; email := email u;
     password_hash := password_hash u; role := role u;
     last_login := last_login u; is_active := is_active u;
     failed_login_attempts := failed_login_attempts u; locked_until := t |}.

Definition set_last_login (t : string) (u : UserRow) : UserRow :=
  {| id := id u; username := username u; email := email u;
     password_hash := password_hash u; role := role u;
     last_login := Some t; is_active := is_active u;
     failed_login_attempts := failed_login_attempts u;
     locked_until := locked_until u |}.

(** [user['locked_until'] and
    datetime.fromisoformat(user['locked_until']) > datetime.now()] *)
Definition is_locked (now : Z) (u : UserRow) : bool :=
  match locked_until u with
  | Some t => (now <? t)%Z
  | None => false
  end.

(** [authenticate_user(username, password)]. [check_password_hash] is
    werkzeug's; [now] is the reading of [datetime.now()] during the call
    and [current_timestamp] the text of SQLite's [CURRENT_TIMESTAMP]. The
    result is the database after the call and the row returned, as a
    dictionary of the row read. *)
Definition authenticate_user (cfg : Settings)
    (check_password_hash : string -> string -> bool)
    (now : Z) (current_timestamp : string)
    (uname password : string) (db : Database)
  : Database * option UserRow :=
  match select_active uname (users db) with
  | [] => (db, None)
  | user :: _ =>
      if is_locked now user then (db, None)
      else if negb (check_password_hash (password_hash user) password) then
        let failed_attempts := (failed_login_attempts user + 1)%Z in
        if (MAX_LOGIN_ATTEMPTS cfg <=? failed_attempts)%Z then
          let lock_until :=
            (now + minutes (LOCKOUT_DURATION_MINUTES cfg))%Z in
          (with_users
             (update_user (id user)
                (fun u => set_locked_until (Some lock_until)
                            (set_failed failed_attempts u))) db,
           None)
        else
          (with_users
             (update_user (id user) (set_failed failed_attempts)) db,
           None)
      else
        (with_users
           (update_user (id user)
              (fun u => set_last_login current_timestamp
                          (set_locked_until None (set_failed 0 u)))) db,
         Some user)
  end.

(** The value [AUTOINCREMENT] gives the next row. *)
Definition next_id (us : list UserRow) : Z :=
  (1 + fold_right Z.max 0 (map id us))%Z.

(** [create_user(username, email, password, role)]: the [INSERT] fails on
    a user name or an e-mail address that is taken, and the method then
    returns [False]. [generate_password_hash] is werkzeug's. *)
Definition create_user (generate_password_hash : string -> string)
    (uname mail password rol : string) (db : Database) : Database * bool :=
  let password_hash := generate_password_hash password in
  if existsb (fun u => String.eqb (username u) uname
                       || String.eqb (email u) mail) (users db)
  then (db, false)
  else
    (with_users
       (fun us =>
          (us ++ [{| id := next_id us; username := uname; email := mail;
                     password_hash := password_hash; role := rol;
                     last_login := None; is_active := true;
                     failed_login_attempts := 0;
                     locked_until := None |}])%list)
       db,
     true).

(** [create_default_admin()] *)
Definition create_default_admin (generate_password_hash : string -> string)
    (db : Database) : Database :=
  let count :=
    length (List.filter (fun u => String.eqb (role u) "admin") (users db)) in
  if (count =? 0)%nat then
    (create_user generate_password_hash
       "admin" "admin@cursor.local" "admin123" "admin" db).1
  else db.

(** [create_session(user_id, ip_address, user_agent)]. [session_id] is the
    text of the [uuid4()] drawn and [expires] the text
    [(datetime.now() + timedelta(minutes=...)).isoformat()]; an identifier
    that is taken makes the [INSERT] raise. *)
Definition create_session (session_id expires : string) (uid : Z)
    (ip agent : option string) (db : Database) : Database * outcome string :=
  if existsb (fun s => String.eqb (sid s) session_id) (sessions db)
  then (db, Raise "UNIQUE constraint failed: sessions.id")
  else
    (with_sessions
       (fun ss =>
          (ss ++ [{| sid := session_id; user_id := uid;
                     expires_at := expires;
                     ip_address := ip; user_agent := agent;
                     session_is_active := true |}])%list)
       db,
     Return session_id).

(** The dictionary of a row of [SELECT s.*, u.username, u.role]. *)
Record CurrentUser : Type := {
  session : SessionRow;
  user_name : string;
  user_role : string
}.

(** The [SELECT] of [validate_session]: sessions joined with their users,
    kept when the identifier is the one asked for, the session is active,
    and the text [expires_at] is greater than the text of
    [CURRENT_TIMESTAMP]. *)
Definition select_session (current_timestamp session_id : string)
    (db : Database) : list CurrentUser :=
  flat_map
    (fun s =>
       if String.eqb (sid s) session_id && session_is_active s
          && String.ltb current_timestamp (expires_at s)
       then
         map (fun u => {| session := s; user_name := username u;
                          user_role := role u |})
             (List.filter (fun u => (user_id s =? id u)%Z) (users db))
       else [])
    (sessions db).

Definition set_expires_at (t : string) (s : SessionRow) : SessionRow :=
  {| sid := sid s; user_id := user_id s; expires_at := t;
     ip_address := ip_address s; user_agent := user_agent s;
     session_is_active := session_is_active s |}.

Definition set_session_inactive (s : SessionRow) : SessionRow :=
  {| sid := sid s; user_id := user_id s; expires_at := expires_at s;
     ip_address := ip_address s; user_agent := user_agent s;
     session_is_active := false |}.

(** [validate_session(session_id)]; [new_expires] is the text
    [(datetime.now() + timedelta(minutes=...)).isoformat()]. *)
Definition validate_session (current_timestamp new_expires : string)
    (session_id : string) (db : Database) : Database * option CurrentUser :=
  match select_session current_timestamp session_id db with
  | [] => (db, None)
  | session_row :: _ =>
      (with_sessions (update_session session_id (set_expires_at new_expires))
                     db,
       Some session_row)
  end.

(** The [UPDATE] of the route [/api/auth/logout] for the user [g.current_user];
    the identifier is the key ['id'] of the dictionary. *)
Definition logout (current_user : CurrentUser) (db : Database) : Database :=
  let session_id := sid (session current_user) in
  if negb (String.eqb session_id "") then
    with_sessions (update_session session_id set_session_inactive) db
  else db.

(** What a guard in front of a view decides: the view runs, with what the
    guard found, or the request is answered with a status and an error. *)
Inductive guarded (A : Type) : Type :=
  | Proceed (a : A)
  | Refuse (status : Z) (error : string).
Arguments Proceed {A} a.
Arguments Refuse {A} status error.

(** The dictionary [role_hierarchy] with its [get]. *)
Definition role_rank (default_rank : Z) (r : string) : Z :=
  if String.eqb r "admin" then 3%Z
  else if String.eqb r "moderator" then 2%Z
  else if String.eqb r "user" then 1%Z
  else default_rank.

(** The decorator [require_role(required_role)]; [current_user] is [None]
    when [g] has no attribute [current_user]. *)
Definition require_role (required_role : string)
    (current_user : option CurrentUser) : guarded unit :=
  match current_user with
  | None => Refuse 401 "Authentication required"
  | Some cu =>
      if (role_rank 0 (user_role cu) <? role_rank 999 required_role)%Z
      then Refuse 403 "Insufficient permissions"
      else Proceed tt
  end.




(** A value of a JSON body, as [request.get_json()] returns it. *)
#[local] Unset Elimination Schemes.
#[local] Set Elimination Schemes.







(** *** Values used to run the code on examples *)

(** A stand-in for werkzeug's pair of functions: the hash of a password
    is the password behind a fixed prefix. *)
Definition plain_hash (password : string) : string :=
  "plain$" ++ password.

Definition plain_check (pwhash password : string) : bool :=
  String.eqb pwhash (plain_hash password).

Definition empty_database : Database := {| users := []; sessions := [] |}.

(** Calls of [authenticate_user] for one user name, one after the other,
    each with the reading of the clock and the password given. *)
Definition attempts (cfg : Settings)
    (check_password_hash : string -> string -> bool)
    (current_timestamp uname : string) (tries : list (Z * string))
    (db : Database) : Database :=
  fold_left
    (fun db try =>
       (authenticate_user cfg check_password_hash try.1 current_timestamp
                          uname try.2 db).1)
    tries db.

End Accounts.

(** ** 07-tkinter-improved.py: the pages of the installer window *)

Module Pages.

Inductive widget_state : Type := NORMAL | DISABLED.

(** What the button [next_btn] calls. *)
Inductive next_command : Type := GoNext | FinishInstallation.

(** What showing a page sets off besides the buttons: the thread of the
    system check, the filling of the list of components, the thread of
    the installation for a profile, the filling of the page of
    completion. *)
Inductive action : Type :=
  | SystemCheckThread
  | ComponentsPopulated
  | InstallThread (profile : string)
  | CompletionShown (success : bool).

(** The part of [CursorInstaller] the navigation reads and writes. *)
Record Window : Type := {
  pages : list string;            (* the keys of [self.pages] *)
  current_page : option string;
  visible : option string;        (* the page that is packed *)
  back_btn : widget_state;
  next_btn : widget_state;
  cancel_btn : widget_state;
  pause_btn : widget_state;
  next_calls : next_command;
  selected_profile : string;
  status : string;                (* [self.state.status] *)
  actions : list action           (* oldest first *)
}.

Definition page_flow : list string :=
  ["welcome"; "system_check"; "profile"; "components"; "installation";
   "complete"].

(** The names of the list [self.profiles]. *)
Definition profile_names : list string :=
  ["minimal"; "standard"; "full"; "custom"].

(** [page_flow.index(page)] *)
Fixpoint index_of (page : string) (l : list string) : option nat :=
  match l with
  | [] => None
  | p :: l' =>
      if String.eqb p page then Some 0%nat else S <$> index_of page l'
  end.

Definition is_in (page : string) (l : list string) : bool :=
  existsb (String.eqb page) l.

(** [update_navigation()] *)
Definition update_navigation (w : Window) : Window :=
  match current_page w with
  | None => w
  | Some page =>
      match index_of page page_flow with
      | None => w
      | Some current_index =>
          let back := if (0 <? current_index)%nat then NORMAL else DISABLED in
          let '(next, calls) :=
            if String.eqb page "complete" then
              (next_btn w, FinishInstallation)
            else if String.eqb page "installation" then
              (DISABLED, next_calls w)
            else (NORMAL, GoNext) in
          let cancel :=
            if is_in page ["installation"; "complete"]
            then DISABLED else NORMAL in
          {| pages := pages w; current_page := current_page w;
             visible := visible w; back_btn := back; next_btn := next;
             cancel_btn := cancel; pause_btn := pause_btn w;
             next_calls := calls; selected_profile := selected_profile w;
             status := status w; actions := actions w |}
      end
  end.

Definition act (a : action) (w : Window) : Window :=
  {| pages := pages w; current_page := current_page w;
     visible := visible w; back_btn := back_btn w; next_btn := next_btn w;
     cancel_btn := cancel_btn w; pause_btn := pause_btn w;
     next_calls := next_calls w; selected_profile := selected_profile w;
     status := status w; actions := (actions w ++ [a])%list |}.

(** [start_installation()]: the three buttons, then the thread, when the
    selected profile is one of the list. *)
Definition start_installation (w : Window) : Window :=
  let w :=
    {| pages := pages w; current_page := current_page w;
       visible := visible w; back_btn := DISABLED; next_btn := DISABLED;
       cancel_btn := cancel_btn w; pause_btn := NORMAL;
       next_calls := next_calls w; selected_profile := selected_profile w;
       status := status w; actions := actions w |} in
  if is_in (selected_profile w) profile_names
  then act (InstallThread (selected_profile w)) w
  else w.

(** [show_completion()] *)
Definition show_completion (w : Window) : Window :=
  act (CompletionShown (String.eqb (status w) "completed")) w.

(** [show_page(page_name)] *)
Definition show_page (page_name : string) (w : Window) : Window :=
  let w :=
    match current_page w with
    | Some current =>
        if negb (String.eqb current "") && is_in current (pages w) then
          {| pages := pages w; current_page := current_page w;
             visible := None; back_btn := back_btn w; next_btn := next_btn w;
             cancel_btn := cancel_btn w; pause_btn := pause_btn w;
             next_calls := next_calls w;
             selected_profile := selected_profile w;
             status := status w; actions := actions w |}
        else w
    | None => w
    end in
  if is_in page_name (pages w) then
    let w :=
      {| pages := pages w; current_page := Some page_name;
         visible := Some page_name; back_btn := back_btn w;
         next_btn := next_btn w; cancel_btn := cancel_btn w;
         pause_btn := pause_btn w; next_calls := next_calls w;
         selected_profile := selected_profile w;
         status := status w; actions := actions w |} in
    let w := update_navigation w in
    if String.eqb page_name "system_check" then act SystemCheckThread w
    else if String.eqb page_name "components" then act ComponentsPopulated w
    else if String.eqb page_name "installation" then start_installation w
    else if String.eqb page_name "complete" then show_completion w
    else w
  else w.

(** [go_back()] *)
Definition go_back (w : Window) : Window :=
  match current_page w with
  | None => w
  | Some page =>
      match index_of page page_flow with
      | Some (S previous) =>
          match page_flow !! previous with
          | Some target => show_page target w
          | None => w
          end
      | _ => w
      end
  end.

(** [go_next()] *)
Definition go_next (w : Window) : Window :=
  match current_page w with
  | None => w
  | Some page =>
      match index_of page page_flow with
      | Some current_index =>
          if String.eqb page "profile"
             && String.eqb (selected_profile w) "custom"
          then show_page "components" w
          else if (current_index <? length page_flow - 1)%nat then
            match page_flow !! (current_index + 1)%nat with
            | Some target => show_page target w
            | None => w
            end
          else w
      | None => w
      end
  end.

(** The last statement of [display_check_results(passed, results)], the
    only one of it on the buttons. *)
Definition display_check_results (passed : bool) (w : Window) : Window :=
  {| pages := pages w; current_page := current_page w;
     visible := visible w; back_btn := back_btn w;
     next_btn := if passed then NORMAL else DISABLED;
     cancel_btn := cancel_btn w; pause_btn := pause_btn w;
     next_calls := next_calls w; selected_profile := selected_profile w;
     status := status w; actions := actions w |}.

(** [installation_complete(success)] *)
Definition installation_complete (success : bool) (w : Window) : Window :=
  show_page "complete"
    {| pages := pages w; current_page := current_page w;
       visible := visible w; back_btn := back_btn w; next_btn := next_btn w;
       cancel_btn := cancel_btn w; pause_btn := pause_btn w;
       next_calls := next_calls w; selected_profile := selected_profile w;
       status := if success then "completed" else "failed";
       actions := actions w |}.

(** The window at the end of [__init__]: the six pages made, the profile
    [standard] selected, the buttons as [create_footer] and
    [create_installation_page] make them, and the page [welcome] shown. *)
Definition opened : Window :=
  show_page "welcome"
    {| pages := page_flow; current_page := None; visible := None;
       back_btn := DISABLED; next_btn := NORMAL; cancel_btn := NORMAL;
       pause_btn := DISABLED; next_calls := GoNext;
       selected_profile := "standard"; status := "idle"; actions := [] |}.

End Pages.

(** ** 07-tkinter-improved.py: translations *)

Module I18n.

(** The object [I18n]: the tables by language code and the code
    selected. A language file is taken to hold a JSON object of texts,
    as the English table does. *)
Record I18n : Type := {
  translations : gmap string (gmap string string);
  current_language : string
}.

(** [__init__] with [load_translations]: the English table first, then
    the table of every language file read, by the stem of its name. *)
Definition init (english : gmap string string)
    (files : list (string * gmap string string)) : I18n :=
  {| translations :=
       fold_left (fun m file => <[file.1 := file.2]> m) files
                 {[ "en" := english ]};
     current_language := "en" |}.

(** [set_language(language)] *)
Definition set_language (language : string) (i : I18n) : I18n :=
  if decide (is_Some (translations i !! language))
  then {| translations := translations i; current_language := language |}
  else i.

(** [get(key, **kwargs)]. [format] is [str.format] with keyword
    arguments. *)
Definition get (format : string -> list (string * string) -> outcome string)
    (i : I18n) (key : string) (kwargs : list (string * string))
  : outcome string :=
  match translations i !! "en" with
  | None => Raise "'en'"
  | Some english =>
      let table := default english (translations i !! current_language i) in
      let text := default key (table !! key) in
      match kwargs with
      | [] => Return text
      | _ =>
          match format text kwargs with
          | Return formatted => Return formatted
          | Raise _ => Return text
          end
      end
  end.

End I18n.

(** ** 07-tkinter-improved.py: the check of the commands *)

Module SystemCheck.

Import PyStr.

(** The two fields of [SystemRequirements] the check reads. *)
Record SystemRequirements : Type := {
  required_commands : list string;
  optional_commands : list string
}.

(** The defaults of the dataclass. *)
Definition requirements : SystemRequirements := {|
  required_commands := ["bash"; "curl"; "tar"];
  optional_commands := ["git"; "docker"; "make"]
|}.

(** The dictionary [details] of [check_commands]. *)
Record CommandDetails : Type := {
  found : gmap string string;
  missing_required : list string;
  missing_optional : list string
}.

(** One turn of either loop: [shutil.which] and the test [if path]. *)
Definition look_up (which : string -> option string)
    (acc : gmap string string * list string) (cmd : string)
  : gmap string string * list string :=
  match which cmd with
  | Some path =>
      if negb (String.eqb path "") then (<[cmd := path]> acc.1, acc.2)
      else (acc.1, (acc.2 ++ [cmd])%list)
  | None => (acc.1, (acc.2 ++ [cmd])%list)
  end.

(** [check_commands()]; [which] is [shutil.which]. *)
Definition check_commands (which : string -> option string)
    (req : SystemRequirements) : bool * CommandDetails :=
  let '(found_commands, missing_required) :=
    fold_left (look_up which) (required_commands req) (∅, []) in
  let '(found_commands, missing_optional) :=
    fold_left (look_up which) (optional_commands req) (found_commands, []) in
  let passed := (length missing_required =? 0)%nat in
  (passed,
   {| found := found_commands; missing_required := missing_required;
      missing_optional := missing_optional |}).

(** The branch of [format_check_details] for the check [commands]. *)
Definition format_command_details (details : CommandDetails) : string :=
  match missing_required details with
  | [] => "All required commands found"
  | missing => String.append "Missing: " (join ", " missing)
  end.

(** Whether [shutil.which] finds a command. *)
Definition usable (which : string -> option string) (cmd : string) : bool :=
  match which cmd with
  | Some path => negb (String.eqb path "")
  | None => false
  end.

End SystemCheck.

(** ** 07-tkinter-improved.py: themes *)

Module Themes.

(** An entry of a font tuple: a text or an integer. These and the other
    values of a theme ([str], [bool], dictionaries with text keys) are
    the ones [json.dump] and [json.load] give back as they were. *)
Inductive value : Type :=
  | VStr (s : string)
  | VInt (n : Z).

#[global] Instance value_eq_dec : EqDecision value.
Proof. solve_decision. Defined.

(** The object [Theme]. A font is a tuple, held as the list of its
    entries. *)
Record Theme : Type := {
  name : string;
  is_dark : bool;
  colors : gmap string string;
  fonts : gmap string (list value)
}.

Definition dark_colors : gmap string string :=
  list_to_map
    [("bg", "#1e1e1e"); ("fg", "#ffffff"); ("bg_secondary", "#2d2d2d");
     ("bg_tertiary", "#383838"); ("accent", "#007acc");
     ("accent_hover", "#1a8ad4"); ("success", "#4caf50");
     ("warning", "#ff9800"); ("error", "#f44336"); ("info", "#2196f3");
     ("border", "#444444"); ("text_secondary", "#cccccc");
     ("text_disabled", "#666666"); ("button_bg", "#0e639c");
     ("button_fg", "#ffffff"); ("button_hover", "#1177bb");
     ("entry_bg", "#3c3c3c"); ("entry_fg", "#cccccc");
     ("selection_bg", "#264f78"); ("selection_fg", "#ffffff");
     ("progress_bg", "#333333"); ("progress_fill", "#007acc");
     ("scrollbar", "#464647"); ("scrollbar_hover", "#5a5a5a")].

Definition light_colors : gmap string string :=
  list_to_map
    [("bg", "#ffffff"); ("fg", "#000000"); ("bg_secondary", "#f3f3f3");
     ("bg_tertiary", "#e0e0e0"); ("accent", "#0078d4");
     ("accent_hover", "#106ebe"); ("success", "#107c10");
     ("warning", "#ff8c00"); ("error", "#e81123"); ("info", "#0078d4");
     ("border", "#d1d1d1"); ("text_secondary", "#666666");
     ("text_disabled", "#999999"); ("button_bg", "#0078d4");
     ("button_fg", "#ffffff"); ("button_hover", "#106ebe");
     ("entry_bg", "#ffffff"); ("entry_fg", "#000000");
     ("selection_bg", "#0078d4"); ("selection_fg", "#ffffff");
     ("progress_bg", "#e0e0e0"); ("progress_fill", "#0078d4");
     ("scrollbar", "#c1c1c1"); ("scrollbar_hover", "#a8a8a8")].

Definition default_fonts : gmap string (list value) :=
  list_to_map
    [("default", [VStr "Segoe UI"; VInt 10]);
     ("heading", [VStr "Segoe UI"; VInt 16; VStr "bold"]);
     ("subheading", [VStr "Segoe UI"; VInt 12; VStr "bold"]);
     ("small", [VStr "Segoe UI"; VInt 9]);
     ("monospace", [VStr "Consolas"; VInt 10]);
     ("button", [VStr "Segoe UI"; VInt 10]);
     ("entry", [VStr "Segoe UI"; VInt 10])].

(** [load_default_theme()] *)
Definition load_default_theme (t : Theme) : Theme :=
  {| name := name t; is_dark := is_dark t;
     colors := if is_dark t then dark_colors else light_colors;
     fonts := default_fonts |}.

(** [Theme(name, is_dark)] *)
Definition init (name : string) (is_dark : bool) : Theme :=
  load_default_theme
    {| name := name; is_dark := is_dark; colors := ∅; fonts := ∅ |}.

(** The dictionary written for one font. *)
Record FontData : Type := {
  family : value;
  size : value;
  weight : value
}.

(** The dictionary [theme_data], which is the content of the file. *)
Record ThemeData : Type := {
  data_name : string;
  data_is_dark : bool;
  data_colors : gmap string string;
  data_fonts : gmap string FontData
}.

(** The value of the comprehension of [save_to_file] for one font [v]:
    [v[0]], [v[1]], and [v[2] if len(v) > 2 else "normal"]. *)
Definition font_data (v : list value) : outcome FontData :=
  match v with
  | family :: size :: rest =>
      Return {| family := family; size := size;
                weight := match rest with
                          | weight :: _ => weight
                          | [] => VStr "normal"
                          end |}
  | _ => Raise "tuple index out of range"
  end.

(** The comprehension over [self.fonts.items()]. *)
Fixpoint fonts_data (items : list (string * list value))
  : outcome (list (string * FontData)) :=
  match items with
  | [] => Return []
  | (k, v) :: items =>
      match font_data v with
      | Raise e => Raise e
      | Return d =>
          match fonts_data items with
          | Raise e => Raise e
          | Return ds => Return ((k, d) :: ds)
          end
      end
  end.

(** [save_to_file(filepath)], on the files of themes by path, where the
    file can be written. *)
Definition save_to_file (filepath : string) (t : Theme)
    (files : gmap string ThemeData) : gmap string ThemeData * outcome unit :=
  match fonts_data (map_to_list (fonts t)) with
  | Raise e => (files, Raise e)
  | Return ds =>
      (<[filepath :=
           {| data_name := name t; data_is_dark := is_dark t;
              data_colors := colors t; data_fonts := list_to_map ds |}]>
         files,
       Return tt)
  end.

(** The tuple [load_from_file] makes of one font. *)
Definition font_tuple (d : FontData) : list value :=
  if decide (weight d = VStr "normal") then [family d; size d]
  else [family d; size d; weight d].

(** [Theme.load_from_file(filepath)] *)
Definition load_from_file (filepath : string)
    (files : gmap string ThemeData) : outcome Theme :=
  match files !! filepath with
  | None => Raise "No such file or directory"
  | Some data =>
      let theme := init (data_name data) (data_is_dark data) in
      Return {| name := name theme; is_dark := is_dark theme;
                colors := data_colors data;
                fonts := (font_tuple <$> data_fonts data) ∪ fonts theme |}
  end.

(** What a font tuple of at least two entries is after [save_to_file]
    and [load_from_file]. *)
Definition reloaded (v : list value) : list value :=
  match v with
  | family :: size :: weight :: _ =>
      if decide (weight = VStr "normal") then [family; size]
      else [family; size; weight]
  | _ => v
  end.

End Themes.

(** ** 07-tkinter-improved.py: the settings of the installer window *)

Module Prefs.

(** The content of [settings.json]. [load_settings] tests the presence
    of the first two keys and never reads the other two. *)
Record Settings : Type := {
  language : option string;
  theme_name : option string;
  check_updates : bool;
  analytics : bool
}.

(** The part of [CursorInstaller] the settings touch. A variable that is
    [None] is an attribute the window does not have yet. The look of the
    widgets and the log are left out. *)
Record Window : Type := {
  i18n : I18n.I18n;
  theme : Themes.Theme;
  check_updates_var : option bool;
  analytics_var : option bool;
  settings_file : option Settings
}.

Definition with_theme (t : Themes.Theme) (w : Window) : Window :=
  {| i18n := i18n w; theme := t;
     check_updates_var := check_updates_var w;
     analytics_var := analytics_var w; settings_file := settings_file w |}.

Definition with_i18n (i : I18n.I18n) (w : Window) : Window :=
  {| i18n := i; theme := theme w;
     check_updates_var := check_updates_var w;
     analytics_var := analytics_var w; settings_file := settings_file w |}.

(** [save_settings()], where the file can be written. *)
Definition save_settings (w : Window) : Window :=
  {| i18n := i18n w; theme := theme w;
     check_updates_var := check_updates_var w;
     analytics_var := analytics_var w;
     settings_file :=
       Some {| language := Some (I18n.current_language (i18n w));
               theme_name :=
                 Some (if Themes.is_dark (theme w) then "dark" else "light");
               check_updates := default true (check_updates_var w);
               analytics := default false (analytics_var w) |} |}.

(** [toggle_theme()] *)
Definition toggle_theme (w : Window) : Window :=
  let t := theme w in
  let t := {| Themes.name := Themes.name t;
              Themes.is_dark := negb (Themes.is_dark t);
              Themes.colors := Themes.colors t;
              Themes.fonts := Themes.fonts t |} in
  save_settings (with_theme (Themes.load_default_theme t) w).

(** [change_language(language)] *)
Definition change_language (lang : string) (w : Window) : Window :=
  save_settings (with_i18n (I18n.set_language lang (i18n w)) w).

(** [load_settings()] *)
Definition load_settings (w : Window) : Window :=
  match settings_file w with
  | None => w
  | Some settings =>
      let w :=
        match language settings with
        | Some lang => with_i18n (I18n.set_language lang (i18n w)) w
        | None => w
        end in
      match theme_name settings with
      | Some name =>
          if String.eqb name "dark" && negb (Themes.is_dark (theme w))
          then toggle_theme w
          else if String.eqb name "light" && Themes.is_dark (theme w)
          then toggle_theme w
          else w
      | None => w
      end
  end.

(** The window in [__init__] when the widgets are made and the settings
    are not yet loaded: the theme is the dark default, the two variables
    have the values [create_welcome_page] gives them. *)
Definition created (english : gmap string string)
    (files : list (string * gmap string string))
    (stored : option Settings) : Window :=
  {| i18n := I18n.init english files;
     theme := Themes.init "default" true;
     check_updates_var := Some true;
     analytics_var := Some false;
     settings_file := stored |}.

(** The choice of the two check boxes on the welcome page. *)
Definition choose (check_updates analytics : bool) (w : Window) : Window :=
  {| i18n := i18n w; theme := theme w;
     check_updates_var := Some check_updates;
     analytics_var := Some analytics; settings_file := settings_file w |}.

End Prefs.

(** * Properties *)

(** ** The policy validator and the command dispatcher *)

Section LauncherFacts.

Import PyStr Launcher.

Variable cfg : EnterpriseConfig.

Lemma validate_command_accepts (command : string) :
  (validate_command cfg command).1 = true ->
  allowed cfg command = true /\ dangerous cfg command = false.
Proof.
  unfold validate_command, allowed, dangerous.
  destruct (_ || _); [discriminate|].
  destruct (_ <? _)%Z; [discriminate|].
  destruct (any _ (ALLOWED_COMMANDS cfg)); simpl; [|discriminate].
  destruct (any _ (DANGEROUS_PATTERNS cfg)); simpl; [discriminate|done].
Qed.

Lemma not_allowed_rejected (command : string) :
  allowed cfg command = false -> (validate_command cfg command).1 = false.
Proof.
  intros Hno. destruct (validate_command cfg command).1 eqn:Hv; [|done].
  apply validate_command_accepts in Hv as [Hyes _]. congruence.
Qed.

Lemma dangerous_rejected (command : string) :
  dangerous cfg command = true -> (validate_command cfg command).1 = false.
Proof.
  intros Hd. destruct (validate_command cfg command).1 eqn:Hv; [|done].
  apply validate_command_accepts in Hv as [_ Hno]. congruence.
Qed.

Variable h : Handlers.

Lemma audit_log_errors (lines : list string) (lg : Logger) :
  audit_log (fold_left (fun l msg => error msg l) lines lg) = audit_log lg.
Proof.
  revert lg. induction lines as [|msg lines IH]; intros lg; simpl; [done|].
  by rewrite IH.
Qed.

(** The audit records one call appends, by the three ways it can go. *)
Lemma execute_safe_command_audit (command username : string) (lg : Logger) :
  let lg' := (execute_safe_command cfg h command username lg).1 in
  let result := (dispatch h command (lower (strip command))).2 in
  exists evs,
    audit_log lg' = (audit_log lg ++ evs)%list /\
    map action evs =
      if (validate_command cfg command).1 then
        match result with
        | Return _ => ["command_executed"]
        | Raise _ => ["command_executed"; "command_error"]
        end
      else ["command_rejected"].
Proof.
  unfold execute_safe_command.
  destruct (validate_command cfg command) as [[|] message]; simpl.
  - destruct (dispatch h command (lower (strip command))) as [lines [text|e]];
      simpl.
    + eexists. rewrite audit_log_errors. simpl. split; [reflexivity|done].
    + eexists. rewrite audit_log_errors. simpl.
      rewrite <- app_assoc. split; [reflexivity|done].
  - eexists. split; [reflexivity|done].
Qed.

End LauncherFacts.

(** The prefix test is not an exact match, and the raw text is what the
    substring test reads. *)
Example validate_command_prefix_quirk :
  Launcher.validate_command Launcher.config "  Status  "
    = (true, "Command is valid") /\
  Launcher.validate_command Launcher.config "status please run"
    = (true, "Command is valid") /\
  Launcher.validate_command Launcher.config "statusx"
    = (true, "Command is valid") /\
  Launcher.validate_command Launcher.config "   "
    = (false, "Command cannot be empty") /\
  Launcher.validate_command Launcher.config "info; ls"
    = (false, "Command contains dangerous patterns").
Proof. vm_compute. repeat split; reflexivity. Qed.

(** One record for a rejected command and one for a command whose
    handler returns. *)
Example execute_safe_command_one_event :
  map Launcher.action
      (Launcher.audit_log
         (Launcher.execute_safe_command
            Launcher.config Launcher.quiet_handlers "rm -rf /" "operator"
            Launcher.fresh_logger).1)
    = ["command_rejected"] /\
  map Launcher.action
      (Launcher.audit_log
         (Launcher.execute_safe_command
            Launcher.config Launcher.quiet_handlers "version" "operator"
            Launcher.fresh_logger).1)
    = ["command_executed"] /\
  (Launcher.execute_safe_command
     Launcher.config Launcher.quiet_handlers "logs" "operator"
     Launcher.fresh_logger).2
    = "Command 'logs' is recognized but not implemented yet.".
Proof. vm_compute. repeat split; reflexivity. Qed.

(** C2. A command whose trimmed, lower-cased text starts with none of the
    allow-listed names is not accepted, and neither is one whose text as
    given contains a dangerous substring, whatever the configured lists;
    under the default configuration ["status"] is accepted, ["rm -rf /"]
    fails the prefix test (and holds a dangerous substring too), and
    ["status; rm -rf /"] passes the prefix test and is rejected for its
    dangerous substrings. *)
Theorem validate_command_policy :
  (forall cfg command,
      Launcher.allowed cfg command = false ->
      (Launcher.validate_command cfg command).1 = false) /\
  (forall cfg command,
      Launcher.dangerous cfg command = true ->
      (Launcher.validate_command cfg command).1 = false) /\
  Launcher.validate_command Launcher.config "status"
    = (true, "Command is valid") /\
  (Launcher.allowed Launcher.config "rm -rf /" = false /\
   Launcher.dangerous Launcher.config "rm -rf /" = true /\
   (Launcher.validate_command Launcher.config "rm -rf /").1 = false) /\
  (Launcher.allowed Launcher.config "status; rm -rf /" = true /\
   Launcher.validate_command Launcher.config "status; rm -rf /"
     = (false, "Command contains dangerous patterns")).
Proof.
  split; [exact not_allowed_rejected|].
  split; [exact dangerous_rejected|].
  repeat split; vm_compute; reflexivity.
Qed.

Lemma validate_command_policy_witness :
  (Launcher.validate_command Launcher.config "reboot now").1 = false /\
  (Launcher.validate_command Launcher.config "status | tee /etc/passwd").1
    = false.
Proof.
  destruct validate_command_policy as (Hallow & Hdanger & _).
  split.
  - apply Hallow. vm_compute. reflexivity.
  - apply Hdanger. vm_compute. reflexivity.
Defined.

(** C1, as the code has it. A call of [execute_safe_command] appends to the
    audit log, and changes none of its earlier records: one record
    [command_rejected] when validation fails; one record
    [command_executed] when the handler returns; and two records,
    [command_executed] followed by [command_error], when the handler
    raises. *)
Theorem execute_safe_command_audit_events :
  forall cfg h command username lg,
    let lg' := (Launcher.execute_safe_command cfg h command username lg).1 in
    let result :=
      (Launcher.dispatch h command (PyStr.lower (PyStr.strip command))).2 in
    exists evs,
      Launcher.audit_log lg' = (Launcher.audit_log lg ++ evs)%list /\
      Launcher.emitted lg lg' = evs /\
      map Launcher.action evs =
        if (Launcher.validate_command cfg command).1 then
          match result with
          | Return _ => ["command_executed"]
          | Raise _ => ["command_executed"; "command_error"]
          end
        else ["command_rejected"].
Proof.
  intros cfg h command username lg lg' result.
  destruct (execute_safe_command_audit cfg h command username lg)
    as (evs & Hlog & Hacts).
  exists evs. split; [exact Hlog|]. split; [|exact Hacts].
  unfold Launcher.emitted. subst lg'. simpl in Hlog |- *. rewrite Hlog.
  by rewrite drop_app_length.
Qed.

(** C1 fails as stated: when [_cmd_status] raises, the call of
    [execute_safe_command] on ["status"] leaves two audit records. *)
Lemma execute_safe_command_two_events :
  let lg' := (Launcher.execute_safe_command
                Launcher.config Launcher.failing_status "status" "operator"
                Launcher.fresh_logger).1 in
  (Launcher.validate_command Launcher.config "status").1 = true /\
  map Launcher.action (Launcher.emitted Launcher.fresh_logger lg')
    = ["command_executed"; "command_error"] /\
  length (Launcher.emitted Launcher.fresh_logger lg') <> 1.
Proof. vm_compute. repeat split; [reflexivity..|discriminate]. Qed.

(** ** The download manager *)

Section DownloaderFacts.

Import Downloader.

(** What the copy loop does to a file that is open at [temp]: it appends,
    touches nothing else, and reports the one total it was given. *)
Lemma copy_loop_effect (cb : option callback) (temp : Path) (total : Z)
    (events : list transfer_event) :
  forall (downloaded : Z) (w w' : World) (r : outcome unit) (c : bytes),
    files w !! temp = Some c ->
    copy_loop cb temp total events downloaded w = (w', r) ->
    exists extra,
      files w' = <[temp := (c ++ extra)%list]> (files w) /\
      requests w' = requests w /\
      (exists new, reported w' = (reported w ++ new)%list /\
                   Forall (fun p => p.2 = total) new) /\
      (forall u, r = Return u -> extra = received events).
Proof.
  assert (Hstop : forall (w w' : World) (r : outcome unit) (c : bytes) o,
             files w !! temp = Some c -> (w, o) = (w', r) ->
             exists extra,
               files w' = <[temp := (c ++ extra)%list]> (files w) /\
               requests w' = requests w /\
               (exists new, reported w' = (reported w ++ new)%list /\
                            Forall (fun p => p.2 = total) new) /\
               (forall u, r = Return u -> extra = [])).
  { intros w w' r c o Hc [= <- <-]. exists []. rewrite app_nil_r.
    split; [by rewrite insert_id|]. split; [done|].
    split; [exists []; by rewrite app_nil_r|done]. }
  induction events as [|ev events IH]; intros downloaded w w' r c Hc Hrun.
  - simpl in Hrun. eapply Hstop; eauto.
  - destruct ev as [[|b chunk]|e|[|b chunk] e]; simpl in Hrun;
      try (unfold ret, raise in Hrun;
           destruct (Hstop _ _ _ _ _ Hc Hrun) as (x & ? & ? & ? & Hx);
           exists x; repeat split; try done;
           intros u Hu; rewrite (Hx u Hu); reflexivity).
    + unfold bind at 1 in Hrun. unfold write, with_files in Hrun.
      simpl in Hrun. rewrite Hc in Hrun. simpl in Hrun.
      unfold bind at 1 in Hrun.
      set (w1 := {| files := _ |}) in Hrun.
      destruct cb as [f|].
      * unfold bind at 1 in Hrun. unfold report in Hrun. simpl in Hrun.
        unfold of_outcome in Hrun.
        set (w2 := {| files := _ |}) in Hrun.
        destruct (f _ _ _) as [[]|e].
        -- eapply (IH _ w2 w' r (c ++ b :: chunk)%list) in Hrun;
             [|by apply lookup_insert_eq].
           destruct Hrun as (extra & Hf & Hr & (new & Hn & Hall) & Hret).
           exists (b :: chunk ++ extra)%list. simpl in *.
           rewrite Hf, insert_insert_eq, <- app_assoc. simpl.
           split; [done|]. split; [done|]. split.
           ++ exists (((downloaded + Z.pos (Pos.of_succ_nat (length chunk)))%Z,
                       total) :: new).
              rewrite Hn, <- app_assoc. split; [done|].
              constructor; [done|exact Hall].
           ++ intros u Hu. by rewrite (Hret u Hu).
        -- injection Hrun as <- <-. exists (b :: chunk). simpl.
           split; [done|]. split; [done|]. split; [|done].
           eexists. split; [reflexivity|]. by constructor.
      * unfold ret in Hrun.
        eapply (IH _ w1 w' r (c ++ b :: chunk)%list) in Hrun;
          [|by apply lookup_insert_eq].
        destruct Hrun as (extra & Hf & Hr & (new & Hn & Hall) & Hret).
        exists (b :: chunk ++ extra)%list. simpl in *.
        rewrite Hf, insert_insert_eq, <- app_assoc. simpl.
        split; [done|]. split; [done|]. split; [by exists new|].
        intros u Hu. by rewrite (Hret u Hu).
Qed.

(** The whole of the [try] block, by its two ways out. [old] is the
    partial file found at the start, if any. *)
Lemma download_body_effect (env : Env) (url : string) (dest temp : Path)
    (cb : option callback) (chunk_size : Z) (w w' : World)
    (r : outcome unit) :
  with_suffix dest ".download" = Return temp ->
  download_body env url dest cb chunk_size w = (w', r) ->
  let old := default [] (files w !! temp) in
  let n := Z.of_nat (length old) in
  match r with
  | Return _ =>
      exists response cl,
        urlopen env (request_sent url n) = Return response /\
        int_content_length (content_length response) = Return cl /\
        requests w' = (requests w ++ [request_sent url n])%list /\
        files w' =
          <[dest := (old ++ received (read response chunk_size))%list]>
            (delete temp (files w)) /\
        exists new,
          reported w' = (reported w ++ new)%list /\
          Forall (fun p => p.2 = if (0 <? n)%Z then (cl + n)%Z else cl) new
  | Raise _ =>
      files w' = files w \/
      exists extra, files w' = <[temp := (old ++ extra)%list]> (files w)
  end.
Proof.
  intros Htemp Hrun old n. unfold download_body in Hrun.
  unfold bind at 1 in Hrun. unfold of_fault at 1 in Hrun.
  destruct (mkdir_fault env); [injection Hrun as <- <-; by left|].
  unfold bind at 1 in Hrun. unfold of_outcome at 1 in Hrun.
  rewrite Htemp in Hrun. unfold bind at 1 in Hrun.
  assert (Hn : (if decide (is_Some (files w !! temp)) then n else n) =
               match files w !! temp with
               | Some partial => Z.of_nat (length partial)
               | None => 0%Z
               end).
  { subst n old. destruct (files w !! temp); simpl; by case_decide. }
  assert (Hn' : match files w !! temp with
                | Some partial => Z.of_nat (length partial)
                | None => 0%Z
                end = n) by (rewrite <- Hn; by case_decide).
  rewrite Hn' in Hrun. clear Hn Hn'.
  unfold bind at 1 in Hrun.
  assert (Hlog : exists w1,
             (if decide (is_Some (files w !! temp))
              then logger (Info ("Resuming download from byte " ++ pretty n))
              else ret tt) w = (w1, Return tt) /\
             files w1 = files w /\ requests w1 = requests w /\
             reported w1 = reported w).
  { case_decide; eexists; (split; [reflexivity|done]). }
  destruct Hlog as (w1 & Hlog & Hf1 & Hr1 & Hp1).
  rewrite Hlog in Hrun. clear Hlog.
  assert (Hreq :
    add_header "User-Agent" ("CursorInstaller/" ++ VERSION)
      (if (0 <? n)%Z
       then add_header "Range" ("bytes=" ++ pretty n ++ "-")
                       {| full_url := url; headers := [] |}
       else {| full_url := url; headers := [] |}) = request_sent url n).
  { unfold request_sent. by destruct (0 <? n)%Z. }
  rewrite Hreq in Hrun. clear Hreq.
  unfold bind at 1 in Hrun. unfold send at 1 in Hrun.
  set (w2 := {| files := files w1 |}) in Hrun.
  destruct (urlopen env (request_sent url n)) as [response|e] eqn:Hopen;
    [|injection Hrun as <- <-; left; simpl; exact Hf1].
  unfold bind at 1 in Hrun. unfold of_outcome at 1 in Hrun.
  destruct (int_content_length (content_length response)) as [cl|e] eqn:Hcl;
    [|injection Hrun as <- <-; left; simpl; exact Hf1].
  unfold bind at 1 in Hrun. unfold open_file at 1 in Hrun.
  unfold bind at 1 in Hrun. unfold of_fault at 1 in Hrun.
  destruct (open_fault env);
    [injection Hrun as <- <-; left; simpl; exact Hf1|].
  unfold with_files at 1 in Hrun.
  set (w3 := {| files := _ |}) in Hrun.
  assert (Hf3 : files w3 = <[temp := old]> (files w)).
  { subst w3 w2 old n. simpl. rewrite Hf1.
    destruct (files w !! temp) as [c|] eqn:Hc; simpl; [|done].
    destruct c as [|b c]; simpl; [done|]. by rewrite insert_id. }
  assert (Hr3 : requests w3 = (requests w ++ [request_sent url n])%list)
    by (subst w3 w2; simpl; by rewrite Hr1).
  assert (Hp3 : reported w3 = reported w) by (subst w3 w2; simpl; exact Hp1).
  clearbody w3. clear w2 w1 Hf1 Hr1 Hp1.
  unfold bind at 1 in Hrun.
  destruct (copy_loop _ _ _ _ _ w3) as [w4 r4] eqn:Hloop.
  apply (copy_loop_effect _ _ _ _ _ _ _ _ old) in Hloop;
    [|rewrite Hf3; apply lookup_insert_eq].
  destruct Hloop as (extra & Hf4 & Hr4 & (new & Hp4 & Hall) & Hret).
  rewrite Hf3, insert_insert_eq in Hf4.
  destruct r4 as [[]|e];
    [|injection Hrun as <- <-; right; by exists extra].
  rewrite (Hret tt eq_refl) in Hf4. clear Hret.
  unfold bind at 1 in Hrun. unfold rename at 1 in Hrun.
  unfold bind at 1 in Hrun. unfold of_fault at 1 in Hrun.
  destruct (rename_fault env);
    [injection Hrun as <- <-; right; eexists; exact Hf4|].
  rewrite Hf4, lookup_insert_eq in Hrun.
  unfold with_files, logger in Hrun. simpl in Hrun.
  injection Hrun as <- <-. simpl.
  exists response, cl. split; [done|]. split; [done|].
  split; [by rewrite Hr4|].
  split; [by rewrite Hf4, delete_insert_eq|].
  exists new. by rewrite Hp4, Hp3.
Qed.

(** A failed call, when the partial path is not the destination: the
    destination is as it was, and the partial file has only grown. *)
Lemma download_file_failure_keeps_dest (env : Env) (url : string)
    (dest temp : Path) (cb : option callback) (chunk_size : Z)
    (w w' : World) :
  with_suffix dest ".download" = Return temp ->
  temp <> dest ->
  download_file env url dest cb chunk_size w = (w', false) ->
  files w' !! dest = files w !! dest /\
  (files w' !! temp = files w !! temp \/
   exists extra,
     files w' !! temp = Some (default [] (files w !! temp) ++ extra)%list).
Proof.
  intros Htemp Hne Hrun. unfold download_file in Hrun.
  destruct (download_body env url dest cb chunk_size w) as [w1 [u|e]] eqn:Hbody;
    [discriminate|].
  injection Hrun as <-. simpl.
  apply (download_body_effect _ _ _ _ _ _ _ _ _ Htemp) in Hbody.
  destruct Hbody as [Hsame|(extra & Hext)].
  - rewrite Hsame. split; [done|by left].
  - rewrite Hext. split; [by apply lookup_insert_ne|].
    right. exists extra. apply lookup_insert_eq.
Qed.

(** A call on a path without a name fails at once. *)
Lemma download_body_no_name (env : Env) (url : string) (dest : Path)
    (cb : option callback) (chunk_size : Z) (w : World) (e : string) :
  with_suffix dest ".download" = Raise e ->
  exists e', (download_body env url dest cb chunk_size w).2 = Raise e'.
Proof.
  intros Htemp. unfold download_body.
  unfold bind at 1. unfold of_fault at 1.
  destruct (mkdir_fault env); [by eexists|].
  unfold bind at 1. unfold of_outcome at 1. rewrite Htemp. by eexists.
Qed.

(** A call that returns [True] has put at [dest] the partial bytes found
    at the start followed by the bytes received. *)
Lemma download_file_success (env : Env) (url : string) (dest : Path)
    (cb : option callback) (chunk_size : Z) (w w' : World) :
  download_file env url dest cb chunk_size w = (w', true) ->
  exists temp response cl,
    with_suffix dest ".download" = Return temp /\
    let old := default [] (files w !! temp) in
    let n := Z.of_nat (length old) in
    urlopen env (request_sent url n) = Return response /\
    int_content_length (content_length response) = Return cl /\
    requests w' = (requests w ++ [request_sent url n])%list /\
    files w' !! dest = Some (old ++ received (read response chunk_size))%list /\
    exists new,
      reported w' = (reported w ++ new)%list /\
      Forall (fun p => p.2 = if (0 <? n)%Z then (cl + n)%Z else cl) new.
Proof.
  intros Hrun. unfold download_file in Hrun.
  destruct (download_body env url dest cb chunk_size w) as [w1 [u|e]] eqn:Hbody;
    [|discriminate].
  injection Hrun as <-.
  destruct (with_suffix dest ".download") as [temp|e] eqn:Htemp.
  - apply (download_body_effect _ _ _ _ _ _ _ _ _ Htemp) in Hbody.
    destruct Hbody as (response & cl & Hopen & Hcl & Hreq & Hfiles & Hrep).
    exists temp, response, cl. split; [done|]. simpl.
    split; [done|]. split; [done|]. split; [done|].
    split; [|exact Hrep]. rewrite Hfiles. apply lookup_insert_eq.
  - destruct (download_body_no_name env url dest cb chunk_size w e Htemp)
      as [e' He']. rewrite Hbody in He'. discriminate.
Qed.

(** [verify_checksum] changes no file. *)
Lemma verify_checksum_files (hashlib_new : string -> option (bytes -> string))
    (p : Path) (expected algorithm : string) (w : World) :
  files (verify_checksum hashlib_new p expected algorithm w).1 = files w.
Proof.
  unfold verify_checksum.
  destruct (hashlib_new algorithm); [|done]. by destruct (files w !! p).
Qed.

(** The status code of the response has no part in a call. *)
Lemma download_file_status (code : Z) (env : Env) (url : string)
    (dest : Path) (cb : option callback) (chunk_size : Z) (w : World) :
  download_file (with_status code env) url dest cb chunk_size w
  = download_file env url dest cb chunk_size w.
Proof.
  unfold download_file.
  unfold download_body, bind, send, open_file, rename, with_status; simpl.
  destruct (mkdir_fault env); [done|].
  destruct (with_suffix dest ".download") as [temp|e1]; [|done].
  match goal with
  | |- context [(if ?d then ?a else ?b) w] =>
      destruct ((if d then a else b) w) as [w2 [[]|e2]]
  end; [|done].
  by destruct (urlopen env _) as [response|e3].
Qed.

End DownloaderFacts.

(** [with_suffix] replaces the last suffix of the name, and adds one to a
    name that has none. *)
Example with_suffix_download :
  Downloader.with_suffix
    {| Downloader.parent := "/tmp"; Downloader.name := "bundle.tar.gz" |}
    ".download"
    = Return {| Downloader.parent := "/tmp";
                Downloader.name := "bundle.tar.download" |} /\
  Downloader.with_suffix
    {| Downloader.parent := "/tmp"; Downloader.name := ".bashrc" |}
    ".download"
    = Return {| Downloader.parent := "/tmp";
                Downloader.name := ".bashrc.download" |} /\
  Downloader.with_suffix Downloader.bundle_zip ".download"
    = Return Downloader.bundle_download.
Proof. vm_compute. repeat split; reflexivity. Qed.

(** A dropped connection on the way to [bundle.zip]: the call returns
    [False], nothing is at the destination, the two bytes received are in
    the partial file, and the next call asks for the rest and completes
    the artifact. *)
Example interrupted_then_resumed :
  let url := "https://example.org/bundle.zip" in
  let first :=
    Downloader.download_file
      (Downloader.no_faults Downloader.dropping_server) url
      Downloader.bundle_zip None 8192 (Downloader.on_disk ∅) in
  let second :=
    Downloader.download_file
      (Downloader.no_faults (Downloader.range_server Downloader.artifact 2))
      url Downloader.bundle_zip None 8192 first.1 in
  first.2 = false /\
  Downloader.files first.1 !! Downloader.bundle_zip = None /\
  Downloader.files first.1 !! Downloader.bundle_download
    = Some (take 2 Downloader.artifact) /\
  second.2 = true /\
  Downloader.files second.1 !! Downloader.bundle_zip
    = Some Downloader.artifact /\
  Downloader.files second.1 !! Downloader.bundle_download = None.
Proof. vm_compute. repeat split; reflexivity. Qed.



(** C10 on the code, at a destination whose suffix is [.download]: the
    partial path is then the destination itself, and a call that fails
    after the first chunk returns [False] having created the file at the
    destination. *)
Theorem download_file_failure_writes_dest :
  let w := Downloader.on_disk ∅ in
  let r := Downloader.download_file
             (Downloader.no_faults Downloader.dropping_server)
             "https://example.org/bundle" Downloader.bundle_download
             (Some Downloader.silent) 8192 w in
  Downloader.with_suffix Downloader.bundle_download ".download"
    = Return Downloader.bundle_download /\
  r.2 = false /\
  Downloader.files w !! Downloader.bundle_download = None /\
  Downloader.files r.1 !! Downloader.bundle_download
    = Some (take 2 Downloader.artifact).
Proof. vm_compute. repeat split; reflexivity. Qed.

(** C5, as the code has it. [download_file] takes no checksum: a call that
    returns [True] leaves the bytes received at the destination, whatever
    they are. [verify_checksum], called on them afterwards, changes no file
    and raises nothing: it returns whether the digest of the content,
    lower-cased, equals the expected text, lower-cased, and [False] for an
    algorithm name [hashlib] does not know. *)
Theorem download_then_verify_checksum :
  forall hashlib_new env url dest cb chunk_size w w' expected algorithm,
    Downloader.download_file env url dest cb chunk_size w = (w', true) ->
    exists content,
      Downloader.files w' !! dest = Some content /\
      let v := Downloader.verify_checksum
                 hashlib_new dest expected algorithm w' in
      Downloader.files v.1 = Downloader.files w' /\
      v.2 = match hashlib_new algorithm with
            | Some hexdigest =>
                String.eqb (PyStr.lower (hexdigest content))
                           (PyStr.lower expected)
            | None => false
            end.
Proof.
  intros hashlib_new env url dest cb chunk_size w w' expected algorithm Hrun.
  apply download_file_success in Hrun.
  destruct Hrun as (temp & response & cl & _ & _ & _ & _ & Hfile & _).
  eexists. split; [exact Hfile|]. simpl.
  split; [apply verify_checksum_files|].
  unfold Downloader.verify_checksum.
  destruct (hashlib_new algorithm); [|done]. by rewrite Hfile.
Qed.

Lemma download_then_verify_checksum_witness :
  let r := Downloader.download_file
             (Downloader.no_faults
                (Downloader.restarting_server Downloader.artifact))
             "https://example.org/bundle.zip" Downloader.bundle_zip
             None 8192 (Downloader.on_disk ∅) in
  exists content,
    Downloader.files r.1 !! Downloader.bundle_zip = Some content /\
    let v := Downloader.verify_checksum
               Downloader.sum_hashlib Downloader.bundle_zip
               "162" "sha256" r.1 in
    Downloader.files v.1 = Downloader.files r.1 /\
    v.2 = String.eqb (PyStr.lower (Downloader.byte_sum content))
                     (PyStr.lower "162").
Proof.
  intros r.
  apply (download_then_verify_checksum
           Downloader.sum_hashlib
           (Downloader.no_faults
              (Downloader.restarting_server Downloader.artifact))
           "https://example.org/bundle.zip" Downloader.bundle_zip
           None 8192 (Downloader.on_disk ∅) r.1 "162" "sha256").
  vm_compute. reflexivity.
Defined.

(** C5 fails as stated: a download whose content does not match the
    expected checksum returns [True] and leaves the file at the
    destination; [verify_checksum] then returns [False] and the file is
    still there. *)
Lemma checksum_mismatch_keeps_file :
  let expected := Downloader.byte_sum Downloader.artifact in
  let r := Downloader.download_file
             (Downloader.no_faults
                (Downloader.restarting_server Downloader.corrupted))
             "https://example.org/bundle.zip" Downloader.bundle_zip
             None 8192 (Downloader.on_disk ∅) in
  let v := Downloader.verify_checksum
             Downloader.sum_hashlib Downloader.bundle_zip
             expected "sha256" r.1 in
  Downloader.byte_sum Downloader.corrupted <> expected /\
  r.2 = true /\
  Downloader.files r.1 !! Downloader.bundle_zip = Some Downloader.corrupted /\
  v.2 = false /\
  Downloader.files v.1 !! Downloader.bundle_zip = Some Downloader.corrupted.
Proof. vm_compute. repeat split; [discriminate|reflexivity..]. Qed.

(** C6, as the code has it. The status code of the response is never
    read: a call goes the same way whether the server answered 200 or
    206. So when the partial file holds N > 0 bytes and the call returns
    [True], whatever the status, the destination holds the partial bytes
    followed by every byte of the body, and each total handed to the
    progress callback is the [Content-Length] plus N. *)
Theorem download_file_ignores_status :
  (forall code env url dest cb chunk_size w,
      Downloader.download_file
        (Downloader.with_status code env) url dest cb chunk_size w
      = Downloader.download_file env url dest cb chunk_size w) /\
  (forall env url dest temp cb chunk_size w w' partial,
      Downloader.with_suffix dest ".download" = Return temp ->
      Downloader.files w !! temp = Some partial ->
      (0 < length partial)%nat ->
      Downloader.download_file env url dest cb chunk_size w = (w', true) ->
      exists response cl new,
        Downloader.urlopen env
          (Downloader.request_sent url (Z.of_nat (length partial)))
          = Return response /\
        Downloader.int_content_length (Downloader.content_length response)
          = Return cl /\
        Downloader.files w' !! dest =
          Some (partial ++ Downloader.received
                             (Downloader.read response chunk_size))%list /\
        Downloader.reported w' = (Downloader.reported w ++ new)%list /\
        Forall (fun p => p.2 = (cl + Z.of_nat (length partial))%Z) new).
Proof.
  split; [exact download_file_status|].
  intros env url dest temp cb chunk_size w w' partial Htemp Hpart Hpos Hrun.
  apply download_file_success in Hrun.
  destruct Hrun as (temp' & response & cl & Htemp' & Hrun).
  rewrite Htemp in Htemp'. injection Htemp' as <-.
  rewrite Hpart in Hrun. simpl in Hrun.
  destruct Hrun as (Hopen & Hcl & _ & Hfile & new & Hrep & Hall).
  exists response, cl, new. repeat (split; [done|]).
  destruct (0 <? Z.of_nat (length partial))%Z eqn:Hz; [done|].
  apply Z.ltb_ge in Hz. lia.
Qed.

Lemma download_file_ignores_status_witness :
  let w := Downloader.on_disk
             {[ Downloader.bundle_download := take 2 Downloader.artifact ]} in
  let w' := (Downloader.download_file
               (Downloader.no_faults
                  (Downloader.restarting_server Downloader.artifact))
               "https://example.org/bundle.zip" Downloader.bundle_zip
               (Some Downloader.silent) 8192 w).1 in
  exists response cl new,
    Downloader.urlopen
      (Downloader.no_faults (Downloader.restarting_server Downloader.artifact))
      (Downloader.request_sent "https://example.org/bundle.zip" 2)
      = Return response /\
    Downloader.int_content_length (Downloader.content_length response)
      = Return cl /\
    Downloader.files w' !! Downloader.bundle_zip =
      Some (take 2 Downloader.artifact
              ++ Downloader.received (Downloader.read response 8192))%list /\
    Downloader.reported w' = (Downloader.reported w ++ new)%list /\
    Forall (fun p => p.2 = (cl + 2)%Z) new.
Proof.
  intros w w'.
  apply (proj2 download_file_ignores_status
           (Downloader.no_faults
              (Downloader.restarting_server Downloader.artifact))
           "https://example.org/bundle.zip" Downloader.bundle_zip
           Downloader.bundle_download (Some Downloader.silent) 8192%Z w w'
           (take 2 Downloader.artifact)).
  - reflexivity.
  - vm_compute. reflexivity.
  - simpl. lia.
  - vm_compute. reflexivity.
Defined.

(** C6 fails as stated: with two bytes in the partial file and a server
    that answers the range request with a 200 and the whole four-byte
    artifact, the call returns [True], the destination holds six bytes (the
    two partial bytes, then the artifact) and the total reported is 6; a
    transfer from scratch yields the artifact and reports 4. *)
Lemma restart_is_not_detected :
  let env := Downloader.no_faults
               (Downloader.restarting_server Downloader.artifact) in
  let url := "https://example.org/bundle.zip" in
  let resumed :=
    Downloader.download_file
      env url Downloader.bundle_zip (Some Downloader.silent) 8192
      (Downloader.on_disk
         {[ Downloader.bundle_download := take 2 Downloader.artifact ]}) in
  let scratch :=
    Downloader.download_file
      env url Downloader.bundle_zip (Some Downloader.silent) 8192
      (Downloader.on_disk ∅) in
  (exists response,
      Downloader.urlopen env (Downloader.request_sent url 2) = Return response
      /\ Downloader.status_code response = 200%Z) /\
  resumed.2 = true /\
  Downloader.files resumed.1 !! Downloader.bundle_zip
    = Some (take 2 Downloader.artifact ++ Downloader.artifact)%list /\
  Downloader.reported resumed.1 = [(6, 6)%Z] /\
  scratch.2 = true /\
  Downloader.files scratch.1 !! Downloader.bundle_zip
    = Some Downloader.artifact /\
  Downloader.reported scratch.1 = [(4, 4)%Z] /\
  Downloader.files resumed.1 !! Downloader.bundle_zip
    <> Downloader.files scratch.1 !! Downloader.bundle_zip.
Proof.
  vm_compute. split; [eexists; split; reflexivity|].
  repeat split; try reflexivity. discriminate.
Qed.

(** ** The installation engine *)

Section InstallerFacts.

Import Installer.

Variable env : Env.
Variable profile_name : string.

Local Abbreviation run := (Installer.run env profile_name).
Local Abbreviation worker := (Installer.worker env profile_name).
Local Abbreviation fire := (Installer.fire env profile_name).

Lemma run_app (s1 s2 : list event) (m : Machine) :
  run (s1 ++ s2) m = run s2 (run s1 m).
Proof. apply fold_left_app. Qed.

Lemma run_cons (e : event) (s : list event) (m : Machine) :
  run (e :: s) m = run s (fire e m).
Proof. reflexivity. Qed.

(** The end of a step touches neither flag. *)
Lemma finish_step_flags (i : nat) (step_name : string) (result : outcome bool)
    (m : Machine) :
  abort_flag (finish_step env i step_name result m) = abort_flag m /\
  pause_flag (finish_step env i step_name result m) = pause_flag m.
Proof.
  unfold finish_step. destruct result as [[|]|e]; [|done..].
  destruct (progress_callback env) as [cb|]; [|done].
  simpl. by destruct (cb _) as [s [[]|e]].
Qed.

(** The worker only reads the flags. *)
Lemma worker_flags (m : Machine) :
  abort_flag (worker m) = abort_flag m /\
  pause_flag (worker m) = pause_flag m.
Proof.
  unfold Installer.worker. destruct (at_pc m) as [|i|i|i|i|r]; try done.
  - destruct (steps env !! i); [|done].
    destruct (abort_flag m) eqn:Hab; simpl; by rewrite ?Hab.
  - destruct (pause_flag m) eqn:Hp; simpl; [by rewrite ?Hp|].
    destruct (steps env !! i) as [[step_name result]|]; simpl; by rewrite ?Hp.
  - destruct (steps env !! i) as [[step_name result]|]; [|done].
    apply finish_step_flags.
Qed.

(** Nothing clears the abort flag. *)
Lemma abort_flag_stays (schedule : list event) (m : Machine) :
  abort_flag m = true -> abort_flag (run schedule m) = true.
Proof.
  revert m. induction schedule as [|e schedule IH]; intros m Hm; [done|].
  rewrite run_cons. apply IH.
  destruct e; simpl; try done. by rewrite (proj1 (worker_flags m)).
Qed.

(** Once [install] has returned, the state object and the log stay as they
    are: the controls only set flags. *)
Lemma returned_frozen (r : bool) (schedule : list event) (m : Machine) :
  at_pc m = Returned r ->
  at_pc (run schedule m) = Returned r /\
  state (run schedule m) = state m /\
  log (run schedule m) = log m.
Proof.
  revert m. induction schedule as [|e schedule IH]; intros m Hm; [done|].
  rewrite run_cons.
  assert (He : at_pc (fire e m) = Returned r /\ state (fire e m) = state m /\
               log (fire e m) = log m).
  { destruct e; simpl; try done. unfold Installer.worker. by rewrite Hm. }
  destruct He as (Hpc & Hst & Hlog).
  destruct (IH _ Hpc) as (? & ? & ?). by rewrite <- Hst, <- Hlog.
Qed.

(** The abort test at the head of an iteration. *)
Lemma worker_sees_abort (i : nat) (m : Machine) :
  at_pc m = LoopHead i -> (i < total_steps env)%nat ->
  abort_flag m = true ->
  worker m =
    goto (Returned false)
         (with_state (set_status "aborted")
                     (logger (Info "Installation aborted by user") m)).
Proof.
  intros Hpc Hi Hab. unfold Installer.worker. rewrite Hpc.
  destruct (steps env !! i) eqn:Hstep; [by rewrite Hab|].
  apply lookup_ge_None in Hstep. unfold total_steps in Hi. lia.
Qed.

(** The lines of [logger.error] name no executed step. *)
Lemma executed_errors (m m' : Machine) (logged : list log_record) :
  log m' = (log m ++ logged)%list ->
  Forall (fun r => exists text, r = Error text) logged ->
  executed m' = executed m.
Proof.
  intros Hlog Hall. unfold executed. rewrite Hlog, omap_app.
  rewrite <- (app_nil_r (omap _ (log m))) at 2. f_equal. clear Hlog.
  induction Hall as [|r logged [text ->] _ IH]; [done|]. simpl. exact IH.
Qed.

(** A step that returns [False] or raises. *)
Lemma worker_step_fails (i : nat) (step_name : string) (result : outcome bool)
    (m : Machine) :
  at_pc m = InStep i ->
  steps env !! i = Some (step_name, result) ->
  result <> Return true ->
  exists msg logged,
    at_pc (worker m) = Returned false /\
    state (worker m) = append_errors msg (set_status "failed" (state m)) /\
    log (worker m) = (log m ++ logged)%list /\
    Forall (fun r => exists text, r = Error text) logged.
Proof.
  intros Hpc Hstep Hres. unfold Installer.worker. rewrite Hpc, Hstep.
  unfold finish_step. destruct result as [[|]|e]; [done|..].
  - exists ("Step '" ++ step_name ++ "' failed"), []. simpl.
    by rewrite app_nil_r.
  - exists ("Step '" ++ step_name ++ "' error: " ++ e),
           [Error ("Step '" ++ step_name ++ "' failed: " ++ e)].
    simpl. repeat split; try done. constructor; [by eexists|done].
Qed.

(** A control called while a step runs does not change what the step's
    end does. *)
Lemma worker_in_step_pause (i : nat) (m : Machine) :
  at_pc m = InStep i -> worker (pause m) = pause (worker m).
Proof.
  intros Hpc. unfold Installer.worker. simpl. rewrite Hpc.
  destruct (steps env !! i) as [[step_name result]|]; [|done].
  unfold finish_step. destruct result as [[|]|e]; try done.
  destruct (progress_callback env) as [cb|]; [|done].
  simpl. by destruct (cb _) as [s [[]|e]].
Qed.

(** Leaving the pause loop once the flag is clear. *)
Lemma worker_after_resume (i : nat) (step_name : string)
    (result : outcome bool) (m : Machine) :
  at_pc m = PauseTest i \/ at_pc m = Sleeping i ->
  steps env !! i = Some (step_name, result) ->
  at_pc (run [Resume; Worker; Worker] m) = InStep i \/
  at_pc (run [Resume; Worker] m) = InStep i.
Proof.
  intros [Hpc|Hpc] Hstep.
  - right. simpl. unfold Installer.worker. simpl. by rewrite Hpc, Hstep.
  - left. simpl. unfold Installer.worker at 2. simpl. rewrite Hpc.
    unfold Installer.worker. simpl. by rewrite Hstep.
Qed.

(** A step that succeeds, followed by a callback that raises. *)
Lemma worker_callback_raises (i : nat) (step_name : string) (cb : callback)
    (s : InstallationState) (e : string) (m : Machine) :
  at_pc m = InStep i ->
  steps env !! i = Some (step_name, Return true) ->
  progress_callback env = Some cb ->
  cb (set_progress
        (inject_Z (Z.of_nat (i + 1))
           / inject_Z (Z.of_nat (total_steps env)) * 100)%Q
        (append_steps_completed step_name (state m))) = (s, Raise e) ->
  worker m =
    step_error step_name e (with_state (fun _ => s) m).
Proof.
  intros Hpc Hstep Hcb Hraise. unfold Installer.worker. rewrite Hpc, Hstep.
  unfold finish_step. rewrite Hcb. simpl. by rewrite Hraise.
Qed.

(** The pause loop: with the flag set and no [resume()], the worker stays
    between the test and the sleep. *)
Lemma pause_loop_holds (i : nat) (schedule : list event) :
  forall m : Machine,
    at_pc m = PauseTest i \/ at_pc m = Sleeping i ->
    pause_flag m = true ->
    Resume ∉ schedule ->
    let m' := run schedule m in
    (at_pc m' = PauseTest i \/ at_pc m' = Sleeping i) /\
    pause_flag m' = true /\
    state m' = state m /\ log m' = log m.
Proof.
  induction schedule as [|e schedule IH]; intros m Hpc Hp Hno; [done|].
  rewrite run_cons. apply not_elem_of_cons in Hno as [Hne Hno].
  assert (He : (at_pc (fire e m) = PauseTest i \/
                at_pc (fire e m) = Sleeping i) /\
               pause_flag (fire e m) = true /\
               state (fire e m) = state m /\ log (fire e m) = log m).
  { destruct e; simpl; try done.
    unfold Installer.worker.
    destruct Hpc as [-> | ->]; [rewrite Hp|]; simpl; auto. }
  destruct He as (Hpc' & Hp' & Hst & Hlog).
  destruct (IH _ Hpc' Hp' Hno) as (? & ? & ? & ?).
  simpl. by rewrite <- Hst, <- Hlog.
Qed.

(** With the pause flag set during step k, and no [resume()], the worker
    gets no further than the pause loop before step k + 1. *)
Lemma held_before_fire (k : nat) (e : event) (m : Machine) :
  e <> Resume -> held_before k m -> held_before k (fire e m).
Proof.
  intros He [Hp Hpc]. destruct e; try done; [|by split..].
  split; [simpl; by rewrite (proj2 (worker_flags m))|].
  simpl. unfold Installer.worker.
  destruct Hpc as [Hpc|[Hpc|[Hpc|[Hpc|[r Hpc]]]]]; rewrite Hpc.
  - destruct (steps env !! k) as [[step_name result]|]; [|auto].
    unfold finish_step. destruct result as [[|]|e]; simpl; eauto 10.
    destruct (progress_callback env) as [cb|]; simpl; [|auto].
    destruct (cb _) as [s [[]|e]]; simpl; eauto 10.
  - destruct (steps env !! (k + 1)); simpl; [|eauto 10].
    destruct (abort_flag m); simpl; eauto 10.
  - rewrite Hp. simpl. auto.
  - simpl. auto.
  - eauto 10.
Qed.

Lemma held_before_run (k : nat) (schedule : list event) :
  forall m : Machine,
    Resume ∉ schedule -> held_before k m -> held_before k (run schedule m).
Proof.
  induction schedule as [|e schedule IH]; intros m Hno Hm; [done|].
  apply not_elem_of_cons in Hno as [Hne Hno].
  rewrite run_cons. apply IH; [done|]. by apply held_before_fire.
Qed.

End InstallerFacts.

(** A run left alone goes through the seven steps in order; a run whose
    download step returns [False] stops there. *)
Example install_runs :
  let done_ := Installer.run Installer.all_succeed "default"
                 (Installer.workers 23) Installer.start in
  let failed := Installer.run Installer.download_fails "default"
                  (Installer.workers 23) Installer.start in
  Installer.at_pc done_ = Installer.Returned true /\
  Installer.status (Installer.state done_) = "completed" /\
  Installer.executed done_
    = ["prepare"; "download"; "extract"; "install"; "configure";
       "shortcuts"; "finalize"] /\
  Installer.at_pc failed = Installer.Returned false /\
  Installer.status (Installer.state failed) = "failed" /\
  Installer.errors (Installer.state failed) = ["Step 'download' failed"] /\
  Installer.executed failed = ["prepare"; "download"].
Proof. vm_compute. repeat split; reflexivity. Qed.

(** C8. When a step function returns [False] or raises, the move of the
    worker that ends the step appends one message to [errors], sets the
    status to ["failed"] and makes [install] return [False]; the completed
    steps are left as they were (nothing is rolled back), no further step
    is started then or at any later time, and the state stays as it is
    whatever the other thread calls afterwards: a terminal status with a
    populated list of errors. *)
Theorem failed_step_stops_pipeline :
  forall env profile_name m i step_name result,
    Installer.at_pc m = Installer.InStep i ->
    Installer.steps env !! i = Some (step_name, result) ->
    result = Return false \/ (exists e, result = Raise e) ->
    let m' := Installer.worker env profile_name m in
    Installer.at_pc m' = Installer.Returned false /\
    Installer.status (Installer.state m') = "failed" /\
    (exists msg,
        Installer.errors (Installer.state m')
        = (Installer.errors (Installer.state m) ++ [msg])%list) /\
    Installer.steps_completed (Installer.state m')
      = Installer.steps_completed (Installer.state m) /\
    Installer.executed m' = Installer.executed m /\
    forall later,
      let m'' := Installer.run env profile_name later m' in
      Installer.at_pc m'' = Installer.Returned false /\
      Installer.state m'' = Installer.state m' /\
      Installer.executed m'' = Installer.executed m.
Proof.
  intros env profile_name m i step_name result Hpc Hstep Hres m'.
  assert (Hne : result <> Return true)
    by (destruct Hres as [->|[e ->]]; discriminate).
  destruct (worker_step_fails env profile_name i step_name result m
              Hpc Hstep Hne) as (msg & logged & Hpc' & Hst & Hlog & Hall).
  fold m' in Hpc', Hst, Hlog.
  assert (Hex : Installer.executed m' = Installer.executed m)
    by (eapply executed_errors; eauto).
  split; [done|]. rewrite Hst. simpl.
  split; [done|]. split; [by exists msg|]. split; [done|]. split; [done|].
  intros later.
  destruct (returned_frozen env profile_name false later m' Hpc')
    as (Hpc'' & Hst'' & Hlog'').
  split; [done|]. split; [by rewrite Hst'', Hst|].
  rewrite <- Hex. unfold Installer.executed. by rewrite Hlog''.
Qed.

Lemma failed_step_stops_pipeline_witness :
  let m := Installer.run Installer.extract_raises "default"
             (Installer.workers 9) Installer.start in
  let m' := Installer.worker Installer.extract_raises "default" m in
  Installer.at_pc m' = Installer.Returned false /\
  Installer.status (Installer.state m') = "failed" /\
  (exists msg,
      Installer.errors (Installer.state m')
      = (Installer.errors (Installer.state m) ++ [msg])%list) /\
  Installer.steps_completed (Installer.state m')
    = Installer.steps_completed (Installer.state m) /\
  Installer.executed m' = Installer.executed m /\
  forall later,
    let m'' := Installer.run Installer.extract_raises "default" later m' in
    Installer.at_pc m'' = Installer.Returned false /\
    Installer.state m'' = Installer.state m' /\
    Installer.executed m'' = Installer.executed m.
Proof.
  intros m m'.
  apply (failed_step_stops_pipeline
           Installer.extract_raises "default" m 2 "extract"
           (Raise "No space left on device")).
  - vm_compute. reflexivity.
  - reflexivity.
  - right. by eexists.
Defined.

(** C7, as the code has it. An exception raised by the progress callback
    does not leave [install]: it is caught by the handler of the step just
    run and logged as that step's failure; the state the callback left is
    marked ["failed"], the message [Step '<name>' error: <text>] is
    appended to its errors, and [install] returns [False]. *)
Theorem callback_exception_fails_step :
  forall env profile_name m i step_name cb s e,
    Installer.at_pc m = Installer.InStep i ->
    Installer.steps env !! i = Some (step_name, Return true) ->
    Installer.progress_callback env = Some cb ->
    cb (Installer.set_progress
          (inject_Z (Z.of_nat (i + 1))
             / inject_Z (Z.of_nat (Installer.total_steps env)) * 100)%Q
          (Installer.append_steps_completed step_name (Installer.state m)))
      = (s, Raise e) ->
    let m' := Installer.worker env profile_name m in
    Installer.at_pc m' = Installer.Returned false /\
    Installer.state m' =
      Installer.append_errors ("Step '" ++ step_name ++ "' error: " ++ e)
        (Installer.set_status "failed" s) /\
    Installer.log m' =
      (Installer.log m
         ++ [Installer.Error ("Step '" ++ step_name ++ "' failed: " ++ e)])%list
    /\
    forall later,
      let m'' := Installer.run env profile_name later m' in
      Installer.at_pc m'' = Installer.Returned false /\
      Installer.state m'' = Installer.state m'.
Proof.
  intros env profile_name m i step_name cb s e Hpc Hstep Hcb Hraise m'.
  assert (Hm' : m' = Installer.step_error step_name e
                       (Installer.with_state (fun _ => s) m))
    by (eapply worker_callback_raises; eauto).
  rewrite Hm'. simpl. split; [done|]. split; [done|]. split; [done|].
  intros later.
  match goal with
  | |- context [Installer.run _ _ _ ?x] =>
      destruct (returned_frozen env profile_name false later x eq_refl)
        as (Hpc2 & Hst2 & _)
  end.
  split; [exact Hpc2|]. by rewrite Hst2.
Qed.

Lemma callback_exception_fails_step_witness :
  let env := Installer.with_callback
               Installer.raising_callback Installer.all_succeed in
  let m := Installer.run env "default" (Installer.workers 3) Installer.start in
  let m' := Installer.worker env "default" m in
  Installer.at_pc m' = Installer.Returned false /\
  Installer.status (Installer.state m') = "failed" /\
  Installer.errors (Installer.state m')
    = ["Step 'prepare' error: main thread is not in main loop"].
Proof.
  intros env m m'.
  destruct (callback_exception_fails_step
              env "default" m 0 "prepare" Installer.raising_callback
              (Installer.set_progress
                 (inject_Z 1 / inject_Z 7 * 100)%Q
                 (Installer.append_steps_completed
                    "prepare" (Installer.state m)))
              "main thread is not in main loop")
    as (Hpc & Hst & _).
  - vm_compute. reflexivity.
  - reflexivity.
  - reflexivity.
  - reflexivity.
  - fold m' in Hpc, Hst. rewrite Hst. split; [exact Hpc|].
    split; reflexivity.
Defined.

(** C7 fails as stated: with a callback that raises after the first step,
    the run is changed by the exception: it ends with status ["failed"]
    and an error message, and the six remaining steps are not run. *)
Lemma callback_exception_changes_run :
  let env := Installer.with_callback
               Installer.raising_callback Installer.all_succeed in
  let m := Installer.run env "default" (Installer.workers 30) Installer.start in
  Installer.at_pc m = Installer.Returned false /\
  Installer.status (Installer.state m) = "failed" /\
  Installer.errors (Installer.state m)
    = ["Step 'prepare' error: main thread is not in main loop"] /\
  Installer.executed m = ["prepare"] /\
  Installer.executed
    (Installer.run Installer.all_succeed "default"
       (Installer.workers 30) Installer.start)
    = ["prepare"; "download"; "extract"; "install"; "configure";
       "shortcuts"; "finalize"].
Proof. vm_compute. repeat split; reflexivity. Qed.

(** C3, as the code has it. The abort flag is never cleared, and the
    worker tests it at the head of each iteration, before the step of that
    iteration starts: if [abort()] has been called by then, that move ends
    the run with status ["aborted"], [install] returns [False], no error
    is recorded and nothing is raised; the status stays ["aborted"]
    whatever is called later. *)
Theorem abort_seen_at_loop_head :
  forall env profile_name schedule m i,
    Installer.abort_flag m = true ->
    Installer.at_pc (Installer.run env profile_name schedule m)
      = Installer.LoopHead i ->
    (i < 7)%nat ->
    let m1 := Installer.run env profile_name schedule m in
    let m' := Installer.worker env profile_name m1 in
    Installer.at_pc m' = Installer.Returned false /\
    Installer.state m' = Installer.set_status "aborted" (Installer.state m1) /\
    Installer.executed m' = Installer.executed m1 /\
    forall later,
      let m'' := Installer.run env profile_name later m' in
      Installer.at_pc m'' = Installer.Returned false /\
      Installer.status (Installer.state m'') = "aborted".
Proof.
  intros env profile_name schedule m i Hab Hpc Hi m1 m'.
  assert (Hab1 : Installer.abort_flag m1 = true) by by apply abort_flag_stays.
  assert (Hm' : m' = Installer.goto (Installer.Returned false)
                       (Installer.with_state (Installer.set_status "aborted")
                          (Installer.logger
                             (Installer.Info "Installation aborted by user")
                             m1)))
    by (eapply worker_sees_abort; eauto).
  rewrite Hm'. simpl. split; [done|]. split; [done|]. split.
  - unfold Installer.executed. simpl. rewrite omap_app. simpl.
    by rewrite app_nil_r.
  - intros later.
    match goal with
    | |- context [Installer.run _ _ _ ?x] =>
        destruct (returned_frozen env profile_name false later x eq_refl)
          as (Hpc2 & Hst2 & _)
    end.
    split; [exact Hpc2|]. by rewrite Hst2.
Qed.

Lemma abort_seen_at_loop_head_witness :
  let m := Installer.abort
             (Installer.run Installer.all_succeed "default"
                (Installer.workers 6) Installer.start) in
  let m1 := Installer.run Installer.all_succeed "default"
              [Installer.Worker] m in
  let m' := Installer.worker Installer.all_succeed "default" m1 in
  Installer.at_pc m1 = Installer.LoopHead 2 /\
  Installer.at_pc m' = Installer.Returned false /\
  Installer.status (Installer.state m') = "aborted" /\
  Installer.executed m' = ["prepare"; "download"].
Proof.
  intros m m1 m'.
  destruct (abort_seen_at_loop_head
              Installer.all_succeed "default" [Installer.Worker] m 2)
    as (Hpc & Hst & Hex & _).
  - reflexivity.
  - vm_compute. reflexivity.
  - lia.
  - fold m1 in Hpc, Hst, Hex. fold m' in Hpc, Hst, Hex.
    split; [vm_compute; reflexivity|]. split; [exact Hpc|].
    split; [by rewrite Hst|]. rewrite Hex. vm_compute. reflexivity.
Defined.

(** C3 fails as stated. [abort()] called while the final step runs: the
    step ends, the loop is over, and the run ends with status
    ["completed"] and [install] returns [True]. [abort()] called while the
    worker is held in the pause loop before the final step: after
    [resume()] that step runs and the run ends ["completed"] as well. *)
Lemma abort_in_final_step_completes :
  let in_final := Installer.run Installer.all_succeed "default"
                    (Installer.workers 21) Installer.start in
  let m := Installer.run Installer.all_succeed "default"
             [Installer.Abort; Installer.Worker; Installer.Worker] in_final in
  let paused := Installer.run Installer.all_succeed "default"
                  (Installer.workers 19
                     ++ [Installer.Pause; Installer.Worker; Installer.Worker])
                  Installer.start in
  let m2 := Installer.run Installer.all_succeed "default"
              (Installer.Abort :: Installer.workers 4
                 ++ Installer.Resume :: Installer.workers 4) paused in
  (Installer.at_pc in_final = Installer.InStep 6 /\
   Installer.abort_flag m = true /\
   Installer.at_pc m = Installer.Returned true /\
   Installer.status (Installer.state m) = "completed") /\
  (Installer.at_pc paused = Installer.Sleeping 6 /\
   Installer.abort_flag m2 = true /\
   Installer.at_pc m2 = Installer.Returned true /\
   Installer.status (Installer.state m2) = "completed").
Proof. vm_compute. repeat split; reflexivity. Qed.

(** C4, as the code has it. With the pause flag set, a worker that has
    reached the pause loop before step i stays there, the state object
    (its progress with it) and the log unchanged, through every schedule
    without [resume()], calls of [abort()] included. [pause()] called
    while step k runs changes nothing of what the end of that step does,
    and without [resume()] the worker starts no other step. After
    [resume()] the worker leaves the loop and starts step i within two
    moves. *)
Theorem pause_holds_at_boundary :
  (forall env profile_name i schedule m,
      Installer.at_pc m = Installer.PauseTest i \/
      Installer.at_pc m = Installer.Sleeping i ->
      Installer.pause_flag m = true ->
      Installer.Resume ∉ schedule ->
      let m' := Installer.run env profile_name schedule m in
      (Installer.at_pc m' = Installer.PauseTest i \/
       Installer.at_pc m' = Installer.Sleeping i) /\
      Installer.state m' = Installer.state m /\
      Installer.log m' = Installer.log m) /\
  (forall env profile_name k schedule m,
      Installer.at_pc m = Installer.InStep k ->
      Installer.Resume ∉ schedule ->
      Installer.worker env profile_name (Installer.pause m)
        = Installer.pause (Installer.worker env profile_name m) /\
      forall j,
        Installer.at_pc
          (Installer.run env profile_name schedule (Installer.pause m))
          = Installer.InStep j -> j = k) /\
  (forall env profile_name i step_name result m,
      Installer.at_pc m = Installer.PauseTest i \/
      Installer.at_pc m = Installer.Sleeping i ->
      Installer.steps env !! i = Some (step_name, result) ->
      Installer.at_pc
        (Installer.run env profile_name
           [Installer.Resume; Installer.Worker; Installer.Worker] m)
        = Installer.InStep i \/
      Installer.at_pc
        (Installer.run env profile_name
           [Installer.Resume; Installer.Worker] m)
        = Installer.InStep i).
Proof.
  split; [|split].
  - intros env profile_name i schedule m Hpc Hp Hno m'.
    destruct (pause_loop_holds env profile_name i schedule m Hpc Hp Hno)
      as (? & _ & ? & ?).
    done.
  - intros env profile_name k schedule m Hpc Hno.
    split; [exact (worker_in_step_pause env profile_name k m Hpc)|].
    intros j Hj.
    assert (Hheld : Installer.held_before k (Installer.pause m))
      by (split; [done|by left]).
    apply (held_before_run env profile_name k schedule _ Hno) in Hheld.
    destruct Hheld as [_ [H|[H|[H|[H|[r H]]]]]]; rewrite H in Hj;
      congruence.
  - intros env profile_name i step_name result m Hpc Hstep.
    exact (worker_after_resume env profile_name i step_name result m
             Hpc Hstep).
Qed.

Lemma pause_holds_at_boundary_witness :
  let env := Installer.all_succeed in
  let in_step := Installer.run env "default" (Installer.workers 6)
                   Installer.start in
  let held := Installer.run env "default"
                (Installer.Pause :: Installer.workers 3) in_step in
  let later := Installer.run env "default"
                 (Installer.Abort :: Installer.workers 10) held in
  Installer.at_pc in_step = Installer.InStep 1 /\
  Installer.at_pc held = Installer.Sleeping 2 /\
  (Installer.at_pc later = Installer.PauseTest 2 \/
   Installer.at_pc later = Installer.Sleeping 2) /\
  Installer.progress (Installer.state later)
    = Installer.progress (Installer.state held) /\
  (forall j,
      Installer.at_pc
        (Installer.run env "default" (Installer.workers 40)
           (Installer.pause in_step))
      = Installer.InStep j -> j = 1%nat) /\
  (Installer.at_pc
     (Installer.run env "default"
        [Installer.Resume; Installer.Worker; Installer.Worker] held)
   = Installer.InStep 2 \/
   Installer.at_pc
     (Installer.run env "default" [Installer.Resume; Installer.Worker] held)
   = Installer.InStep 2).
Proof.
  intros env in_step held later.
  destruct pause_holds_at_boundary as (Hloop & Hstep & Hresume).
  split; [vm_compute; reflexivity|]. split; [vm_compute; reflexivity|].
  destruct (Hloop env "default" 2%nat
              (Installer.Abort :: Installer.workers 10) held)
    as (Hpc & Hst & _).
  - right. vm_compute. reflexivity.
  - vm_compute. reflexivity.
  - apply (bool_decide_unpack _). vm_compute. exact I.
  - split; [exact Hpc|]. split; [unfold later; by rewrite Hst|]. split.
    + apply Hstep; [vm_compute; reflexivity|].
      apply (bool_decide_unpack _). vm_compute. exact I.
    + apply (Hresume env "default" 2%nat "extract" (Return true)).
      * right. vm_compute. reflexivity.
      * reflexivity.
Defined.

(** C4 fails as stated: a worker held in the pause loop is not released by
    [abort()]. A hundred polls after the call it is still in the loop, the
    run still ["installing"]. *)
Lemma abort_does_not_end_pause :
  let held := Installer.run Installer.all_succeed "default"
                (Installer.Pause :: Installer.workers 3) Installer.start in
  let m := Installer.run Installer.all_succeed "default"
             (Installer.Abort :: Installer.workers 100) held in
  Installer.at_pc held = Installer.Sleeping 0 /\
  Installer.abort_flag m = true /\
  Installer.pause_flag m = true /\
  Installer.at_pc m = Installer.Sleeping 0 /\
  Installer.status (Installer.state m) = "installing".
Proof. vm_compute. repeat split; reflexivity. Qed.

(** * Further properties of the code *)

(** ** The installation engine: order, termination, result *)

Section EngineRuns.

Import Installer Pace.

Variable env : Env.
Variable profile_name : string.

Local Abbreviation run := (Installer.run env profile_name).
Local Abbreviation worker := (Installer.worker env profile_name).
Local Abbreviation fire := (Installer.fire env profile_name).

Lemma substring_whole (s : string) :
  String.substring 0 (String.length s) s = s.
Proof. induction s as [|c s IH]; simpl; [done|]. by rewrite IH. Qed.

(** The log line of a step adds its name to the steps executed; the other
    lines of [install] add nothing. *)
Lemma executed_step_line (step_name : string) (m : Machine) :
  executed (logger (Info ("Executing step: " ++ step_name)) m)
  = (executed m ++ [step_name])%list.
Proof.
  unfold executed. simpl. rewrite omap_app. f_equal. simpl.
  change (String.append "" step_name) with step_name.
  replace (String.prefix "" step_name) with true by by destruct step_name.
  by rewrite Nat.sub_0_r, substring_whole.
Qed.

Lemma steps_names (i : nat) (step_name : string) (result : outcome bool) :
  steps env !! i = Some (step_name, result) ->
  step_names !! i = Some step_name /\ (i < 7)%nat.
Proof.
  intros Hstep. split.
  - change step_names with (fst <$> steps env).
    by rewrite list_lookup_fmap, Hstep.
  - apply lookup_lt_Some in Hstep. exact Hstep.
Qed.

Lemma executed_goto (p : pc) (m : Machine) :
  executed (goto p m) = executed m.
Proof. reflexivity. Qed.

Lemma executed_with_state (f : InstallationState -> InstallationState)
    (m : Machine) :
  executed (with_state f m) = executed m.
Proof. reflexivity. Qed.

Lemma executed_tick (m : Machine) : executed (tick m) = executed m.
Proof. reflexivity. Qed.

Lemma executed_error_line (msg : string) (m : Machine) :
  executed (logger (Error msg) m) = executed m.
Proof.
  unfold executed. simpl. rewrite omap_app. simpl. by rewrite app_nil_r.
Qed.

Lemma executed_other_line (msg : string) (m : Machine) :
  String.prefix "Executing step: " msg = false ->
  executed (logger (Info msg) m) = executed m.
Proof.
  intros Hmsg. unfold executed. simpl. rewrite omap_app. simpl.
  by rewrite Hmsg, app_nil_r.
Qed.

Lemma on_track_fire (e : event) (m : Machine) :
  on_track m -> on_track (fire e m).
Proof.
  intros Hm. destruct e; [|exact Hm..].
  change (fire Worker m) with (worker m).
  unfold on_track in Hm. unfold Installer.worker.
  destruct (at_pc m) as [|i|i|i|i|r] eqn:Hpc.
  - unfold on_track. cbn [at_pc goto]. split; [lia|].
    rewrite executed_goto, executed_other_line by done.
    by rewrite executed_tick, !executed_with_state.
  - destruct Hm as [Hi Hex].
    destruct (steps env !! i) as [[step_name result]|] eqn:Hstep.
    + destruct (steps_names _ _ _ Hstep) as [_ Hlt].
      destruct (abort_flag m); unfold on_track; cbn [at_pc goto].
      * split; [|by left]. exists i.
        rewrite executed_goto, executed_with_state.
        by rewrite executed_other_line.
      * by rewrite executed_goto.
    + apply lookup_ge_None in Hstep. simpl in Hstep.
      assert (i = 7)%nat as -> by lia.
      unfold on_track. cbn [at_pc goto]. split; [|done].
      rewrite executed_goto, executed_other_line by done.
      by rewrite executed_tick, !executed_with_state.
  - destruct Hm as [Hi Hex].
    destruct (pause_flag m); [unfold on_track; by cbn [at_pc goto]|].
    destruct (steps env !! i) as [[step_name result]|] eqn:Hstep.
    + destruct (steps_names _ _ _ Hstep) as [Hname _].
      unfold on_track. cbn [at_pc goto]. split; [done|].
      rewrite executed_goto, executed_step_line, executed_with_state, Hex.
      by rewrite (take_S_r _ _ _ Hname).
    + apply lookup_ge_None in Hstep. simpl in Hstep. lia.
  - unfold on_track. by cbn [at_pc goto].
  - destruct Hm as [Hi Hex].
    destruct (steps env !! i) as [[step_name result]|] eqn:Hstep;
      [|apply lookup_ge_None in Hstep; simpl in Hstep; lia].
    assert (Hfail : forall e m',
               executed m' = take (S i) step_names ->
               on_track (step_error step_name e m')).
    { intros e m' Hm'. unfold on_track, step_error. cbn [at_pc goto].
      split; [|by right]. exists (S i).
      by rewrite executed_goto, !executed_with_state, executed_error_line. }
    unfold finish_step. destruct result as [[|]|e].
    + destruct (progress_callback env) as [cb|].
      * destruct (cb _) as [s [[]|e]].
        -- unfold on_track. cbn [at_pc goto]. split; [lia|].
           by rewrite Nat.add_1_r.
        -- by apply Hfail.
      * unfold on_track. cbn [at_pc goto]. split; [lia|].
        by rewrite Nat.add_1_r.
    + unfold on_track. cbn [at_pc goto]. split; [|by right]. by exists (S i).
    + by apply Hfail.
  - unfold on_track. by rewrite Hpc.
Qed.

Lemma on_track_run (schedule : list event) :
  forall m : Machine, on_track m -> on_track (run schedule m).
Proof.
  induction schedule as [|e schedule IH]; intros m Hm; [done|].
  apply (IH (fire e m)). by apply on_track_fire.
Qed.

(** A move of the worker outside the pause loop brings the return
    nearer. *)
Lemma worker_moves_on (m : Machine) :
  in_range (at_pc m) -> pause_flag m = false ->
  in_range (at_pc (worker m)) /\
  ((exists r, at_pc m = Returned r) \/
   (moves_left (at_pc (worker m)) < moves_left (at_pc m))%nat).
Proof.
  intros Hin Hp. unfold Installer.worker.
  destruct (at_pc m) as [|i|i|i|i|r] eqn:Hpc; simpl in *.
  - split; [lia|right; lia].
  - destruct (steps env !! i) as [[step_name result]|] eqn:Hstep.
    + destruct (steps_names _ _ _ Hstep) as [_ Hlt].
      destruct (abort_flag m); simpl; (split; [done|right; lia]).
    + simpl. split; [done|right; lia].
  - rewrite Hp.
    destruct (steps env !! i) as [[step_name result]|] eqn:Hstep.
    + simpl. split; [done|right; lia].
    + apply lookup_ge_None in Hstep. simpl in Hstep. lia.
  - split; [done|right; lia].
  - destruct (steps env !! i) as [[step_name result]|] eqn:Hstep;
      [|apply lookup_ge_None in Hstep; simpl in Hstep; lia].
    unfold finish_step. destruct result as [[|]|e]; simpl;
      try (split; [done|right; lia]).
    destruct (progress_callback env) as [cb|]; simpl.
    + destruct (cb _) as [s [[]|e]]; simpl; (split; [lia|right; lia]).
    + split; [lia|right; lia].
  - rewrite Hpc. split; [done|]. left. by eexists.
Qed.

Lemma run_returns (schedule : list event) :
  forall m : Machine,
    in_range (at_pc m) -> pause_flag m = false ->
    Pause ∉ schedule ->
    (moves_left (at_pc m) <= worker_moves schedule)%nat ->
    exists r, at_pc (run schedule m) = Returned r.
Proof.
  induction schedule as [|e schedule IH]; intros m Hin Hp Hno Hmoves.
  - unfold worker_moves in Hmoves. simpl in Hmoves.
    destruct (at_pc m) as [|i|i|i|i|r] eqn:Hpc; simpl in *; try lia.
    by exists r.
  - apply not_elem_of_cons in Hno as [Hne Hno].
    change (run (e :: schedule) m) with (run schedule (fire e m)).
    destruct e; try done.
    + destruct (worker_moves_on m Hin Hp) as [Hin' Hless].
      destruct Hless as [[r Hr]|Hless].
      * exists r. simpl.
        assert (Hw : worker m = m)
          by (unfold Installer.worker; by rewrite Hr).
        rewrite Hw.
        by apply (returned_frozen env profile_name r schedule m Hr).
      * apply IH; try done.
        -- simpl. by rewrite (proj2 (worker_flags env profile_name m)).
        -- unfold worker_moves in *. simpl in Hmoves.
           change (fire Worker m) with (worker m). lia.
    + apply IH; try done.
    + apply IH; try done.
Qed.

End EngineRuns.

(** X1. Steps run in the order of the list and none is skipped: at every
    point of every run from a fresh engine, whatever the steps and the
    callback do and whatever the other thread calls, the steps executed so
    far are the first ones of the list, in its order; and a run that
    returned [True] has executed all seven. *)
Theorem steps_run_in_order :
  forall env profile_name schedule,
    let m := Installer.run env profile_name schedule Installer.start in
    (exists k, Installer.executed m = take k Pace.step_names) /\
    (Installer.at_pc m = Installer.Returned true ->
     Installer.executed m = Pace.step_names).
Proof.
  intros env profile_name schedule m.
  assert (Hm : Pace.on_track m)
    by (apply on_track_run; reflexivity).
  unfold Pace.on_track in Hm.
  destruct (Installer.at_pc m) as [|i|i|i|i|[|]];
    try (split; [|done]).
  - exists 0%nat. by rewrite Hm.
  - exists i. by destruct Hm.
  - exists i. by destruct Hm.
  - exists i. by destruct Hm.
  - exists (S i). by destruct Hm.
  - destruct Hm as [Hex _]. split; [by exists 7%nat|done].
  - by destruct Hm.
Qed.

(** X2. The result of [install] and the final status go together: in every
    run from a fresh engine, a return of [True] leaves the status
    ["completed"], and a return of [False] leaves it ["aborted"] or
    ["failed"], also when the progress callback rewrites the state. *)
Theorem install_result_matches_status :
  forall env profile_name schedule r,
    let m := Installer.run env profile_name schedule Installer.start in
    Installer.at_pc m = Installer.Returned r ->
    if r then Installer.status (Installer.state m) = "completed"
    else Installer.status (Installer.state m) = "aborted" \/
         Installer.status (Installer.state m) = "failed".
Proof.
  intros env profile_name schedule r m Hr.
  assert (Hm : Pace.on_track m)
    by (apply on_track_run; reflexivity).
  unfold Pace.on_track in Hm. rewrite Hr in Hm.
  destruct r; by destruct Hm.
Qed.

Lemma install_result_matches_status_witness :
  let m := Installer.run Installer.download_fails "default"
             (Installer.workers 7) Installer.start in
  Installer.status (Installer.state m) = "aborted" \/
  Installer.status (Installer.state m) = "failed".
Proof.
  intros m.
  apply (install_result_matches_status
           Installer.download_fails "default" (Installer.workers 7) false).
  vm_compute. reflexivity.
Defined.

(** X3. If [pause()] is never called, [install] returns: from a fresh
    engine, after at most 23 moves of the worker the run has returned,
    whatever the seven steps and the callback do and however calls of
    [abort()] and [resume()] fall between the moves. *)
Theorem install_returns_without_pause :
  forall env profile_name schedule,
    Installer.Pause ∉ schedule ->
    (23 <= Pace.worker_moves schedule)%nat ->
    exists r,
      Installer.at_pc
        (Installer.run env profile_name schedule Installer.start)
      = Installer.Returned r.
Proof.
  intros env profile_name schedule Hno Hmoves.
  apply run_returns; try done.
Qed.

Lemma install_returns_without_pause_witness :
  exists r,
    Installer.at_pc
      (Installer.run Installer.extract_raises "default"
         (Installer.Abort :: Installer.workers 23) Installer.start)
    = Installer.Returned r.
Proof.
  apply install_returns_without_pause.
  - apply (bool_decide_unpack _). vm_compute. exact I.
  - vm_compute. lia.
Defined.

(** X4. The window never reports an aborted run as aborted:
    [installation_complete] overwrites the status with ["completed"] or
    ["failed"] by the result of [install] alone, so a run the engine ended
    with status ["aborted"] is shown, and saved in the report, as
    ["failed"]. *)
Theorem aborted_run_reported_failed :
  forall env profile_name schedule,
    let m := Installer.run env profile_name schedule Installer.start in
    Installer.status (Installer.state m) = "aborted" ->
    forall s,
      Wizard.after_install m = Some s ->
      Installer.status s = "failed".
Proof.
  intros env profile_name schedule m Hab s Hs.
  unfold Wizard.after_install in Hs.
  destruct (Installer.at_pc m) as [| | | | |r] eqn:Hr; try discriminate.
  injection Hs as <-.
  assert (Hm : Pace.on_track m)
    by (apply on_track_run; reflexivity).
  unfold Pace.on_track in Hm. rewrite Hr in Hm.
  destruct r; [|done]. destruct Hm as [_ Hst].
  rewrite Hab in Hst. discriminate.
Qed.

Lemma aborted_run_reported_failed_witness :
  let m := Installer.run Installer.all_succeed "default"
             (Installer.Abort :: Installer.workers 2) Installer.start in
  Installer.status (Installer.state m) = "aborted" /\
  exists s, Wizard.after_install m = Some s /\ Installer.status s = "failed".
Proof.
  intros m. split; [vm_compute; reflexivity|].
  eexists. split; [vm_compute; reflexivity|].
  apply (aborted_run_reported_failed
           Installer.all_succeed "default"
           (Installer.Abort :: Installer.workers 2)).
  - vm_compute. reflexivity.
  - vm_compute. reflexivity.
Defined.

(** ** The download manager: requests, lengths, checksums, paths *)

Section DownloaderMore.

Import PyStr Downloader Served.

(** The copy loop sends nothing. *)
Lemma copy_loop_requests (cb : option callback) (temp : Path) (total : Z)
    (events : list transfer_event) :
  forall (downloaded : Z) (w : World),
    requests (copy_loop cb temp total events downloaded w).1 = requests w.
Proof.
  induction events as [|ev events IH]; intros downloaded w; [done|].
  destruct ev as [[|b chunk]|e|[|b chunk] e]; try done.
  simpl. unfold bind at 1. unfold write, with_files. simpl.
  unfold bind at 1. destruct cb as [f|].
  - unfold bind at 1. unfold report, of_outcome. simpl.
    destruct (f _ _ _) as [[]|e]; [|done]. by rewrite IH.
  - unfold ret. by rewrite IH.
Qed.


(** One call sends at most one request. *)
Lemma download_body_requests (env : Env) (url : string) (dest : Path)
    (cb : option callback) (chunk_size : Z) (w w' : World)
    (r : outcome unit) :
  download_body env url dest cb chunk_size w = (w', r) ->
  requests w' = requests w \/
  requests w'
  = (requests w ++ [request_sent url (partial_length dest w)])%list.
Proof.
  intros Hrun. unfold download_body in Hrun. unfold partial_length.
  unfold bind at 1 in Hrun. unfold of_fault at 1 in Hrun.
  destruct (mkdir_fault env); [injection Hrun as <- <-; by left|].
  unfold bind at 1 in Hrun. unfold of_outcome at 1 in Hrun.
  destruct (with_suffix dest ".download") as [temp|e];
    [|injection Hrun as <- <-; by left].
  unfold bind at 1 in Hrun. unfold bind at 1 in Hrun.
  set (n := match files w !! temp with
            | Some partial => Z.of_nat (length partial)
            | None => 0%Z
            end) in Hrun.
  assert (Hn : Z.of_nat (length (default [] (files w !! temp))) = n)
    by (subst n; by destruct (files w !! temp)).
  rewrite Hn. clear Hn.
  assert (Hlog : exists w1,
             (if decide (is_Some (files w !! temp))
              then logger (Info ("Resuming download from byte " ++ pretty n))
              else ret tt) w = (w1, Return tt) /\
             requests w1 = requests w).
  { case_decide; eexists; (split; [reflexivity|done]). }
  destruct Hlog as (w1 & Hlog & Hr1). rewrite Hlog in Hrun. clear Hlog.
  assert (Hreq :
    add_header "User-Agent" ("CursorInstaller/" ++ VERSION)
      (if (0 <? n)%Z
       then add_header "Range" ("bytes=" ++ pretty n ++ "-")
                       {| full_url := url; headers := [] |}
       else {| full_url := url; headers := [] |}) = request_sent url n).
  { unfold request_sent. by destruct (0 <? n)%Z. }
  rewrite Hreq in Hrun. clear Hreq.
  unfold bind at 1 in Hrun. unfold send at 1 in Hrun.
  destruct (urlopen env (request_sent url n)) as [response|e];
    [|injection Hrun as <- <-; right; simpl; by rewrite Hr1].
  unfold bind at 1 in Hrun. unfold of_outcome at 1 in Hrun.
  destruct (int_content_length (content_length response)) as [cl|e];
    [|injection Hrun as <- <-; right; simpl; by rewrite Hr1].
  unfold bind at 1 in Hrun. unfold open_file at 1 in Hrun.
  unfold bind at 1 in Hrun. unfold of_fault at 1 in Hrun.
  destruct (open_fault env);
    [injection Hrun as <- <-; right; simpl; by rewrite Hr1|].
  unfold with_files at 1 in Hrun.
  set (w3 := {| files := _ |}) in Hrun.
  assert (Hr3 : requests w3 = (requests w ++ [request_sent url n])%list)
    by (subst w3; simpl; by rewrite Hr1).
  clearbody w3.
  unfold bind at 1 in Hrun.
  destruct (copy_loop _ _ _ _ _ w3) as [w4 r4] eqn:Hloop.
  assert (Hr4 : requests w4 = requests w3).
  { pose proof (copy_loop_requests
                  cb temp (if (0 <? n)%Z then (cl + n)%Z else cl)
                  (read response chunk_size) n w3) as H.
    by rewrite Hloop in H. }
  destruct r4 as [[]|e];
    [|injection Hrun as <- <-; right; by rewrite Hr4].
  unfold bind at 1 in Hrun. unfold rename at 1 in Hrun.
  unfold bind at 1 in Hrun. unfold of_fault at 1 in Hrun.
  destruct (rename_fault env);
    [injection Hrun as <- <-; right; by rewrite Hr4|].
  destruct (files w4 !! temp);
    injection Hrun as <- <-; right; simpl; by rewrite Hr4.
Qed.


Lemma lower_char_idempotent (c : ascii) :
  lower_char (lower_char c) = lower_char c.
Proof. destruct c as [[] [] [] [] [] [] [] []]; reflexivity. Qed.

Lemma lower_idempotent (s : string) : lower (lower s) = lower s.
Proof.
  induction s as [|c s IH]; [done|]. simpl.
  by rewrite lower_char_idempotent, IH.
Qed.

(** *** Strings cut and joined *)

Lemma append_cons (c : ascii) (s t : string) :
  String c s ++ t = String c (s ++ t).
Proof. reflexivity. Qed.







End DownloaderMore.

(** X5. [download_file] never retries: one call sends at most one request,
    and when it sends one it is the request for the bytes from the length
    of the partial file on, whether the call then succeeds or fails. *)
Theorem download_file_sends_one_request :
  forall env url dest cb chunk_size w,
    let w' := (Downloader.download_file env url dest cb chunk_size w).1 in
    Downloader.requests w' = Downloader.requests w \/
    Downloader.requests w'
    = (Downloader.requests w
         ++ [Downloader.request_sent url (Served.partial_length dest w)])%list.
Proof.
  intros env url dest cb chunk_size w. unfold Downloader.download_file.
  destruct (Downloader.download_body env url dest cb chunk_size w)
    as [w1 [u|e]] eqn:Hbody;
    simpl; exact (download_body_requests _ _ _ _ _ _ _ _ Hbody).
Qed.



(** X7. [verify_checksum] compares without regard to letter case and
    changes no file: the result for an expected checksum is the result for
    its lower-cased text; and for a file that is not there, or an
    algorithm [hashlib] does not know, the result is [False]. *)
Theorem verify_checksum_ignores_case :
  forall hashlib_new p expected algorithm w,
    (Downloader.verify_checksum
       hashlib_new p (PyStr.lower expected) algorithm w).2
    = (Downloader.verify_checksum hashlib_new p expected algorithm w).2 /\
    Downloader.files
      (Downloader.verify_checksum hashlib_new p expected algorithm w).1
    = Downloader.files w /\
    (Downloader.files w !! p = None \/ hashlib_new algorithm = None ->
     (Downloader.verify_checksum hashlib_new p expected algorithm w).2
     = false).
Proof.
  intros hashlib_new p expected algorithm w.
  split; [|split; [apply verify_checksum_files|]].
  - unfold Downloader.verify_checksum.
    destruct (hashlib_new algorithm); [|done].
    destruct (Downloader.files w !! p); [|done]. simpl.
    by rewrite lower_idempotent.
  - unfold Downloader.verify_checksum.
    intros [Hp|Hh]; [|by rewrite Hh].
    destruct (hashlib_new algorithm); [|done]. by rewrite Hp.
Qed.


(** ** Health checks *)

(** X9. The overall verdict of the health checks: it is ["healthy"] exactly
    when no probe raised and the memory in use is at most 90 percent (the
    route [/api/health] then answers 200, and 503 in every other case);
    it is ["warning"] exactly when no probe raised and the memory in use is
    above 90 percent; and ["unhealthy"] exactly when a probe raised. *)
Theorem health_verdict :
  forall p,
    let h := Health.perform_health_checks p in
    let raised :=
      match Health.database p, Health.filesystem p, Health.memory p with
      | Return _, Return _, Return _ => false
      | _, _, _ => true
      end in
    let high :=
      match Health.memory p with
      | Return percent => negb (Qle_bool percent 90)
      | Raise _ => false
      end in
    Health.overall h
    = (if raised then "unhealthy" else if high then "warning" else "healthy")
    /\ (Health.health_check p).2
       = (if raised || high then 503 else 200)%Z
    /\ map fst (Health.checks h) = ["database"; "filesystem"; "memory"].
Proof.
  intros [db fs mem]. unfold Health.health_check, Health.perform_health_checks.
  simpl.
  destruct db as [[]|e1], fs as [[]|e2], mem as [percent|e3]; simpl;
    try destruct (Qle_bool percent 90); simpl; done.
Qed.

(** X10. [_cmd_check] never shows a failed check as failed: the status of
    a probe that raised is ["unhealthy: ..."], which contains the word
    ["healthy"], so its line carries the check mark; no line of the
    command ever starts with the cross. *)
Theorem cmd_check_never_shows_cross :
  forall p,
    (forall line,
        line ∈ Health._cmd_check_lines p ->
        String.prefix Health.cross_mark line = false) /\
    (forall e,
        Health.database p = Raise e ->
        (Health.check_mark ++ " Database: unhealthy: " ++ e)
          ∈ Health._cmd_check_lines p).
Proof.
  intros [db fs mem].
  assert (Hlines : Health._cmd_check_lines
                     {| Health.database := db; Health.filesystem := fs;
                        Health.memory := mem |}
                   = [ Health.check_line "database"
                         match db with
                         | Return _ => "healthy"
                         | Raise e => "unhealthy: " ++ e
                         end;
                       Health.check_line "filesystem"
                         match fs with
                         | Return _ => "healthy"
                         | Raise e => "unhealthy: " ++ e
                         end;
                       Health.check_line "memory"
                         match mem with
                         | Return percent =>
                             if negb (Qle_bool percent 90)
                             then "warning: high usage" else "healthy"
                         | Raise e => "unhealthy: " ++ e
                         end ]).
  { unfold Health._cmd_check_lines, Health.perform_health_checks. simpl.
    destruct db as [[]|e1], fs as [[]|e2], mem as [percent|e3]; simpl;
      try destruct (Qle_bool percent 90); reflexivity. }
  rewrite Hlines. clear Hlines. split.
  - intros line Hline.
    assert (Hmark : forall component status,
               PyStr.contains "healthy" status = true \/
               PyStr.contains "warning" status = true ->
               String.prefix Health.cross_mark
                 (Health.check_line component status) = false).
    { intros component status Hs. unfold Health.check_line.
      destruct (PyStr.contains "healthy" status); [reflexivity|].
      destruct Hs as [Hs|Hs]; [discriminate|]. by rewrite Hs. }
    repeat (apply elem_of_cons in Hline as [->|Hline]);
      [..|by apply elem_of_nil in Hline]; apply Hmark.
    + destruct db as [[]|e]; left; reflexivity.
    + destruct fs as [[]|e]; left; reflexivity.
    + destruct mem as [percent|e]; [|left; reflexivity].
      destruct (Qle_bool percent 90); [left|right]; reflexivity.
  - intros e He. simpl in He. subst db. apply elem_of_cons. left.
    reflexivity.
Qed.

Lemma cmd_check_never_shows_cross_witness :
  (Health.check_mark ++ " Database: unhealthy: unable to open database file")
    ∈ Health._cmd_check_lines Health.database_down.
Proof.
  apply (proj2 (cmd_check_never_shows_cross Health.database_down)).
  reflexivity.
Defined.

(** ** Users, sessions and roles *)

Section AccountFacts.

Import PyStr Accounts.

Variable cfg : Settings.
Variable check_password_hash : string -> string -> bool.

(** An update that leaves names and activity alone commutes with the
    selection by name. *)
Lemma select_active_update (uname : string) (target : Z)
    (f : UserRow -> UserRow) (us : list UserRow) :
  (forall u, username (f u) = username u /\ is_active (f u) = is_active u) ->
  select_active uname (update_user target f us)
  = update_user target f (select_active uname us).
Proof.
  intros Hf. unfold select_active, update_user.
  induction us as [|u us IH]; [done|]. simpl.
  destruct (id u =? target)%Z eqn:Hid.
  - destruct (Hf u) as [-> ->].
    destruct (String.eqb (username u) uname && is_active u); simpl;
      by rewrite ?Hid, IH.
  - destruct (String.eqb (username u) uname && is_active u); simpl;
      by rewrite ?Hid, IH.
Qed.

Lemma select_active_head_update (uname : string) (f : UserRow -> UserRow)
    (us : list UserRow) (user : UserRow) (rest : list UserRow) :
  (forall u, username (f u) = username u /\ is_active (f u) = is_active u) ->
  select_active uname us = user :: rest ->
  select_active uname (update_user (id user) f us)
  = f user :: update_user (id user) f rest.
Proof.
  intros Hf Hsel. rewrite select_active_update by done. rewrite Hsel.
  unfold update_user. simpl. by rewrite Z.eqb_refl.
Qed.

(** One call with a wrong password on an account that is not locked. *)
Lemma wrong_password_counts (now : Z) (ts uname password : string)
    (db : Database) (user : UserRow) (rest : list UserRow) :
  select_active uname (users db) = user :: rest ->
  is_locked now user = false ->
  check_password_hash (password_hash user) password = false ->
  let failed := (failed_login_attempts user + 1)%Z in
  let user' :=
    if (MAX_LOGIN_ATTEMPTS cfg <=? failed)%Z
    then set_locked_until
           (Some (now + minutes (LOCKOUT_DURATION_MINUTES cfg))%Z)
           (set_failed failed user)
    else set_failed failed user in
  let after :=
    authenticate_user cfg check_password_hash now ts uname password db in
  exists rest',
    after.2 = None /\
    select_active uname (users after.1) = user' :: rest' /\
    sessions after.1 = sessions db.
Proof.
  intros Hsel Hlock Hpw failed user' after. subst after user'.
  unfold authenticate_user. rewrite Hsel, Hlock, Hpw. simpl.
  fold failed.
  destruct (MAX_LOGIN_ATTEMPTS cfg <=? failed)%Z; simpl.
  - eexists. split; [reflexivity|]. split; [|reflexivity].
    exact (select_active_head_update uname
             (fun u => set_locked_until
                         (Some (now + minutes (LOCKOUT_DURATION_MINUTES cfg))%Z)
                         (set_failed failed u))
             (users db) user rest (fun u => conj eq_refl eq_refl) Hsel).
  - eexists. split; [reflexivity|]. split; [|reflexivity].
    exact (select_active_head_update uname (set_failed failed)
             (users db) user rest (fun u => conj eq_refl eq_refl) Hsel).
Qed.

(** Wrong passwords below the limit only count. *)
Lemma wrong_passwords_below_limit (ts uname : string)
    (tries : list (Z * string)) :
  forall (db : Database) (user : UserRow) (rest : list UserRow),
    select_active uname (users db) = user :: rest ->
    locked_until user = None ->
    Forall (fun try => check_password_hash (password_hash user) try.2 = false)
           tries ->
    (failed_login_attempts user + Z.of_nat (length tries)
     < MAX_LOGIN_ATTEMPTS cfg)%Z ->
    exists rest',
      select_active uname
        (users (attempts cfg check_password_hash ts uname tries db))
      = set_failed (failed_login_attempts user + Z.of_nat (length tries))
                   user :: rest'.
Proof.
  induction tries as [|[t pw] tries IH]; intros db user rest Hsel Hno Hall Hlt.
  - exists rest. simpl. rewrite Z.add_0_r.
    by destruct user.
  - apply Forall_cons in Hall as [Hpw Hall]. simpl in Hpw.
    assert (Hlock : is_locked t user = false)
      by (unfold is_locked; by rewrite Hno).
    destruct (wrong_password_counts t ts uname pw db user rest
                Hsel Hlock Hpw) as (rest1 & _ & Hsel1 & _).
    cbv zeta in Hsel1.
    assert (Hbelow : (MAX_LOGIN_ATTEMPTS cfg
                      <=? failed_login_attempts user + 1)%Z = false).
    { apply Z.leb_gt. simpl length in Hlt. lia. }
    rewrite Hbelow in Hsel1.
    change (attempts cfg check_password_hash ts uname ((t, pw) :: tries) db)
      with (attempts cfg check_password_hash ts uname tries
              (authenticate_user cfg check_password_hash t ts uname pw db).1).
    destruct (IH _ _ _ Hsel1) as [rest' Hsel']; try done.
    + simpl. simpl length in Hlt. lia.
    + exists rest'. rewrite Hsel'. f_equal. unfold set_failed. simpl.
      f_equal. simpl length. lia.
Qed.

Lemma set_failed_twice (a b : Z) (u : UserRow) :
  set_failed a (set_failed b u) = set_failed a u.
Proof. reflexivity. Qed.

Lemma attempts_app (ts uname : string) (l1 l2 : list (Z * string))
    (db : Database) :
  attempts cfg check_password_hash ts uname (l1 ++ l2) db
  = attempts cfg check_password_hash ts uname l2
      (attempts cfg check_password_hash ts uname l1 db).
Proof. apply fold_left_app. Qed.

(** A locked account answers every call alike. *)
Lemma locked_refuses (now : Z) (ts uname password : string) (db : Database)
    (user : UserRow) (rest : list UserRow) :
  select_active uname (users db) = user :: rest ->
  is_locked now user = true ->
  authenticate_user cfg check_password_hash now ts uname password db
  = (db, None).
Proof.
  intros Hsel Hlock. unfold authenticate_user. by rewrite Hsel, Hlock.
Qed.

Lemma filter_none {A} (f : A -> bool) (l : list A) :
  (forall x, x ∈ l -> f x = false) -> List.filter f l = [].
Proof.
  induction l as [|x l IH]; intros Hall; [done|]. simpl.
  rewrite (Hall x) by by left. apply IH. intros y Hy. apply Hall. by right.
Qed.

Lemma existsb_none {A} (f : A -> bool) (l : list A) :
  (forall x, x ∈ l -> f x = false) -> existsb f l = false.
Proof.
  induction l as [|x l IH]; intros Hall; [done|]. simpl.
  rewrite (Hall x) by by left. apply IH. intros y Hy. apply Hall. by right.
Qed.

Lemma find_filter {A} (f : A -> bool) (l : list A) (x : A) :
  List.find f l = Some x -> exists rest, List.filter f l = x :: rest.
Proof.
  induction l as [|y l IH]; [done|]. simpl.
  destruct (f y); [intros [= ->]; by eexists|exact IH].
Qed.

(** No session with the identifier is active: the selection is empty. *)
Lemma select_session_none (ts session_id : string) (db : Database) :
  (forall s, s ∈ sessions db -> sid s = session_id ->
             session_is_active s = false) ->
  select_session ts session_id db = [].
Proof.
  unfold select_session. generalize (users db). intros us.
  induction (sessions db) as [|s ss IH]; intros Hall; [done|]. simpl.
  rewrite IH by (intros s' Hs'; apply Hall; by right).
  rewrite app_nil_r.
  destruct (String.eqb_spec (sid s) session_id) as [Hs|Hs]; [|done].
  by rewrite (Hall s (list_elem_of_here _ _) Hs).
Qed.

Lemma select_session_fresh (ts session_id : string) (us : list UserRow)
    (ss : list SessionRow) :
  existsb (fun s => String.eqb (sid s) session_id) ss = false ->
  select_session ts session_id {| users := us; sessions := ss |} = [].
Proof.
  unfold select_session. simpl.
  induction ss as [|s ss IH]; [done|]. simpl.
  intros [Hs Hss]%orb_false_elim. by rewrite Hs, IH.
Qed.

(** A session just created validates while its text of expiry is greater
    than the text of the clock. *)
Lemma validate_created_session (ts new_expires session_id expires : string)
    (uid : Z) (ip agent : option string) (db db1 : Database) (u : UserRow) :
  create_session session_id expires uid ip agent db
  = (db1, Return session_id) ->
  List.find (fun u => (uid =? id u)%Z) (users db) = Some u ->
  String.ltb ts expires = true ->
  validate_session ts new_expires session_id db1
  = (with_sessions (update_session session_id (set_expires_at new_expires))
                   db1,
     Some {| session := {| sid := session_id; user_id := uid;
                           expires_at := expires; ip_address := ip;
                           user_agent := agent; session_is_active := true |};
             user_name := username u; user_role := role u |}).
Proof.
  intros Hcreate Hfind Hlt. unfold create_session in Hcreate.
  destruct (existsb _ (sessions db)) eqn:Hfresh; [discriminate|].
  injection Hcreate as <-.
  unfold validate_session, select_session. simpl.
  rewrite flat_map_app.
  pose proof (select_session_fresh ts session_id (users db) (sessions db)
                Hfresh) as Hold.
  unfold select_session in Hold. simpl in Hold. rewrite Hold. simpl.
  rewrite String.eqb_refl, Hlt. simpl.
  destruct (find_filter _ _ _ Hfind) as [rest ->]. reflexivity.
Qed.

(** The text of a day followed by a space sorts before the same text
    followed by the letter T. *)
Lemma ltb_space_before_T (day a b : string) :
  String.ltb (day ++ " " ++ a) (day ++ "T" ++ b) = true.
Proof.
  unfold String.ltb. induction day as [|c day IH]; [reflexivity|].
  rewrite !append_cons. simpl.
  unfold Ascii.compare. rewrite N.compare_refl. exact IH.
Qed.

End AccountFacts.

(** X11. Lockout. On an account that is not locked, wrong passwords are
    counted, and the one that brings the count to [MAX_LOGIN_ATTEMPTS]
    locks the account for [LOCKOUT_DURATION_MINUTES] from the time of that
    call; until then every call for the account is refused, the right
    password included, and leaves the database as it is. *)
Theorem lockout_after_failed_attempts :
  forall cfg check_password_hash ts uname db user rest tries t pw,
    Accounts.select_active uname (Accounts.users db) = user :: rest ->
    Accounts.locked_until user = None ->
    Forall (fun try =>
              check_password_hash (Accounts.password_hash user) try.2 = false)
           tries ->
    check_password_hash (Accounts.password_hash user) pw = false ->
    (Accounts.failed_login_attempts user + Z.of_nat (length tries) + 1
     = Accounts.MAX_LOGIN_ATTEMPTS cfg)%Z ->
    let db' := Accounts.attempts cfg check_password_hash ts uname
                 (tries ++ [(t, pw)]) db in
    let until :=
      (t + Accounts.minutes (Accounts.LOCKOUT_DURATION_MINUTES cfg))%Z in
    (exists rest',
        Accounts.select_active uname (Accounts.users db')
        = Accounts.set_locked_until (Some until)
            (Accounts.set_failed (Accounts.MAX_LOGIN_ATTEMPTS cfg) user)
          :: rest') /\
    forall t' ts' pw',
      (t' < until)%Z ->
      Accounts.authenticate_user cfg check_password_hash t' ts' uname pw' db'
      = (db', None).
Proof.
  intros cfg chk ts uname db user rest tries t pw Hsel Hno Hall Hpw Hmax
         db' until.
  destruct (wrong_passwords_below_limit cfg chk ts uname tries db user rest
              Hsel Hno Hall ltac:(lia)) as [rest1 Hsel1].
  set (user1 := Accounts.set_failed
                  (Accounts.failed_login_attempts user
                   + Z.of_nat (length tries)) user) in Hsel1.
  assert (Hlock1 : Accounts.is_locked t user1 = false)
    by (unfold Accounts.is_locked; simpl; by rewrite Hno).
  destruct (wrong_password_counts cfg chk t ts uname pw _ user1 rest1
              Hsel1 Hlock1 Hpw) as (rest2 & _ & Hsel2 & _).
  cbv zeta in Hsel2. simpl Accounts.failed_login_attempts in Hsel2.
  replace (Accounts.MAX_LOGIN_ATTEMPTS cfg
           <=? Accounts.failed_login_attempts user
               + Z.of_nat (length tries) + 1)%Z
    with true in Hsel2 by (symmetry; apply Z.leb_le; lia).
  rewrite Hmax in Hsel2.
  assert (Hdb' : db' = (Accounts.authenticate_user cfg chk t ts uname pw
                          (Accounts.attempts cfg chk ts uname tries db)).1)
    by (subst db'; by rewrite attempts_app).
  rewrite <- Hdb' in Hsel2. split.
  - exists rest2. exact Hsel2.
  - intros t' ts' pw' Ht'.
    apply (locked_refuses cfg chk t' ts' uname pw' db' _ _ Hsel2).
    unfold Accounts.is_locked. simpl. apply Z.ltb_lt. exact Ht'.
Qed.

Lemma lockout_after_failed_attempts_witness :
  let user := (Accounts.create_user Accounts.plain_hash
                 "ada" "ada@example.org" "correct horse" "user"
                 Accounts.empty_database).1 in
  let db' := Accounts.attempts Accounts.settings Accounts.plain_check
               "2024-05-01 10:00:00" "ada"
               [(0, "a"); (1, "b"); (2, "c"); (3, "d"); (4, "e")]%Z user in
  Accounts.authenticate_user Accounts.settings Accounts.plain_check
    (4 + Accounts.minutes 15 - 1) "2024-05-01 10:14:59" "ada" "correct horse"
    db'
  = (db', None).
Proof.
  intros user db'.
  refine (proj2 (lockout_after_failed_attempts
                   Accounts.settings Accounts.plain_check
                   "2024-05-01 10:00:00" "ada" user
                   {| Accounts.id := 1; Accounts.username := "ada";
                      Accounts.email := "ada@example.org";
                      Accounts.password_hash := "plain$correct horse";
                      Accounts.role := "user"; Accounts.last_login := None;
                      Accounts.is_active := true;
                      Accounts.failed_login_attempts := 0;
                      Accounts.locked_until := None |}
                   [] [(0, "a"); (1, "b"); (2, "c"); (3, "d")]%Z 4%Z "e"
                   _ _ _ _ _) _ _ _ _).
  - reflexivity.
  - reflexivity.
  - repeat constructor.
  - reflexivity.
  - reflexivity.
  - vm_compute. reflexivity.
Defined.

(** X12. A successful login returns the row as it was read and clears the
    account: the count of failed attempts is back at 0, the lock is
    removed and the time of the login is written; the sessions are not
    touched. *)
Theorem successful_login_resets :
  forall cfg check_password_hash now ts uname pw db user rest,
    Accounts.select_active uname (Accounts.users db) = user :: rest ->
    Accounts.is_locked now user = false ->
    check_password_hash (Accounts.password_hash user) pw = true ->
    let after := Accounts.authenticate_user cfg check_password_hash
                   now ts uname pw db in
    after.2 = Some user /\
    Accounts.sessions after.1 = Accounts.sessions db /\
    exists rest',
      Accounts.select_active uname (Accounts.users after.1)
      = Accounts.set_last_login ts
          (Accounts.set_locked_until None (Accounts.set_failed 0 user))
        :: rest'.
Proof.
  intros cfg chk now ts uname pw db user rest Hsel Hlock Hpw after.
  subst after. unfold Accounts.authenticate_user.
  rewrite Hsel, Hlock, Hpw. simpl. split; [done|]. split; [done|].
  eexists.
  exact (select_active_head_update uname
           (fun u => Accounts.set_last_login ts
                       (Accounts.set_locked_until None
                          (Accounts.set_failed 0 u)))
           (Accounts.users db) user rest (fun u => conj eq_refl eq_refl) Hsel).
Qed.

Lemma successful_login_resets_witness :
  let db := (Accounts.create_user Accounts.plain_hash
               "ada" "ada@example.org" "correct horse" "user"
               Accounts.empty_database).1 in
  let db1 := Accounts.attempts Accounts.settings Accounts.plain_check
               "2024-05-01 10:00:00" "ada" [(0, "a"); (1, "b")]%Z db in
  let after := Accounts.authenticate_user Accounts.settings
                 Accounts.plain_check 2 "2024-05-01 10:00:02" "ada"
                 "correct horse" db1 in
  (exists u, after.2 = Some u /\ Accounts.failed_login_attempts u = 2%Z) /\
  exists u' rest',
    Accounts.select_active "ada" (Accounts.users after.1) = u' :: rest' /\
    Accounts.failed_login_attempts u' = 0%Z.
Proof.
  intros db db1 after.
  destruct (successful_login_resets
              Accounts.settings Accounts.plain_check 2%Z
              "2024-05-01 10:00:02" "ada" "correct horse" db1
              {| Accounts.id := 1; Accounts.username := "ada";
                 Accounts.email := "ada@example.org";
                 Accounts.password_hash := "plain$correct horse";
                 Accounts.role := "user"; Accounts.last_login := None;
                 Accounts.is_active := true;
                 Accounts.failed_login_attempts := 2;
                 Accounts.locked_until := None |} [])
    as (Hres & _ & rest' & Hsel).
  - reflexivity.
  - reflexivity.
  - reflexivity.
  - split.
    + eexists. split; [exact Hres|reflexivity].
    + eexists. exists rest'. split; [exact Hsel|reflexivity].
Defined.

(** X13. The count of failed attempts is not reset when a lock runs out:
    on an account whose lock has expired and whose count is still at the
    limit, a single wrong password locks the account again, for the full
    duration from the time of that call. *)
Theorem expired_lock_relocks_at_once :
  forall cfg check_password_hash now ts uname pw db user rest t0,
    Accounts.select_active uname (Accounts.users db) = user :: rest ->
    Accounts.locked_until user = Some t0 ->
    (t0 <= now)%Z ->
    (Accounts.MAX_LOGIN_ATTEMPTS cfg
     <= Accounts.failed_login_attempts user + 1)%Z ->
    check_password_hash (Accounts.password_hash user) pw = false ->
    let after := Accounts.authenticate_user cfg check_password_hash
                   now ts uname pw db in
    after.2 = None /\
    exists rest',
      Accounts.select_active uname (Accounts.users after.1)
      = Accounts.set_locked_until
          (Some (now + Accounts.minutes
                         (Accounts.LOCKOUT_DURATION_MINUTES cfg))%Z)
          (Accounts.set_failed (Accounts.failed_login_attempts user + 1) user)
        :: rest'.
Proof.
  intros cfg chk now ts uname pw db user rest t0 Hsel Ht0 Hexp Hmax Hpw after.
  assert (Hlock : Accounts.is_locked now user = false).
  { unfold Accounts.is_locked. rewrite Ht0. apply Z.ltb_ge. exact Hexp. }
  destruct (wrong_password_counts cfg chk now ts uname pw db user rest
              Hsel Hlock Hpw) as (rest' & Hres & Hsel' & _).
  cbv zeta in Hsel'.
  replace (Accounts.MAX_LOGIN_ATTEMPTS cfg
           <=? Accounts.failed_login_attempts user + 1)%Z
    with true in Hsel' by (symmetry; apply Z.leb_le; lia).
  split; [exact Hres|]. exists rest'. exact Hsel'.
Qed.

Lemma expired_lock_relocks_at_once_witness :
  let user := {| Accounts.id := 1; Accounts.username := "ada";
                 Accounts.email := "ada@example.org";
                 Accounts.password_hash := "plain$correct horse";
                 Accounts.role := "user"; Accounts.last_login := None;
                 Accounts.is_active := true;
                 Accounts.failed_login_attempts := 5;
                 Accounts.locked_until := Some 900000000%Z |} in
  let db := {| Accounts.users := [user]; Accounts.sessions := [] |} in
  let after := Accounts.authenticate_user Accounts.settings
                 Accounts.plain_check 900000001 "2024-05-01 10:15:00" "ada"
                 "wrong" db in
  after.2 = None /\
  exists rest',
    Accounts.select_active "ada" (Accounts.users after.1)
    = Accounts.set_locked_until (Some (900000001 + Accounts.minutes 15)%Z)
        (Accounts.set_failed 6 user)
      :: rest'.
Proof.
  intros user db after.
  apply (expired_lock_relocks_at_once
           Accounts.settings Accounts.plain_check 900000001%Z
           "2024-05-01 10:15:00" "ada" "wrong" db user [] 900000000%Z).
  - reflexivity.
  - reflexivity.
  - lia.
  - simpl. lia.
  - reflexivity.
Defined.

(** X14. The default administrator. On a database that holds no
    administrator and no user with the name [admin] or the address
    [admin@cursor.local], [create_default_admin] adds an account that
    [authenticate_user] opens for the name [admin] and the password
    [admin123], with the role [admin]; run again, it changes nothing. *)
Theorem default_admin_can_log_in :
  forall cfg generate_password_hash check_password_hash now ts db,
    (forall p, check_password_hash (generate_password_hash p) p = true) ->
    (forall u, u ∈ Accounts.users db ->
               Accounts.role u <> "admin" /\
               Accounts.username u <> "admin" /\
               Accounts.email u <> "admin@cursor.local") ->
    let db' := Accounts.create_default_admin generate_password_hash db in
    (exists u,
        (Accounts.authenticate_user cfg check_password_hash now ts
           "admin" "admin123" db').2 = Some u /\
        Accounts.username u = "admin" /\ Accounts.role u = "admin") /\
    Accounts.create_default_admin generate_password_hash db' = db'.
Proof.
  intros cfg gen chk now ts db Hchk Hnone db'.
  assert (Hadmins : List.filter
                      (fun u => String.eqb (Accounts.role u) "admin")
                      (Accounts.users db) = []).
  { apply filter_none. intros u Hu. apply String.eqb_neq.
    by destruct (Hnone u Hu). }
  assert (Htaken : existsb
                     (fun u => String.eqb (Accounts.username u) "admin"
                               || String.eqb (Accounts.email u)
                                             "admin@cursor.local")
                     (Accounts.users db) = false).
  { apply existsb_none. intros u Hu. destruct (Hnone u Hu) as (_ & Hn & He).
    apply orb_false_intro; by apply String.eqb_neq. }
  assert (Hdb' : Accounts.users db'
                 = (Accounts.users db
                      ++ [{| Accounts.id := Accounts.next_id (Accounts.users db);
                             Accounts.username := "admin";
                             Accounts.email := "admin@cursor.local";
                             Accounts.password_hash := gen "admin123";
                             Accounts.role := "admin";
                             Accounts.last_login := None;
                             Accounts.is_active := true;
                             Accounts.failed_login_attempts := 0;
                             Accounts.locked_until := None |}])%list).
  { subst db'. unfold Accounts.create_default_admin, Accounts.create_user.
    by rewrite Hadmins, Htaken. }
  split.
  - unfold Accounts.authenticate_user, Accounts.select_active.
    rewrite Hdb', List.filter_app.
    rewrite (filter_none _ (Accounts.users db)).
    + simpl. unfold Accounts.is_locked. simpl. rewrite Hchk. simpl.
      eexists. split; [reflexivity|]. split; reflexivity.
    + intros u Hu. destruct (Hnone u Hu) as (_ & Hn & _).
      apply andb_false_intro1. by apply String.eqb_neq.
  - unfold Accounts.create_default_admin at 1.
    rewrite Hdb', List.filter_app, Hadmins. reflexivity.
Qed.

Lemma default_admin_can_log_in_witness :
  exists u,
    (Accounts.authenticate_user Accounts.settings Accounts.plain_check
       0 "2024-05-01 10:00:00" "admin" "admin123"
       (Accounts.create_default_admin Accounts.plain_hash
          Accounts.empty_database)).2 = Some u /\
    Accounts.username u = "admin" /\ Accounts.role u = "admin".
Proof.
  apply (default_admin_can_log_in
           Accounts.settings Accounts.plain_hash Accounts.plain_check
           0%Z "2024-05-01 10:00:00" Accounts.empty_database).
  - intros p. unfold Accounts.plain_check. apply String.eqb_refl.
  - intros u Hu. by apply elem_of_nil in Hu.
Defined.

(** X15. Who gets past [require_role]: for the requirement [admin] only
    the role [admin]; for [moderator] the roles [admin] and [moderator];
    for [user] the three roles; and for any other requirement nobody, an
    administrator included. A role outside the three passes nothing. *)
Theorem require_role_lets_through :
  forall required_role cu,
    Accounts.require_role required_role (Some cu) = Accounts.Proceed tt <->
    (required_role = "admin" /\ Accounts.user_role cu = "admin") \/
    (required_role = "moderator" /\
     (Accounts.user_role cu = "admin" \/
      Accounts.user_role cu = "moderator")) \/
    (required_role = "user" /\
     (Accounts.user_role cu = "admin" \/
      Accounts.user_role cu = "moderator" \/
      Accounts.user_role cu = "user")).
Proof.
  intros required [s name r]. unfold Accounts.require_role, Accounts.role_rank.
  simpl.
  destruct (String.eqb_spec r "admin") as [->|Hr1];
    [|destruct (String.eqb_spec r "moderator") as [->|Hr2];
      [|destruct (String.eqb_spec r "user") as [->|Hr3]]];
    (destruct (String.eqb_spec required "admin") as [->|Hq1];
     [|destruct (String.eqb_spec required "moderator") as [->|Hq2];
       [|destruct (String.eqb_spec required "user") as [->|Hq3]]]);
    simpl; split; try done; try (intros _; tauto);
    intros [[? ?]|[[? ?]|[? ?]]]; try done;
    repeat match goal with H : _ \/ _ |- _ => destruct H end; done.
Qed.

(** X16. The life of a session. A session just created validates while
    the text of its expiry is greater than the text of the clock, and
    [validate_session] then returns the row as it was read, with the name
    and the role of its user; after the update of the logout route no call
    of [validate_session] accepts the identifier again, whatever the
    clock. *)
Theorem session_ends_at_logout :
  forall ts new_expires session_id expires uid ip agent db db1 u,
    Accounts.create_session session_id expires uid ip agent db
    = (db1, Return session_id) ->
    session_id <> "" ->
    List.find (fun u => (uid =? Accounts.id u)%Z) (Accounts.users db)
    = Some u ->
    String.ltb ts expires = true ->
    let after := Accounts.validate_session ts new_expires session_id db1 in
    exists cu,
      after.2 = Some cu /\
      Accounts.sid (Accounts.session cu) = session_id /\
      Accounts.expires_at (Accounts.session cu) = expires /\
      Accounts.user_name cu = Accounts.username u /\
      Accounts.user_role cu = Accounts.role u /\
      forall ts' new_expires',
        Accounts.validate_session ts' new_expires' session_id
          (Accounts.logout cu after.1)
        = (Accounts.logout cu after.1, None).
Proof.
  intros ts ne session_id expires uid ip agent db db1 u Hcreate Hid Hfind Hlt
         after.
  subst after.
  rewrite (validate_created_session ts ne session_id expires uid ip agent
             db db1 u Hcreate Hfind Hlt).
  eexists. split; [reflexivity|]. simpl. repeat (split; [reflexivity|]).
  intros ts' ne'. unfold Accounts.logout. simpl.
  apply String.eqb_neq in Hid. rewrite Hid. simpl.
  unfold Accounts.validate_session.
  rewrite select_session_none; [done|].
  intros s Hs Hsid. simpl in Hs. unfold Accounts.update_session in Hs.
  apply list_elem_of_fmap in Hs as (s1 & -> & Hs1).
  apply list_elem_of_fmap in Hs1 as (s0 & -> & Hs0).
  destruct (String.eqb (Accounts.sid s0) session_id) eqn:H0; simpl in *.
  - by rewrite H0.
  - rewrite H0 in Hsid |- *. apply String.eqb_neq in H0. done.
Qed.

Lemma session_ends_at_logout_witness :
  let db := (Accounts.create_user Accounts.plain_hash
               "ada" "ada@example.org" "correct horse" "moderator"
               Accounts.empty_database).1 in
  let db1 := (Accounts.create_session
                "7f3c" "2024-05-01T10:30:00.000123" 1 None None db).1 in
  let after := Accounts.validate_session
                 "2024-05-01 08:05:00" "2024-05-01T10:35:00.000456"
                 "7f3c" db1 in
  exists cu,
    after.2 = Some cu /\
    Accounts.user_role cu = "moderator" /\
    Accounts.validate_session
      "2024-05-01 08:06:00" "2024-05-01T10:36:00.000789" "7f3c"
      (Accounts.logout cu after.1)
    = (Accounts.logout cu after.1, None).
Proof.
  intros db db1 after.
  destruct (session_ends_at_logout
              "2024-05-01 08:05:00" "2024-05-01T10:35:00.000456" "7f3c"
              "2024-05-01T10:30:00.000123" 1%Z None None db db1
              {| Accounts.id := 1; Accounts.username := "ada";
                 Accounts.email := "ada@example.org";
                 Accounts.password_hash := "plain$correct horse";
                 Accounts.role := "moderator"; Accounts.last_login := None;
                 Accounts.is_active := true;
                 Accounts.failed_login_attempts := 0;
                 Accounts.locked_until := None |})
    as (cu & Hcu & _ & _ & _ & Hrole & Hout).
  - reflexivity.
  - discriminate.
  - reflexivity.
  - reflexivity.
  - exists cu. split; [exact Hcu|]. split; [exact Hrole|]. apply Hout.
Defined.

(** X17. The expiry of a session is tested on texts: [expires_at] is
    written as [isoformat()] writes it, day, the letter T, time, and
    SQLite's [CURRENT_TIMESTAMP] is day, space, time. For the same day
    the text with the space is the smaller, so a session validates at
    every time of the day on which it expires, before its time of expiry
    and after it. *)
Theorem session_valid_all_day :
  forall day expiry_time clock_time new_expires session_id uid ip agent
         db db1 u,
    Accounts.create_session
      session_id (day ++ "T" ++ expiry_time) uid ip agent db
    = (db1, Return session_id) ->
    List.find (fun u => (uid =? Accounts.id u)%Z) (Accounts.users db)
    = Some u ->
    exists cu,
      (Accounts.validate_session
         (day ++ " " ++ clock_time) new_expires session_id db1).2 = Some cu /\
      Accounts.user_name cu = Accounts.username u.
Proof.
  intros day expiry_time clock_time ne session_id uid ip agent db db1 u
         Hcreate Hfind.
  rewrite (validate_created_session _ ne session_id _ uid ip agent
             db db1 u Hcreate Hfind (ltb_space_before_T day _ _)).
  eexists. split; reflexivity.
Qed.

Lemma session_valid_all_day_witness :
  let db := (Accounts.create_user Accounts.plain_hash
               "ada" "ada@example.org" "correct horse" "user"
               Accounts.empty_database).1 in
  let db1 := (Accounts.create_session
                "7f3c" "2024-05-01T10:30:00.000123" 1 None None db).1 in
  exists cu,
    (Accounts.validate_session
       "2024-05-01 23:59:59" "2024-05-02T00:29:59.000456" "7f3c" db1).2
    = Some cu /\
    Accounts.user_name cu = "ada".
Proof.
  intros db db1.
  apply (session_valid_all_day
           "2024-05-01" "10:30:00.000123" "23:59:59"
           "2024-05-02T00:29:59.000456" "7f3c" 1%Z None None db db1
           {| Accounts.id := 1; Accounts.username := "ada";
              Accounts.email := "ada@example.org";
              Accounts.password_hash := "plain$correct horse";
              Accounts.role := "user"; Accounts.last_login := None;
              Accounts.is_active := true;
              Accounts.failed_login_attempts := 0;
              Accounts.locked_until := None |}).
  - reflexivity.
  - reflexivity.
Defined.


(** ** The installation engine: a second call of [install] *)

Section EngineAgain.

Import Installer Pace.

Variable env : Env.
Variable profile_name : string.

Local Abbreviation run := (Installer.run env profile_name).
Local Abbreviation worker := (Installer.worker env profile_name).

Lemma entry_move (m : Machine) :
  at_pc m = Entry ->
  at_pc (worker m) = LoopHead 0 /\
  abort_flag (worker m) = abort_flag m /\
  executed (worker m) = executed m /\
  steps_completed (state (worker m)) = steps_completed (state m).
Proof.
  intros Hpc. unfold Installer.worker. rewrite Hpc. repeat split.
  unfold executed. simpl. rewrite omap_app. simpl.
  by rewrite app_nil_r.
Qed.

Lemma aborted_move (m : Machine) :
  at_pc m = LoopHead 0 -> abort_flag m = true ->
  at_pc (worker m) = Returned false /\
  status (state (worker m)) = "aborted" /\
  executed (worker m) = executed m /\
  steps_completed (state (worker m)) = steps_completed (state m).
Proof.
  intros Hpc Hab. unfold Installer.worker. rewrite Hpc. simpl.
  rewrite Hab. repeat split.
  unfold executed. simpl. rewrite omap_app. simpl. by rewrite app_nil_r.
Qed.

Lemma worker_moves_cons (e : event) (schedule : list event) :
  worker_moves (e :: schedule)
  = if decide (e = Worker) then S (worker_moves schedule)
    else worker_moves schedule.
Proof.
  unfold worker_moves. case_decide.
  - by rewrite filter_cons_True.
  - by rewrite filter_cons_False.
Qed.

Lemma again_run (schedule : list event) :
  forall m : Machine,
    abort_flag m = true ->
    (at_pc m = Entry /\ (2 <= worker_moves schedule)%nat) \/
    (at_pc m = LoopHead 0 /\ (1 <= worker_moves schedule)%nat) \/
    (at_pc m = Returned false /\ status (state m) = "aborted") ->
    at_pc (run schedule m) = Returned false /\
    status (state (run schedule m)) = "aborted" /\
    executed (run schedule m) = executed m /\
    steps_completed (state (run schedule m)) = steps_completed (state m).
Proof.
  induction schedule as [|e schedule IH]; intros m Hab Hcase.
  - destruct Hcase as [[_ H]|[[_ H]|[Hpc Hst]]];
      [unfold worker_moves in H; simpl in H; lia
      |unfold worker_moves in H; simpl in H; lia|done].
  - destruct Hcase as [[Hpc Hmoves]|[[Hpc Hmoves]|[Hpc Hst]]].
    + rewrite run_cons. rewrite worker_moves_cons in Hmoves.
      destruct e; simpl in Hmoves.
      * change (Installer.fire env profile_name Worker m) with (worker m).
        destruct (entry_move m Hpc) as (Hpc1 & Hab1 & Hex1 & Hdone1).
        rewrite <- Hex1, <- Hdone1. apply IH; [congruence|].
        right. left. split; [done|lia].
      * apply (IH (abort m)); [done|]. by left.
      * apply (IH (pause m)); [done|]. by left.
      * apply (IH (resume m)); [done|]. by left.
    + rewrite run_cons. rewrite worker_moves_cons in Hmoves.
      destruct e; simpl in Hmoves.
      * change (Installer.fire env profile_name Worker m) with (worker m).
        destruct (aborted_move m Hpc Hab) as (Hpc1 & Hst1 & Hex1 & Hdone1).
        rewrite <- Hex1, <- Hdone1. apply IH; [|by right; right].
        by rewrite (proj1 (worker_flags env profile_name m)).
      * apply (IH (abort m)); [done|]. right. by left.
      * apply (IH (pause m)); [done|]. right. by left.
      * apply (IH (resume m)); [done|]. right. by left.
    + destruct (returned_frozen env profile_name false (e :: schedule) m Hpc)
        as (Hpc' & Hst' & Hlog').
      split; [done|]. rewrite Hst'. split; [done|]. split; [|done].
      unfold executed. by rewrite Hlog'.
Qed.

End EngineAgain.

(** X19. Nothing in the engine clears the abort flag, so it outlives the
    run it stopped: when [install] is called again on an engine whose
    abort flag is set, the call sets the status to installing, meets the
    flag at the head of the first iteration and returns [False] with the
    status aborted, whatever the other thread calls in between; no step
    function is called and no step is added to the steps completed. *)
Theorem abort_flag_outlives_run :
  forall env profile_name (m : Installer.Machine)
         (schedule : list Installer.event),
    Installer.abort_flag m = true ->
    (2 <= Pace.worker_moves schedule)%nat ->
    let m' :=
      Installer.run env profile_name schedule (Pace.install_again m) in
    Installer.at_pc m' = Installer.Returned false /\
    Installer.status (Installer.state m') = "aborted" /\
    Installer.executed m' = Installer.executed m /\
    Installer.steps_completed (Installer.state m')
    = Installer.steps_completed (Installer.state m).
Proof.
  intros env profile_name m schedule Hab Hmoves m'. subst m'.
  apply (again_run env profile_name schedule (Pace.install_again m));
    [exact Hab|].
  left. split; [reflexivity|exact Hmoves].
Qed.

Lemma abort_flag_outlives_run_witness :
  let m := Installer.run Installer.all_succeed "standard"
             (Installer.Worker :: Installer.Abort
                :: Installer.workers 4)
             Installer.start in
  Installer.abort_flag m = true /\
  Installer.at_pc
    (Installer.run Installer.all_succeed "standard"
       (Installer.Pause :: Installer.workers 2)
       (Pace.install_again m))
  = Installer.Returned false.
Proof.
  split; [reflexivity|].
  apply (abort_flag_outlives_run Installer.all_succeed "standard"
           (Installer.run Installer.all_succeed "standard"
              (Installer.Worker :: Installer.Abort
                 :: Installer.workers 4)
              Installer.start)
           (Installer.Pause :: Installer.workers 2)).
  - reflexivity.
  - vm_compute. lia.
Defined.

(** ** The pages of the installer window *)

Section PageFacts.

Import Pages.

Lemma show_page_installation (w : Window) :
  is_in "installation" (pages w) = true ->
  let w' := show_page "installation" w in
  current_page w' = Some "installation" /\
  pages w' = pages w /\
  next_btn w' = DISABLED /\ back_btn w' = DISABLED /\
  pause_btn w' = NORMAL /\ cancel_btn w' = DISABLED /\
  status w' = status w /\ selected_profile w' = selected_profile w /\
  actions w' =
    if is_in (selected_profile w) profile_names
    then (actions w ++ [InstallThread (selected_profile w)])%list
    else actions w.
Proof.
  intros Hin. unfold show_page.
  destruct (current_page w) as [current|]; simpl.
  - destruct (negb (String.eqb current "") && is_in current (pages w));
      simpl; rewrite Hin; simpl; unfold start_installation; simpl;
      by destruct (String.eqb (selected_profile w) "minimal" || _).
  - rewrite Hin. simpl. unfold start_installation. simpl.
    by destruct (String.eqb (selected_profile w) "minimal" || _).
Qed.

Lemma show_page_complete (w : Window) :
  is_in "complete" (pages w) = true ->
  let w' := show_page "complete" w in
  current_page w' = Some "complete" /\
  pages w' = pages w /\
  next_btn w' = next_btn w /\ back_btn w' = NORMAL /\
  cancel_btn w' = DISABLED /\ next_calls w' = FinishInstallation /\
  pause_btn w' = pause_btn w /\
  status w' = status w /\ selected_profile w' = selected_profile w /\
  actions w' =
    (actions w ++ [CompletionShown (String.eqb (status w) "completed")])%list.
Proof.
  intros Hin. unfold show_page.
  destruct (current_page w) as [current|]; simpl.
  - by destruct (negb (String.eqb current "") && is_in current (pages w));
      simpl; rewrite Hin.
  - by rewrite Hin.
Qed.

End PageFacts.

(** X20. The state of the button [next_btn] is set by
    [start_installation] to disabled and by nothing on the way to the
    page of completion: [update_navigation] gives the button its text
    and the command [finish_installation] there, not a state. So once
    the page of installation was shown and [installation_complete] has
    run, with either result and with no result of a system check
    displayed in between, the window is on the page [complete] with the
    Finish button and the Cancel button disabled and the Back button
    enabled. *)
Theorem finish_button_stays_disabled :
  forall (w : Pages.Window) (success : bool),
    Pages.is_in "installation" (Pages.pages w) = true ->
    Pages.is_in "complete" (Pages.pages w) = true ->
    let w' :=
      Pages.installation_complete success
        (Pages.show_page "installation" w) in
    Pages.current_page w' = Some "complete" /\
    Pages.next_calls w' = Pages.FinishInstallation /\
    Pages.next_btn w' = Pages.DISABLED /\
    Pages.cancel_btn w' = Pages.DISABLED /\
    Pages.back_btn w' = Pages.NORMAL.
Proof.
  intros w success Hinst Hcomp w'. subst w'.
  destruct (show_page_installation w Hinst)
    as (Hpage & Hpages & Hnext & Hback & Hpause & Hcancel & _).
  unfold Pages.installation_complete.
  match goal with
  | |- context [Pages.show_page "complete" ?w0] =>
      destruct (show_page_complete w0) as
        (Hpage' & _ & Hnext' & Hback' & Hcancel' & Hcalls' & _)
  end.
  { simpl. by rewrite Hpages. }
  rewrite Hpage', Hcalls', Hnext', Hcancel', Hback'. simpl.
  by rewrite Hnext.
Qed.

Lemma finish_button_stays_disabled_witness :
  Pages.next_btn
    (Pages.installation_complete true
       (Pages.show_page "installation" Pages.opened))
  = Pages.DISABLED.
Proof.
  apply (finish_button_stays_disabled Pages.opened true); reflexivity.
Defined.

(** X21. On the page [complete] the Back button leads to the page
    [installation], and showing that page starts the installation: with
    a profile of the list selected, [go_back] starts one more
    installation thread for it and disables the buttons Back, Next and
    Cancel again. *)
Theorem back_from_complete_installs_again :
  forall (w : Pages.Window),
    Pages.current_page w = Some "complete" ->
    Pages.is_in "installation" (Pages.pages w) = true ->
    Pages.is_in (Pages.selected_profile w) Pages.profile_names = true ->
    let w' := Pages.go_back w in
    Pages.current_page w' = Some "installation" /\
    Pages.actions w'
    = (Pages.actions w
         ++ [Pages.InstallThread (Pages.selected_profile w)])%list /\
    Pages.back_btn w' = Pages.DISABLED /\
    Pages.next_btn w' = Pages.DISABLED /\
    Pages.cancel_btn w' = Pages.DISABLED.
Proof.
  intros w Hpage Hinst Hprofile w'. subst w'.
  unfold Pages.go_back. rewrite Hpage. simpl.
  destruct (show_page_installation w Hinst)
    as (Hpage' & _ & Hnext & Hback & _ & Hcancel & _ & _ & Hactions).
  rewrite Hprofile in Hactions. by rewrite Hpage', Hactions, Hnext, Hback,
    Hcancel.
Qed.

Lemma back_from_complete_installs_again_witness :
  let w := Pages.installation_complete true
             (Pages.show_page "installation" Pages.opened) in
  Pages.actions (Pages.go_back w)
  = [Pages.InstallThread "standard"; Pages.CompletionShown true;
     Pages.InstallThread "standard"].
Proof.
  intros w.
  refine (proj1 (proj2 (back_from_complete_installs_again w _ _ _)));
    reflexivity.
Defined.

(** X22. [go_next] has a branch of its own for the profile [custom] on
    the page [profile], and it leads where the general branch leads: from
    that page the next page shown is [components] whatever profile is
    selected, so the page of components is never skipped. *)
Theorem go_next_from_profile :
  forall (w : Pages.Window),
    Pages.current_page w = Some "profile" ->
    Pages.go_next w = Pages.show_page "components" w.
Proof.
  intros w Hpage. unfold Pages.go_next. rewrite Hpage. simpl.
  by destruct (String.eqb (Pages.selected_profile w) "custom").
Qed.

Lemma go_next_from_profile_witness :
  let w := Pages.go_next (Pages.go_next Pages.opened) in
  Pages.current_page w = Some "profile" /\
  Pages.current_page (Pages.go_next w) = Some "components".
Proof.
  intros w. split; [reflexivity|].
  rewrite (go_next_from_profile w); reflexivity.
Defined.

(** ** Translations *)

Section TranslationFacts.

Import I18n.

Lemma init_english (english : gmap string string)
    (files : list (string * gmap string string)) :
  is_Some (translations (init english files) !! "en").
Proof.
  unfold init. simpl.
  assert (H : forall (m : gmap string (gmap string string)),
             is_Some (m !! "en") ->
             is_Some (fold_left (fun m file => <[file.1 := file.2]> m)
                                files m !! "en")).
  { induction files as [|[code table] files IH]; intros m Hm; [done|].
    simpl. apply IH. destruct (decide (code = "en")) as [->|Hne].
    - rewrite lookup_insert_eq. by eexists.
    - by rewrite lookup_insert_ne. }
  apply H. rewrite lookup_singleton_eq. by eexists.
Qed.



End TranslationFacts.


(** X24. A key that the table of the selected language lacks is answered
    with the key itself, not with the English text: the English table is
    the fallback for a language without a table, never for a key. *)
Theorem missing_key_is_not_english :
  forall (english : gmap string string)
         (files : list (string * gmap string string))
         (format : string -> list (string * string) -> outcome string)
         (language key : string) (table : gmap string string),
    I18n.translations (I18n.init english files) !! language = Some table ->
    table !! key = None ->
    I18n.get format (I18n.set_language language (I18n.init english files))
             key []
    = Return key.
Proof.
  intros english files format language key table Htable Hkey.
  unfold I18n.set_language.
  destruct (decide _) as [_|Hno]; [|by rewrite Htable in Hno; destruct Hno;
                                     eexists].
  unfold I18n.get.
  change (I18n.translations {| I18n.translations := ?t;
                               I18n.current_language := ?l |}) with t.
  change (I18n.current_language {| I18n.translations := ?t;
                                   I18n.current_language := ?l |}) with l.
  destruct (init_english english files) as [en Hen].
  rewrite Hen, Htable. simpl. by rewrite Hkey.
Qed.

Lemma missing_key_is_not_english_witness :
  I18n.get (fun text _ => Return text)
    (I18n.set_language "de"
       (I18n.init {[ "next" := "Next"; "back" := "Back" ]}
                  [("de", {[ "next" := "Weiter" ]})]))
    "back" []
  = Return "back".
Proof.
  apply (missing_key_is_not_english
           {[ "next" := "Next"; "back" := "Back" ]}
           [("de", {[ "next" := "Weiter" ]})]
           (fun text _ => Return text) "de" "back"
           {[ "next" := "Weiter" ]}); reflexivity.
Defined.

(** ** The check of the commands *)

Section CommandFacts.

Import PyStr SystemCheck.

Variable which : string -> option string.

Lemma look_up_missing (cmds : list string)
    (acc : gmap string string * list string) :
  (fold_left (look_up which) cmds acc).2
  = (acc.2 ++ filter (fun cmd => usable which cmd = false) cmds)%list.
Proof.
  revert acc. induction cmds as [|cmd cmds IH]; intros acc; simpl.
  - by rewrite app_nil_r.
  - rewrite IH.
    assert (Hacc : (look_up which acc cmd).2
                   = if usable which cmd then acc.2
                     else (acc.2 ++ [cmd])%list).
    { unfold look_up, usable. destruct (which cmd) as [path|]; [|done].
      by destruct (String.eqb path ""). }
    rewrite Hacc. destruct (usable which cmd) eqn:Hus.
    + rewrite filter_cons_False; [done|]. by rewrite Hus.
    + rewrite filter_cons_True by done. by rewrite <- app_assoc.
Qed.

Lemma look_up_found (cmds : list string)
    (acc : gmap string string * list string) (cmd : string) :
  is_Some ((fold_left (look_up which) cmds acc).1 !! cmd) <->
  is_Some (acc.1 !! cmd) \/ (cmd ∈ cmds /\ usable which cmd = true).
Proof.
  revert acc. induction cmds as [|c cmds IH]; intros acc; simpl.
  - split; [by left|]. intros [H|[H _]]; [done|]. by apply elem_of_nil in H.
  - rewrite IH. rewrite elem_of_cons. unfold look_up, usable.
    destruct (which c) as [path|] eqn:Hwhich; simpl.
    + destruct (String.eqb path "") eqn:Hpath; simpl.
      * split; [intros [H|[H1 H2]]; [by left|right; split; [by right|done]]|].
        intros [H|[[->|H1] H2]]; [by left| |by right].
        rewrite Hwhich, Hpath in H2. discriminate.
      * split.
        -- intros [H|[H1 H2]]; [|right; split; [by right|done]].
           destruct (decide (c = cmd)) as [<-|Hne].
           ++ right. split; [by left|]. by rewrite Hwhich, Hpath.
           ++ left. by rewrite lookup_insert_ne in H.
        -- intros [H|[[->|H1] H2]].
           ++ left. destruct (decide (c = cmd)) as [<-|Hne].
              ** rewrite lookup_insert_eq. by eexists.
              ** by rewrite lookup_insert_ne.
           ++ left. rewrite lookup_insert_eq. by eexists.
           ++ by right.
    + split; [intros [H|[H1 H2]]; [by left|right; split; [by right|done]]|].
      intros [H|[[->|H1] H2]]; [by left| |by right].
      rewrite Hwhich in H2. discriminate.
Qed.

End CommandFacts.

(** X25. [check_commands] passes exactly when [shutil.which] finds every
    required command; the optional commands have no part in the verdict.
    The two lists of the details are the commands not found, in the order
    of the requirements, the dictionary [found] holds exactly the
    commands found, and the text [format_check_details] shows for the
    check is "All required commands found" exactly when the check
    passed. *)
Theorem check_commands_verdict :
  forall (which : string -> option string)
         (req : SystemCheck.SystemRequirements),
    let result := SystemCheck.check_commands which req in
    SystemCheck.missing_required result.2
    = filter (fun cmd => SystemCheck.usable which cmd = false)
             (SystemCheck.required_commands req) /\
    SystemCheck.missing_optional result.2
    = filter (fun cmd => SystemCheck.usable which cmd = false)
             (SystemCheck.optional_commands req) /\
    (forall cmd,
       is_Some (SystemCheck.found result.2 !! cmd) <->
       (cmd ∈ SystemCheck.required_commands req
        \/ cmd ∈ SystemCheck.optional_commands req)
       /\ SystemCheck.usable which cmd = true) /\
    (result.1 = true <->
     forall cmd, cmd ∈ SystemCheck.required_commands req ->
                 SystemCheck.usable which cmd = true) /\
    (SystemCheck.format_command_details result.2
     = "All required commands found" <-> result.1 = true).
Proof.
  intros which req result. subst result. unfold SystemCheck.check_commands.
  pose proof (look_up_missing which (SystemCheck.required_commands req)
                (∅, [])) as Hreq.
  pose proof (fun cmd => look_up_found which
                (SystemCheck.required_commands req) (∅, []) cmd) as Hfreq.
  destruct (fold_left (SystemCheck.look_up which)
              (SystemCheck.required_commands req) (∅, []))
    as [found1 missing1].
  pose proof (look_up_missing which (SystemCheck.optional_commands req)
                (found1, [])) as Hopt.
  pose proof (fun cmd => look_up_found which
                (SystemCheck.optional_commands req) (found1, []) cmd)
    as Hfopt.
  destruct (fold_left (SystemCheck.look_up which)
              (SystemCheck.optional_commands req) (found1, []))
    as [found2 missing2].
  simpl in *. subst missing1 missing2.
  split; [done|]. split; [done|]. split; [|split].
  - intros cmd. rewrite Hfopt, Hfreq. rewrite lookup_empty. split.
    + intros [[H|[H1 H2]]|[H1 H2]].
      * by destruct H.
      * split; [by left|done].
      * split; [by right|done].
    + intros [[H|H] Hus]; [left; right; done|right; done].
  - rewrite Nat.eqb_eq, length_zero_iff_nil. split.
    + intros Hnil cmd Hcmd.
      destruct (SystemCheck.usable which cmd) eqn:Hus; [done|].
      assert (Hin : cmd ∈ filter
                (fun cmd => SystemCheck.usable which cmd = false)
                (SystemCheck.required_commands req))
        by by apply list_elem_of_filter.
      rewrite Hnil in Hin. by apply elem_of_nil in Hin.
    + intros Hall.
      destruct (filter _ _) as [|cmd rest] eqn:Hfilter; [done|].
      assert (Hin : cmd ∈ filter
                (fun cmd => SystemCheck.usable which cmd = false)
                (SystemCheck.required_commands req))
        by (rewrite Hfilter; left).
      apply list_elem_of_filter in Hin as [Hus Hcmd].
      rewrite (Hall cmd Hcmd) in Hus. discriminate.
  - unfold SystemCheck.format_command_details. simpl.
    destruct (filter _ _) as [|cmd rest]; simpl; [done|].
    split; intros H; discriminate.
Qed.

(** ** Themes *)

Section ThemeFacts.

Import Themes.

Lemma fonts_data_all (items : list (string * list value)) :
  Forall (fun kv => (2 <= length kv.2)%nat) items ->
  exists ds,
    fonts_data items = Return ds /\
    Forall2 (fun kv kd => kv.1 = kd.1 /\ font_data kv.2 = Return kd.2)
            items ds.
Proof.
  induction 1 as [|[k v] items Hv _ IH]; simpl.
  - by exists [].
  - destruct IH as (ds & -> & Hds).
    destruct v as [|family [|size rest]]; simpl in Hv; try lia.
    simpl. eexists. split; [reflexivity|]. by constructor.
Qed.

Lemma font_data_reloaded (v : list value) (d : FontData) :
  font_data v = Return d -> font_tuple d = reloaded v.
Proof.
  destruct v as [|family [|size [|weight rest]]]; simpl; try done.
  - by intros [= <-].
  - intros [= <-]. unfold font_tuple. simpl. by case_decide.
Qed.

Lemma saved_fonts (m : gmap string (list value))
    (ds : list (string * FontData)) (k : string) :
  Forall2 (fun kv kd => kv.1 = kd.1 /\ font_data kv.2 = Return kd.2)
          (map_to_list m) ds ->
  font_tuple <$> (list_to_map ds : gmap string FontData) !! k
  = reloaded <$> m !! k.
Proof.
  intros Hds.
  assert (Hlist : prod_map id font_tuple <$> ds
                  = prod_map id reloaded <$> map_to_list m).
  { induction Hds as [|[k1 v] [k2 d] items ds' [Hk Hd] _ IH]; [done|].
    simpl in *. subst k2. rewrite (font_data_reloaded v d Hd).
    f_equal. exact IH. }
  rewrite <- lookup_fmap, <- list_to_map_fmap, Hlist, list_to_map_fmap,
    list_to_map_to_list.
  by rewrite lookup_fmap.
Qed.

End ThemeFacts.

(** X26. What [load_from_file] reads back from the file [save_to_file]
    wrote: when every font tuple has at least two entries the file is
    written, and the theme loaded from it has the name, the mode and the
    colours of the theme saved; each font of the theme saved comes back
    with its first three entries, without the third when that is the
    text normal; and a font the theme saved lacks is the default font of
    that key, if there is one. *)
Theorem theme_reloaded :
  forall (filepath : string) (t : Themes.Theme)
         (files : gmap string Themes.ThemeData),
    (forall k v, Themes.fonts t !! k = Some v -> (2 <= length v)%nat) ->
    let saved := Themes.save_to_file filepath t files in
    saved.2 = Return tt /\
    exists t',
      Themes.load_from_file filepath saved.1 = Return t' /\
      Themes.name t' = Themes.name t /\
      Themes.is_dark t' = Themes.is_dark t /\
      Themes.colors t' = Themes.colors t /\
      forall k,
        Themes.fonts t' !! k =
          match Themes.fonts t !! k with
          | Some v => Some (Themes.reloaded v)
          | None => Themes.default_fonts !! k
          end.
Proof.
  intros filepath t files Hfonts saved. subst saved.
  unfold Themes.save_to_file.
  destruct (fonts_data_all (map_to_list (Themes.fonts t)))
    as (ds & Hsave & Hds).
  { apply Forall_forall. intros [k v] Hkv.
    apply elem_of_map_to_list in Hkv. exact (Hfonts k v Hkv). }
  rewrite Hsave. simpl. split; [done|].
  unfold Themes.load_from_file. rewrite lookup_insert_eq. simpl.
  eexists. split; [reflexivity|]. simpl. repeat split.
  intros k. rewrite lookup_union, lookup_fmap.
  rewrite (saved_fonts (Themes.fonts t) ds k Hds).
  destruct (Themes.fonts t !! k) as [v|]; simpl.
  - by destruct (Themes.default_fonts !! k).
  - by destruct (Themes.default_fonts !! k).
Qed.

Lemma theme_reloaded_witness :
  (Themes.save_to_file "dark.json" (Themes.init "dark" true) ∅).2
  = Return tt.
Proof.
  refine (proj1 (theme_reloaded "dark.json" (Themes.init "dark" true) ∅ _)).
  intros k v Hkv.
  assert (Hin : (k, v) ∈ map_to_list Themes.default_fonts)
    by by apply elem_of_map_to_list.
  change (2 <= length (k, v).2)%nat.
  revert Hin. generalize (k, v). apply Forall_forall.
  apply (bool_decide_unpack _). vm_compute. exact I.
Defined.

(** X27. A theme whose fonts are tuples of two entries, or of three with
    a weight other than the text normal, and which has a font for every
    key of the default fonts, is read back from its file as it was
    saved. *)
Theorem theme_round_trip :
  forall (filepath : string) (t : Themes.Theme)
         (files : gmap string Themes.ThemeData),
    (forall k v, Themes.fonts t !! k = Some v ->
                 length v = 2%nat \/
                 (length v = 3%nat /\ v !! 2%nat <> Some (Themes.VStr "normal")))
    ->
    (forall k, is_Some (Themes.default_fonts !! k) ->
               is_Some (Themes.fonts t !! k)) ->
    Themes.load_from_file filepath (Themes.save_to_file filepath t files).1
    = Return t.
Proof.
  intros filepath t files Hfonts Hkeys.
  unfold Themes.save_to_file.
  destruct (fonts_data_all (map_to_list (Themes.fonts t)))
    as (ds & Hsave & Hds).
  { apply Forall_forall. intros [k v] Hkv.
    apply elem_of_map_to_list in Hkv.
    destruct (Hfonts k v Hkv) as [H|[H _]]; simpl; lia. }
  rewrite Hsave. simpl.
  unfold Themes.load_from_file. rewrite lookup_insert_eq. simpl.
  destruct t as [name is_dark colors fonts]. simpl in *. f_equal. f_equal.
  apply map_eq. intros k. rewrite lookup_union, lookup_fmap.
  rewrite (saved_fonts fonts ds k Hds).
  destruct (fonts !! k) as [v|] eqn:Hv; simpl.
  - assert (Hre : Themes.reloaded v = v).
    { destruct (Hfonts k v Hv) as [H|[H Hw]].
      - by destruct v as [|family [|size [|weight rest]]].
      - destruct v as [|family [|size [|weight [|]]]]; try done.
        simpl. case_decide; [|done]. subst weight. by destruct Hw. }
    rewrite Hre. by destruct (Themes.default_fonts !! k).
  - destruct (Themes.default_fonts !! k) eqn:Hdef; [|done].
    destruct (Hkeys k) as [v Hv']; [by eexists|]. congruence.
Qed.

Lemma theme_round_trip_witness :
  Themes.load_from_file "dark.json"
    (Themes.save_to_file "dark.json" (Themes.init "dark" true) ∅).1
  = Return (Themes.init "dark" true).
Proof.
  apply (theme_round_trip "dark.json" (Themes.init "dark" true) ∅).
  - intros k v Hkv.
    assert (Hin : (k, v) ∈ map_to_list Themes.default_fonts)
      by by apply elem_of_map_to_list.
    change (length (k, v).2 = 2%nat \/
            (length (k, v).2 = 3%nat /\
             (k, v).2 !! 2%nat <> Some (Themes.VStr "normal"))).
    revert Hin. generalize (k, v). apply Forall_forall.
    apply (bool_decide_unpack _). vm_compute. exact I.
  - intros k Hk. exact Hk.
Defined.

(** ** The settings of the installer window *)

(** X28. The language and the mode of the theme survive a restart: the
    settings one window saved, loaded by the next window over the same
    language files, select the language the first window had and a
    default theme of the mode it had. *)
Theorem settings_survive_restart :
  forall (english : gmap string string)
         (files : list (string * gmap string string))
         (w : Prefs.Window),
    I18n.translations (Prefs.i18n w)
    = I18n.translations (I18n.init english files) ->
    is_Some (I18n.translations (Prefs.i18n w)
               !! I18n.current_language (Prefs.i18n w)) ->
    let stored := Prefs.settings_file (Prefs.save_settings w) in
    let w' := Prefs.load_settings (Prefs.created english files stored) in
    I18n.current_language (Prefs.i18n w')
    = I18n.current_language (Prefs.i18n w) /\
    Prefs.theme w'
    = Themes.init "default" (Themes.is_dark (Prefs.theme w)).
Proof.
  intros english files w Htables Hloaded stored w'. subst stored w'.
  unfold Prefs.load_settings, Prefs.save_settings, Prefs.created.
  cbn [Prefs.settings_file Prefs.language Prefs.theme_name].
  unfold Prefs.with_i18n.
  cbn [Prefs.i18n Prefs.theme Prefs.check_updates_var Prefs.analytics_var
       Prefs.settings_file].
  unfold I18n.set_language. rewrite <- Htables.
  destruct (decide _) as [_|Hno]; [|done].
  destruct (Themes.is_dark (Prefs.theme w)); simpl; done.
Qed.

Lemma settings_survive_restart_witness :
  let files := [("de", {[ "next" := "Weiter" ]})] in
  let w := Prefs.toggle_theme
             (Prefs.change_language "de" (Prefs.created ∅ files None)) in
  let w' := Prefs.load_settings
              (Prefs.created ∅ files (Prefs.settings_file w)) in
  I18n.current_language (Prefs.i18n w') = "de" /\
  Prefs.theme w' = Themes.init "default" false.
Proof.
  intros files w w'.
  apply (settings_survive_restart ∅ files w).
  - reflexivity.
  - apply (bool_decide_unpack _). vm_compute. exact I.
Defined.

(** X29. The two check boxes are saved and never loaded. Whatever the
    settings file holds, after [load_settings] the two variables have the
    values they were made with; and when the file names the light theme,
    [load_settings] itself writes the file anew, through [toggle_theme],
    with those values, so the stored choices are lost. *)
Theorem stored_choices_are_not_restored :
  forall (english : gmap string string)
         (files : list (string * gmap string string))
         (stored : option Prefs.Settings),
    let w := Prefs.load_settings (Prefs.created english files stored) in
    Prefs.check_updates_var w = Some true /\
    Prefs.analytics_var w = Some false /\
    forall settings,
      stored = Some settings ->
      Prefs.theme_name settings = Some "light" ->
      exists written,
        Prefs.settings_file w = Some written /\
        Prefs.check_updates written = true /\
        Prefs.analytics written = false.
Proof.
  intros english files stored w. subst w.
  unfold Prefs.load_settings, Prefs.created.
  cbn [Prefs.settings_file].
  destruct stored as [settings|]; [|by repeat split].
  destruct (Prefs.language settings) as [lang|];
    destruct (Prefs.theme_name settings) as [name|] eqn:Hname;
    cbn [Prefs.with_i18n Prefs.theme Prefs.i18n Prefs.check_updates_var
         Prefs.analytics_var Prefs.settings_file];
    try (repeat split; intros ? [= <-] ?; congruence).
  - change (Themes.is_dark (Themes.init "default" true)) with true.
    change (negb true) with false.
    destruct (String.eqb name "dark"); cbn [andb];
      destruct (String.eqb name "light") eqn:Hlight; cbn [andb].
    + repeat split. intros s _ _. by eexists.
    + repeat split. intros s [= <-] Hs. rewrite Hs in Hname.
      injection Hname as Hlit. rewrite <- Hlit in Hlight. discriminate.
    + repeat split. intros s _ _. by eexists.
    + repeat split. intros s [= <-] Hs. rewrite Hs in Hname.
      injection Hname as Hlit. rewrite <- Hlit in Hlight. discriminate.
  - change (Themes.is_dark (Themes.init "default" true)) with true.
    change (negb true) with false.
    destruct (String.eqb name "dark"); cbn [andb];
      destruct (String.eqb name "light") eqn:Hlight; cbn [andb].
    + repeat split. intros s _ _. by eexists.
    + repeat split. intros s [= <-] Hs. rewrite Hs in Hname.
      injection Hname as Hlit. rewrite <- Hlit in Hlight. discriminate.
    + repeat split. intros s _ _. by eexists.
    + repeat split. intros s [= <-] Hs. rewrite Hs in Hname.
      injection Hname as Hlit. rewrite <- Hlit in Hlight. discriminate.
Qed.
